(** * path_planner: the sampling-based planner's open list, goal test and
      expansion step, and the executive's re-planning loop.

    Sources embedded here:
      - path_planner/src/planner/SamplingBasedPlanner.cpp
      - src/executive/executive.cpp

    C++ [double] values are IEEE 754 binary64 numbers, modelled by the
    Standard Library's [spec_float] with its comparison [SFcompare]
    (a NaN compares false with everything).  [std::vector] is a [list]
    indexed with stdpp's lookup and insert.  The three heap algorithms of
    <algorithm> that the planner calls are written out after libstdc++'s
    bits/stl_heap.h. *)

From Stdlib Require Import ZArith Bool Lia String.
From Stdlib Require Import Floats.SpecFloat.
From stdpp Require Import base option list.

Local Open Scope nat_scope.

(* ===================================================================== *)
(** ** IEEE 754 binary64 *)
(* ===================================================================== *)

Module Double.

Definition double : Type := spec_float.

Definition prec : Z := 53%Z.
Definition emax : Z := 1024%Z.

Definition add : double → double → double := SFadd prec emax.
Definition sub : double → double → double := SFsub prec emax.
Definition mul : double → double → double := SFmul prec emax.
Definition div : double → double → double := SFdiv prec emax.

(** The C++ operators [a < b], [a <= b], [a == b], [a > b], [a >= b]. *)
Definition lt (a b : double) : bool := SFltb a b.
Definition le (a b : double) : bool := SFleb a b.
Definition eq (a b : double) : bool := SFeqb a b.
Definition gt (a b : double) : bool := SFltb b a.
Definition ge (a b : double) : bool := SFleb b a.

Definition is_nan (a : double) : bool :=
  match a with S754_nan => true | _ => false end.

(** A number, as opposed to a NaN. *)
Definition ordered (a : double) : Prop := is_nan a = false.

Definition zero : double := S754_zero false.
Definition nan : double := S754_nan.

(** [of_pos p] is the double closest to the positive integer [p]. *)
Definition of_pos (p : positive) : double :=
  binary_normalize prec emax (Z.pos p) 0 false.

Definition of_Z (z : Z) : double :=
  match z with
  | Z0 => zero
  | Zpos p => of_pos p
  | Zneg p => SFopp (of_pos p)
  end.

(** The conversion [(int) a]: the fraction is dropped; the behaviour is
    undefined ([None]) when the result does not fit an [int]. *)
Definition to_int (a : double) : option Z :=
  match a with
  | S754_zero _ => Some 0%Z
  | S754_finite s m e =>
      let z := if (0 <=? e)%Z then (Z.pos m * 2 ^ e)%Z
               else (Z.pos m / 2 ^ (- e))%Z in
      let z := if s then (- z)%Z else z in
      if ((- 2 ^ 31 <=? z) && (z <? 2 ^ 31))%Z then Some z else None
  | _ => None
  end.

End Double.

Abbreviation double := Double.double.

(* ===================================================================== *)
(** ** <algorithm>: push_heap, pop_heap, make_heap *)
(* ===================================================================== *)

(** The algorithms work on the range [first, first + len) of a vector; the
    vector is the list [l], [first] is index 0.  [comp a b] is the
    comparator: "[a] is ordered before [b]", so the front of a heap is an
    element no other element is ordered after. *)

Section StdHeap.
Context {A : Type}.
Variable comp : A → A → bool.

Definition parent (i : nat) : nat := (i - 1) / 2.

(** [std::__push_heap(first, holeIndex, topIndex, value, comp)]:
<<
    parent = (holeIndex - 1) / 2;
    while (holeIndex > topIndex && comp(first + parent, value)) {
      *(first + holeIndex) = *(first + parent);
      holeIndex = parent;
      parent = (holeIndex - 1) / 2;
    }
    *(first + holeIndex) = value;
>>
    The hole index decreases at every turn of the loop, so [holeIndex]
    turns are enough. *)
Fixpoint push_heap_loop (fuel : nat) (l : list A)
         (holeIndex topIndex : nat) (value : A) : list A :=
  match fuel with
  | O => <[holeIndex := value]> l
  | S fuel' =>
      if topIndex <? holeIndex then
        match l !! parent holeIndex with
        | Some p =>
            if comp p value
            then push_heap_loop fuel' (<[holeIndex := p]> l)
                                (parent holeIndex) topIndex value
            else <[holeIndex := value]> l
        | None => <[holeIndex := value]> l
        end
      else <[holeIndex := value]> l
  end.

Definition std_push_heap_aux (l : list A) (holeIndex topIndex : nat)
           (value : A) : list A :=
  push_heap_loop holeIndex l holeIndex topIndex value.

(** [std::push_heap(first, first + len, comp)]: the value at [len - 1]
    is pushed into the heap [first, first + len - 1). *)
Definition push_heap (l : list A) (len : nat) : list A :=
  match l !! (len - 1) with
  | Some value => std_push_heap_aux l (len - 1) 0 value
  | None => l
  end.

(** The first loop of [std::__adjust_heap]:
<<
    while (secondChild < (len - 1) / 2) {
      secondChild = 2 * (secondChild + 1);
      if (comp(first + secondChild, first + (secondChild - 1)))
        secondChild--;
      *(first + holeIndex) = *(first + secondChild);
      holeIndex = secondChild;
    }
>>
    [holeIndex] and [secondChild] are equal at every test of the loop
    condition; the result is the vector and that index. *)
Fixpoint adjust_heap_loop (fuel : nat) (l : list A)
         (holeIndex len : nat) : list A * nat :=
  match fuel with
  | O => (l, holeIndex)
  | S fuel' =>
      if holeIndex <? (len - 1) / 2 then
        let secondChild := 2 * (holeIndex + 1) in
        match l !! secondChild, l !! (secondChild - 1) with
        | Some r, Some lft =>
            if comp r lft
            then adjust_heap_loop fuel' (<[holeIndex := lft]> l)
                                  (secondChild - 1) len
            else adjust_heap_loop fuel' (<[holeIndex := r]> l)
                                  secondChild len
        | _, _ => (l, holeIndex)
        end
      else (l, holeIndex)
  end.

(** [std::__adjust_heap(first, holeIndex, len, value, comp)].  After the
    loop:
<<
    if ((len & 1) == 0 && secondChild == (len - 2) / 2) {
      secondChild = 2 * (secondChild + 1);
      *(first + holeIndex) = *(first + (secondChild - 1));
      holeIndex = secondChild - 1;
    }
    std::__push_heap(first, holeIndex, topIndex, value, comp);
>>
    [len] is a signed distance: for [len = 0] the quotient [(len - 2) / 2]
    is [-1] and the test fails, which [2 <=? len] states here. *)
Definition adjust_heap (l : list A) (holeIndex len : nat) (value : A)
  : list A :=
  let topIndex := holeIndex in
  let '(l1, secondChild) := adjust_heap_loop len l holeIndex len in
  let '(l2, holeIndex2) :=
    if Nat.even len && (2 <=? len) && (secondChild =? (len - 2) / 2) then
      match l1 !! (2 * (secondChild + 1) - 1) with
      | Some x => (<[secondChild := x]> l1, 2 * (secondChild + 1) - 1)
      | None => (l1, secondChild)
      end
    else (l1, secondChild) in
  std_push_heap_aux l2 holeIndex2 topIndex value.

(** [std::pop_heap(first, first + len, comp)]:
<<
    if (last - first > 1) {
      --last;
      value = *last;  *last = *first;
      std::__adjust_heap(first, 0, last - first, value, comp);
    }
>> *)
Definition pop_heap (l : list A) (len : nat) : list A :=
  if 1 <? len then
    match l !! (len - 1), l !! 0 with
    | Some value, Some top =>
        adjust_heap (<[len - 1 := top]> l) 0 (len - 1) value
    | _, _ => l
    end
  else l.

(** [std::make_heap(first, first + len, comp)]:
<<
    if (last - first < 2) return;
    parent = (len - 2) / 2;
    while (true) {
      value = *(first + parent);
      std::__adjust_heap(first, parent, len, value, comp);
      if (parent == 0) return;
      parent--;
    }
>> *)
Fixpoint make_heap_loop (l : list A) (len p : nat) : list A :=
  let l' := match l !! p with
            | Some value => adjust_heap l p len value
            | None => l
            end in
  match p with
  | O => l'
  | S p' => make_heap_loop l' len p'
  end.

Definition make_heap (l : list A) (len : nat) : list A :=
  if len <? 2 then l else make_heap_loop l len ((len - 2) / 2).

(** The range [first, first + len) is a heap: no element is ordered
    after its parent's successor, that is [comp parent child] is false. *)
Definition is_heap (l : list A) (len : nat) : Prop :=
  ∀ i x y, 0 < i < len → l !! i = Some x → l !! parent i = Some y →
           comp y x = false.

End StdHeap.

(** The range is a heap once the place [h] is left out: every other place
    obeys its parent, and the children of [h] obey the parent of [h]. *)
Definition hole_heap {A : Type} (comp : A → A → bool) (l : list A)
           (len h : nat) : Prop :=
  (∀ i x y, 0 < i < len → i ≠ h → parent i ≠ h →
            l !! i = Some x → l !! parent i = Some y → comp y x = false)
  ∧ (∀ c x y, 0 < h → c < len → parent c = h →
              l !! c = Some x → l !! parent h = Some y → comp y x = false).

(** The children of the place [h] are not ordered after [value]. *)
Definition below_value {A : Type} (comp : A → A → bool) (l : list A)
           (len h : nat) (value : A) : Prop :=
  ∀ c x, 0 < c < len → parent c = h → l !! c = Some x → comp value x = false.

(* ===================================================================== *)
(** ** Data model *)
(* ===================================================================== *)

Module State.
(** [State(x, y, heading, speed, time)]. *)
Record t := mk { x : double; y : double; heading : double;
                 speed : double; time : double }.

Definition with_speed (s : t) (v : double) : t :=
  mk (x s) (y s) (heading s) v (time s).
End State.

Module Edge.
(** Modelled from the spec: Edge.h is not among the sources.  An edge
    carries an approximate cost, a true cost, the infeasible flag and
    the coverage-mode flag of the policy that produced it. *)
Record t := mk { approxCost : double; trueCost : double;
                 infeasible : bool; coverage : bool }.
End Edge.

Module Vertex.
(** Modelled from the spec: Vertex.h is not among the sources.  A vertex
    holds its state, its depth (edges from the root), its parent edge
    (absent for the root), its cached total cost [f = g + h] (the value
    of [f()] once [approxToGo()] has been computed) and whether the
    coverage objective is complete at it. *)
Record t := mk { state : State.t; depth : Z; parentEdge : option Edge.t;
                 f : double; done : bool }.

(** The root is the vertex without a parent edge. *)
Definition isRoot (v : t) : bool :=
  match parentEdge v with None => true | Some _ => false end.

Definition getDepth (v : t) : Z := depth v.
End Vertex.

(** The exceptions the planner throws. *)
Inductive exn : Type :=
| out_of_range (what : string).

(** What a call does: it returns, it throws, its behaviour is undefined
    (a null pointer or an empty vector is read), or the bound on the number
    of loop turns given to the model was too small. *)
Inductive outcome (S A : Type) : Type :=
| Ok (a : A) (s : S)
| Throw (e : exn) (s : S)
| Undefined
| OutOfFuel.
Arguments Ok {S A} a s.
Arguments Throw {S A} e s.
Arguments Undefined {S A}.
Arguments OutOfFuel {S A}.

Definition bind {S A B} (m : S → outcome S A) (k : A → S → outcome S B)
  : S → outcome S B :=
  fun s => match m s with
           | Ok a s' => k a s'
           | Throw e s' => Throw e s'
           | Undefined => Undefined
           | OutOfFuel => OutOfFuel
           end.

Definition ret {S A} (a : A) : S → outcome S A := fun s => Ok a s.
Definition lift {S} (g : S → S) : S → outcome S unit := fun s => Ok tt (g s).

Declare Scope planner_scope.
Delimit Scope planner_scope with planner.
Notation "'call' x <- m 'in' k" := (bind m (fun x => k))
  (at level 10, x name, m at level 100, k at level 200) : planner_scope.
Notation "'exec' m 'in' k" := (bind m (fun _ => k))
  (at level 10, m at level 100, k at level 200) : planner_scope.

(** [int] converted to [size_t] by the usual arithmetic conversions, as in
    [bestSamples.size() < k()]. *)
Definition to_size_t (i : Z) : Z := (i mod 2 ^ 64)%Z.

(* ===================================================================== *)
(** ** SamplingBasedPlanner *)
(* ===================================================================== *)

(** The configuration the planner reads; [ObstaclesManager] is the type of
    the dynamic obstacles manager, whose code is not among the sources. *)
Record PlannerConfig (ObstaclesManager : Type) := mkConfig {
  timeHorizon : double;
  timeMinimum : double;
  maxSpeed : double;
  turningRadius : double;
  coverageTurningRadius : double;
  collisionCheckingIncrement : double;
  branchingFactor : Z;
  visualizations : bool;
  obstaclesManager : ObstaclesManager
}.
Arguments mkConfig {ObstaclesManager}.
Arguments timeHorizon {ObstaclesManager}.
Arguments timeMinimum {ObstaclesManager}.
Arguments maxSpeed {ObstaclesManager}.
Arguments turningRadius {ObstaclesManager}.
Arguments coverageTurningRadius {ObstaclesManager}.
Arguments collisionCheckingIncrement {ObstaclesManager}.
Arguments branchingFactor {ObstaclesManager}.
Arguments visualizations {ObstaclesManager}.
Arguments obstaclesManager {ObstaclesManager}.

(** Collaborators of the planner whose code is not among the sources: the
    ribbon manager, the obstacle manager, the plan type, the state
    generator and the geometry of states, vertices and edges. *)
Class Collaborators := {
  RibbonManager : Type;
  DynamicObstaclesManager : Type;
  DubinsPlan : Type;
  StateGenerator : Type;
  (** [s1.distanceTo(s2)]. *)
  distanceTo : State.t → State.t → double;
  (** [vertex->getNearestPointAsState()]. *)
  getNearestPointAsState : Vertex.t → State.t;
  (** [Vertex::connect(source, state, turningRadius, coverage)]. *)
  connect : Vertex.t → State.t → double → bool → Vertex.t;
  (** [Vertex::makeRoot(start, ribbonManager)]. *)
  makeRoot : State.t → RibbonManager → Vertex.t;
  (** The vertex once [vertex->parentEdge()->computeTrueCost(config)] and
      [...->computeApproxCost()] have run. *)
  computeTrueCost : PlannerConfig DynamicObstaclesManager → Vertex.t → Vertex.t;
  computeApproxCost : Vertex.t → Vertex.t;
  (** [StateGenerator(minX, maxX, minY, maxY, minSpeed, maxSpeed, seed,
      ribbonManager)] and [generator.generate()]. *)
  newStateGenerator :
    double → double → double → double → double → double → Z →
    RibbonManager → StateGenerator;
  generate : StateGenerator → State.t * StateGenerator;
  (** [tracePlan(vertex, smoothing, obstacles)]. *)
  tracePlan : Vertex.t → bool → DynamicObstaclesManager → DubinsPlan
}.

Section SamplingBasedPlanner.

Context `{Collaborators}.

(** A line written to the visualization stream by [visualizeVertex]:
    "Expanded" or "Generated", the vertex and the tag. *)
Record VisLine := mkVis { vis_expanded : bool; vis_vertex : Vertex.t;
                          vis_tag : string }.

(** Ghost history, read by no operation: the vertices made by
    [Vertex::connect] with the coverage flag they were made with, and the
    candidates a bounded selection dropped for exceeding the bound. *)
Inductive Ghost : Type :=
| Connected (coverage : bool) (radius : double) (v : Vertex.t)
| Evicted (coverage : bool) (v : Vertex.t).

Record Planner := mkPlanner {
  m_Config : PlannerConfig DynamicObstaclesManager;
  m_StartStateTime : double;
  m_Samples : list State.t;
  m_VertexQueue : list Vertex.t;
  m_BestVertex : option Vertex.t;
  m_RibbonManager : RibbonManager;
  m_ExpandedCount : Z;
  visualizationStream : list VisLine;
  ghost : list Ghost
}.

Definition set_config c (p : Planner) := mkPlanner
  c (m_StartStateTime p) (m_Samples p) (m_VertexQueue p) (m_BestVertex p)
  (m_RibbonManager p) (m_ExpandedCount p) (visualizationStream p) (ghost p).
Definition set_startStateTime t (p : Planner) := mkPlanner
  (m_Config p) t (m_Samples p) (m_VertexQueue p) (m_BestVertex p)
  (m_RibbonManager p) (m_ExpandedCount p) (visualizationStream p) (ghost p).
Definition set_samples l (p : Planner) := mkPlanner
  (m_Config p) (m_StartStateTime p) l (m_VertexQueue p) (m_BestVertex p)
  (m_RibbonManager p) (m_ExpandedCount p) (visualizationStream p) (ghost p).
Definition set_vertexQueue q (p : Planner) := mkPlanner
  (m_Config p) (m_StartStateTime p) (m_Samples p) q (m_BestVertex p)
  (m_RibbonManager p) (m_ExpandedCount p) (visualizationStream p) (ghost p).
Definition set_expandedCount n (p : Planner) := mkPlanner
  (m_Config p) (m_StartStateTime p) (m_Samples p) (m_VertexQueue p)
  (m_BestVertex p) (m_RibbonManager p) n (visualizationStream p) (ghost p).
Definition set_visualizationStream o (p : Planner) := mkPlanner
  (m_Config p) (m_StartStateTime p) (m_Samples p) (m_VertexQueue p)
  (m_BestVertex p) (m_RibbonManager p) (m_ExpandedCount p) o (ghost p).
Definition set_ghost g (p : Planner) := mkPlanner
  (m_Config p) (m_StartStateTime p) (m_Samples p) (m_VertexQueue p)
  (m_BestVertex p) (m_RibbonManager p) (m_ExpandedCount p)
  (visualizationStream p) g.

Definition note (g : Ghost) (p : Planner) : Planner :=
  set_ghost (ghost p ++ [g]) p.

(** *** The comparators *)

(** [getVertexComparator()]: [v1->getDepth() < v2->getDepth()]. *)
Definition getVertexComparator (v1 v2 : Vertex.t) : bool :=
  (Vertex.getDepth v1 <? Vertex.getDepth v2)%Z.

(** [getStateComparator(origin)]:
    [s1.distanceTo(origin) > s2.distanceTo(origin)]. *)
Definition getStateComparator (origin s1 s2 : State.t) : bool :=
  Double.gt (distanceTo s1 origin) (distanceTo s2 origin).

(** [v->parentEdge()->approxCost()].  The parent edge of a root is a null
    pointer; the comparator below has to be total, and a root's cost
    compares as a NaN does. *)
Definition approxCost (v : Vertex.t) : double :=
  match Vertex.parentEdge v with
  | Some e => Edge.approxCost e
  | None => Double.nan
  end.

(** [getDubinsComparator(origin)]:
    [v1->parentEdge()->approxCost() < v2->parentEdge()->approxCost()]. *)
Definition getDubinsComparator (v1 v2 : Vertex.t) : bool :=
  Double.lt (approxCost v1) (approxCost v2).

(** *** goalCondition *)

Definition goalCondition (p : Planner) (vertex : Vertex.t) : bool :=
  Double.ge (State.time (Vertex.state vertex))
            (Double.add (m_StartStateTime p) (timeHorizon (m_Config p)))
  || (Vertex.done vertex
      && Double.ge (State.time (Vertex.state vertex))
                   (Double.add (m_StartStateTime p)
                               (timeMinimum (m_Config p)))).

(** *** visualizeVertex *)

Definition visualizeVertex (v : Vertex.t) (tag : string) (expanded : bool)
           (p : Planner) : Planner :=
  if visualizations (m_Config p)
  then set_visualizationStream
         (visualizationStream p ++ [mkVis expanded v tag]) p
  else p.

(** *** pushVertexQueue *)

Definition f_of (o : option Vertex.t) (g : double → bool) : bool :=
  match o with Some b => g (Vertex.f b) | None => false end.

(** [vertex->approxToGo()] only makes sure that the heuristic is cached;
    [Vertex.f] is the total cost with the heuristic computed. *)
Definition pushVertexQueue (vertex : Vertex.t) (p : Planner) : Planner :=
  if negb (Vertex.isRoot vertex)
     && match Vertex.parentEdge vertex with
        | Some e => Edge.infeasible e
        | None => false
        end
  then p
  else if f_of (m_BestVertex p) (fun fb => Double.lt fb (Vertex.f vertex))
  then p
  else if f_of (m_BestVertex p) (fun fb => Double.eq fb (Vertex.f vertex))
          && goalCondition p vertex
  then p
  else
    let q := m_VertexQueue p ++ [vertex] in
    let q := push_heap getVertexComparator q (length q) in
    visualizeVertex vertex "vertex" false (set_vertexQueue q p).

(** *** popVertexQueue *)

Definition popVertexQueue (p : Planner) : outcome Planner Vertex.t :=
  match m_VertexQueue p with
  | [] => Throw (out_of_range "Trying to pop an empty vertex queue") p
  | _ :: _ =>
      let q := pop_heap getVertexComparator (m_VertexQueue p)
                        (length (m_VertexQueue p)) in
      match last q with
      | Some ret => Ok ret (set_vertexQueue (removelast q) p)
      | None => Undefined
      end
  end.

Definition clearVertexQueue (p : Planner) : Planner := set_vertexQueue [] p.

Definition vertexQueueEmpty (p : Planner) : bool :=
  match m_VertexQueue p with [] => true | _ => false end.

Definition k (p : Planner) : Z := branchingFactor (m_Config p).

(** *** expand *)

Local Open Scope planner_scope.

(** The nearest point to cover (lines 51-64 of the source). *)
Definition expand_nearest (sourceVertex : Vertex.t) (p : Planner)
  : Planner :=
  if negb (Vertex.done sourceVertex) then
    let s := getNearestPointAsState sourceVertex in
    if Double.gt (distanceTo (Vertex.state sourceVertex) s)
                 (collisionCheckingIncrement (m_Config p))
    then
      let s := State.with_speed s (maxSpeed (m_Config p)) in
      let r := turningRadius (m_Config p) in
      let destinationVertex := connect sourceVertex s r false in
      let p := note (Connected false r destinationVertex) p in
      let p := pushVertexQueue
                 (computeTrueCost (m_Config p) destinationVertex) p in
      let rc := coverageTurningRadius (m_Config p) in
      let destinationVertex := connect sourceVertex s rc true in
      let p := note (Connected true rc destinationVertex) p in
      pushVertexQueue (computeTrueCost (m_Config p) destinationVertex) p
    else p
  else p.

(** The test that lets a sample into a bounded selection:
<<
    best.size() < k() ||
    best.front()->parentEdge()->approxCost()
      > sample.distanceTo(sourceVertex->state())
>>
    [k()] is an [int] and is converted to [size_t] for the comparison. *)
Definition wanted (sourceVertex : Vertex.t) (sample : State.t)
           (best : list Vertex.t) : Planner → outcome Planner bool :=
  fun p =>
    if (Z.of_nat (length best) <? to_size_t (k p))%Z then Ok true p
    else match best !! 0 with
         | None => Undefined
         | Some front =>
             match Vertex.parentEdge front with
             | None => Undefined
             | Some e =>
                 Ok (Double.gt (Edge.approxCost e)
                       (distanceTo sample (Vertex.state sourceVertex))) p
             end
         end.

(** One policy's half of a turn of the scan loop (lines 77-91 for the
    direct policy, 92-105 for the coverage policy): the selection and its
    "done" flag afterwards. *)
Definition offer (sourceVertex : Vertex.t) (sample : State.t)
           (radius : double) (coverage : bool)
           (best : list Vertex.t) (finished : bool)
  : Planner → outcome Planner (list Vertex.t * bool) :=
  if finished then ret (best, true)
  else
    call w <- wanted sourceVertex sample best in
    if w then
      fun p =>
        if Double.gt (distanceTo (Vertex.state sourceVertex) sample)
                     (collisionCheckingIncrement (m_Config p))
        then
          let v := connect sourceVertex sample radius coverage in
          let p := note (Connected coverage radius v) p in
          let best := best ++ [computeApproxCost v] in
          let best := push_heap getDubinsComparator best (length best) in
          if (to_size_t (k p) <? Z.of_nat (length best))%Z then
            let best := pop_heap getDubinsComparator best (length best) in
            match last best with
            | Some worst =>
                Ok (removelast best, false) (note (Evicted coverage worst) p)
            | None => Undefined
            end
          else Ok (best, false) p
        else Ok (best, false) p
    else ret (best, true).

(** The scan loop (lines 74-106); [i] counts the samples looked at. *)
Fixpoint scan (fuel : nat) (i : nat) (sourceVertex : Vertex.t)
         (bestSamples bestCoverageSamples : list Vertex.t)
         (regularDone coverageDone : bool)
  : Planner → outcome Planner (list Vertex.t * list Vertex.t) :=
  fun p =>
    if (i <? length (m_Samples p))
       && (negb regularDone || negb coverageDone)
    then
      match fuel with
      | O => OutOfFuel
      | S fuel' =>
          match m_Samples p !! 0 with
          | None => Undefined
          | Some sample =>
              let comp := getStateComparator (Vertex.state sourceVertex) in
              let p := set_samples
                         (pop_heap comp (m_Samples p)
                                   (length (m_Samples p) - i)) p in
              (call r <- offer sourceVertex sample
                           (turningRadius (m_Config p)) false
                           bestSamples regularDone in
               call c <- offer sourceVertex sample
                           (coverageTurningRadius (m_Config p)) true
                           bestCoverageSamples coverageDone in
               scan fuel' (i + 1) sourceVertex (fst r) (fst c)
                    (snd r) (snd c)) p
          end
      end
    else Ok (bestSamples, bestCoverageSamples) p.

(** Pushing the retained candidates onto the open list (lines 108-114 and
    116-122).  The vector holds pointers: the vertex whose true cost is
    computed is the one [pop_heap] moved to index [size - 1 - i]. *)
Fixpoint push_best (fuel : nat) (i : Z) (best : list Vertex.t)
  : Planner → outcome Planner unit :=
  fun p =>
    if (i <? k p)%Z && negb (Z.of_nat (length best) <=? i)%Z then
      match fuel with
      | O => OutOfFuel
      | S fuel' =>
          match best !! 0 with
          | None => Undefined
          | Some destinationVertex =>
              let len := (length best - Z.to_nat i)%nat in
              let best := pop_heap getDubinsComparator best len in
              let destinationVertex :=
                computeTrueCost (m_Config p) destinationVertex in
              let best := <[len - 1 := destinationVertex]> best in
              push_best fuel' (i + 1)%Z best
                        (pushVertexQueue destinationVertex p)
          end
      end
    else Ok tt p.

(** The two bounded selections of [expand] (lines 65-106): the samples are
    made a heap by distance from the source, then scanned; the coverage
    selection starts "done" when the coverage turning radius is not
    positive. *)
Definition select (sourceVertex : Vertex.t)
  : Planner → outcome Planner (list Vertex.t * list Vertex.t) :=
  fun p =>
    let comp := getStateComparator (Vertex.state sourceVertex) in
    let p := set_samples
               (make_heap comp (m_Samples p) (length (m_Samples p))) p in
    let coverageDone :=
      Double.le (coverageTurningRadius (m_Config p)) Double.zero in
    scan (length (m_Samples p)) 0 sourceVertex [] [] false coverageDone p.

Definition expand (sourceVertex : Vertex.t)
           (obstacles : DynamicObstaclesManager)
  : Planner → outcome Planner unit :=
  exec lift (visualizeVertex sourceVertex "vertex" true) in
  exec lift (expand_nearest sourceVertex) in
  call sel <- select sourceVertex in
  exec push_best (length (fst sel)) 0%Z (fst sel) in
  exec push_best (length (snd sel)) 0%Z (snd sel) in
  lift (fun p => set_expandedCount (m_ExpandedCount p + 1)%Z p).

(** *** addSamples *)

Fixpoint addSamples_loop (n : nat) (generator : StateGenerator)
         (p : Planner) : StateGenerator * Planner :=
  match n with
  | O => (generator, p)
  | S n' =>
      let '(s, generator) := generate generator in
      addSamples_loop n' generator (set_samples (m_Samples p ++ [s]) p)
  end.

(** [addSamples(generator, n)]: [for (int i = 0; i < n; i++)]. *)
Definition addSamples (generator : StateGenerator) (n : Z) (p : Planner)
  : StateGenerator * Planner :=
  addSamples_loop (Z.to_nat n) generator p.

(** *** plan *)

(** The search loop of [plan] (lines 170-173):
<<
    for (vertex = Vertex::makeRoot(start, m_RibbonManager);
         !goalCondition(vertex); vertex = popVertexQueue())
      expand(vertex, m_Config.obstaclesManager());
>>
    The loop has no bound of its own; [fuel] bounds its turns. *)
Fixpoint plan_loop (fuel : nat) (vertex : Vertex.t)
  : Planner → outcome Planner Vertex.t :=
  match fuel with
  | O => fun _ => OutOfFuel
  | S fuel' =>
      fun p =>
        if goalCondition p vertex then Ok vertex p
        else
          (exec expand vertex (obstaclesManager (m_Config p)) in
           call next <- popVertexQueue in
           plan_loop fuel' next) p
  end.

(** The first parameter of [plan] has no name in the source: the ribbon
    manager read is the member [m_RibbonManager].  Neither [previousPlan]
    nor [timeRemaining] is read. *)
Definition plan (fuel : nat) (ribbonManager : RibbonManager)
           (start : State.t)
           (config : PlannerConfig DynamicObstaclesManager)
           (previousPlan : DubinsPlan) (timeRemaining : double)
  : Planner → outcome Planner DubinsPlan :=
  fun p =>
    let p := set_config config p in
    let p := set_startStateTime (State.time start) p in
    let p := set_samples [] p in
    let p := set_vertexQueue [] p in
    let minSpeed := maxSpeed (m_Config p) in
    let maxSpeed' := maxSpeed (m_Config p) in
    let magnitude :=
      Double.mul (maxSpeed (m_Config p)) (timeHorizon (m_Config p)) in
    let minX := Double.sub (State.x start) magnitude in
    let maxX := Double.add (State.x start) magnitude in
    let minY := Double.sub (State.y start) magnitude in
    let maxY := Double.add (State.y start) magnitude in
    let generator :=
      newStateGenerator minX maxX minY maxY minSpeed maxSpeed' 7%Z
                        (m_RibbonManager p) in
    let p := snd (addSamples generator 1000%Z p) in
    (call vertex <- plan_loop fuel (makeRoot start (m_RibbonManager p)) in
     fun p => Ok (tracePlan vertex false (obstaclesManager (m_Config p))) p)
      p.

End SamplingBasedPlanner.

(* ===================================================================== *)
(** ** Histories of the open list *)
(* ===================================================================== *)

(** What is done to the open list: [pushVertexQueue(v)] or
    [popVertexQueue()]; a pop that throws leaves the planner as it was. *)
Inductive QueueOp : Type :=
| Push (v : Vertex.t)
| Pop.

Definition apply_op `{Collaborators} (p : Planner) (o : QueueOp) : Planner :=
  match o with
  | Push v => pushVertexQueue v p
  | Pop => match popVertexQueue p with
           | Ok _ p' => p'
           | Throw _ p' => p'
           | Undefined | OutOfFuel => p
           end
  end.

Definition run_ops `{Collaborators} (ops : list QueueOp) (p : Planner)
  : Planner :=
  fold_left apply_op ops p.

(** The parent edge of the vertex is marked infeasible. *)
Definition on_infeasible_edge (v : Vertex.t) : bool :=
  match Vertex.parentEdge v with
  | Some e => Edge.infeasible e
  | None => false
  end.

(** The vertex does not improve on the incumbent [b]: it costs more, or it
    costs the same and is a goal itself. *)
Definition pruned_by `{Collaborators} (p : Planner) (b v : Vertex.t) : bool :=
  Double.lt (Vertex.f b) (Vertex.f v)
  || (Double.eq (Vertex.f b) (Vertex.f v) && goalCondition p v).

(** The open list is a heap for the comparator of [getVertexComparator]. *)
Definition queue_is_heap `{Collaborators} (p : Planner) : Prop :=
  is_heap getVertexComparator (m_VertexQueue p) (length (m_VertexQueue p)).





(* ===================================================================== *)
(** ** Executive *)
(* ===================================================================== *)

(** What the executive asks of the trajectory publisher and of the
    process, in order. *)
Inductive Event (Ribbons : Type) : Type :=
| PublishTrajectory (plan : list State.t)
| DisplayTrajectory (plan : list State.t) (highlighted : bool)
| DisplayRibbons (ribbons : Ribbons)
| AllDone
| GetTime
| GetEstimatedState (t : double)
| SleepFor (milliseconds : Z)
| Cerr (line : string).
Arguments PublishTrajectory {Ribbons}.
Arguments DisplayTrajectory {Ribbons}.
Arguments DisplayRibbons {Ribbons}.
Arguments AllDone {Ribbons}.
Arguments GetTime {Ribbons}.
Arguments GetEstimatedState {Ribbons}.
Arguments SleepFor {Ribbons}.
Arguments Cerr {Ribbons}.

(** [m_Planner->plan(...)] returns a plan or throws. *)
Inductive PlanResult (PlannerObj Exception : Type) : Type :=
| PlanReturns (plan : list State.t) (planner : PlannerObj)
| PlanThrows (x : Exception) (planner : PlannerObj).
Arguments PlanReturns {PlannerObj Exception}.
Arguments PlanThrows {PlannerObj Exception}.

(** Collaborators of the executive whose code is not among the sources. *)
Class Surroundings := {
  Ribbons : Type;
  Map : Type;
  PlannerObj : Type;
  Exception : Type;
  (** [m_RibbonManager.done()] and [m_RibbonManager.cover(x, y)]. *)
  ribbonsDone : Ribbons → bool;
  cover : Ribbons → double → double → Ribbons;
  (** Constants of executive.h. *)
  c_CoverageHeadingRateMax : double;
  c_PlanningTimeSeconds : double;
  (** The answers of [getTime()] and [getEstimatedState(t)], given what
      has happened so far. *)
  clock : list (Event Ribbons) → double;
  estimator : list (Event Ribbons) → double → State.t;
  (** [state.setEstimate(dt, from)]: the state afterwards. *)
  setEstimate : State.t → double → State.t → State.t;
  (** [m_Planner->plan(ribbons, start, DynamicObstaclesManager(),
      timeRemaining, maxSpeed, turningRadius, coverageMaxSpeed,
      coverageTurningRadius)] and [m_Planner->updateMap(map)]. *)
  plannerPlan :
    PlannerObj → Ribbons → State.t → double →
    double → double → double → double → PlanResult PlannerObj Exception;
  updateMap : PlannerObj → Map → PlannerObj
}.

Section Executive.

Context `{Surroundings}.

Record Executive := mkExecutive {
  m_Running : bool;
  m_Pause : bool;
  m_LastHeading : double;
  m_LastUpdateTime : double;
  m_LastState : State.t;
  e_RibbonManager : Ribbons;
  m_Planner : PlannerObj;
  m_NewMap : option Map;
  (** [m_MapMutex] is held by a map-loading thread. *)
  m_MapMutex_held : bool;
  MaxSpeed : double;
  TurningRadius : double;
  CoverageMaxSpeed : double;
  CoverageTurningRadius : double;
  events : list (Event Ribbons)
}.

Definition with_events (ev : list (Event Ribbons)) (e : Executive) : Executive :=
  mkExecutive (m_Running e) (m_Pause e) (m_LastHeading e)
    (m_LastUpdateTime e) (m_LastState e) (e_RibbonManager e) (m_Planner e)
    (m_NewMap e) (m_MapMutex_held e) (MaxSpeed e) (TurningRadius e)
    (CoverageMaxSpeed e) (CoverageTurningRadius e) ev.
Definition with_pause (b : bool) (e : Executive) : Executive :=
  mkExecutive (m_Running e) b (m_LastHeading e)
    (m_LastUpdateTime e) (m_LastState e) (e_RibbonManager e) (m_Planner e)
    (m_NewMap e) (m_MapMutex_held e) (MaxSpeed e) (TurningRadius e)
    (CoverageMaxSpeed e) (CoverageTurningRadius e) (events e).
Definition with_running (b : bool) (e : Executive) : Executive :=
  mkExecutive b (m_Pause e) (m_LastHeading e)
    (m_LastUpdateTime e) (m_LastState e) (e_RibbonManager e) (m_Planner e)
    (m_NewMap e) (m_MapMutex_held e) (MaxSpeed e) (TurningRadius e)
    (CoverageMaxSpeed e) (CoverageTurningRadius e) (events e).
Definition with_planner (pl : PlannerObj) (nm : option Map)
           (e : Executive) : Executive :=
  mkExecutive (m_Running e) (m_Pause e) (m_LastHeading e)
    (m_LastUpdateTime e) (m_LastState e) (e_RibbonManager e) pl
    nm (m_MapMutex_held e) (MaxSpeed e) (TurningRadius e)
    (CoverageMaxSpeed e) (CoverageTurningRadius e) (events e).
Definition with_last (t h : double) (s : State.t) (r : Ribbons)
           (e : Executive) : Executive :=
  mkExecutive (m_Running e) (m_Pause e) h t s r (m_Planner e)
    (m_NewMap e) (m_MapMutex_held e) (MaxSpeed e) (TurningRadius e)
    (CoverageMaxSpeed e) (CoverageTurningRadius e) (events e).

Definition emit (ev : Event Ribbons) (e : Executive) : Executive :=
  with_events (events e ++ [ev]) e.

(** [m_TrajectoryPublisher->getTime()]. *)
Definition getTime (e : Executive) : double * Executive :=
  (clock (events e), emit GetTime e).

(** [m_TrajectoryPublisher->getEstimatedState(t)]. *)
Definition getEstimatedState (t : double) (e : Executive)
  : State.t * Executive :=
  (estimator (events e) t, emit (GetEstimatedState t) e).

(** *** updateCovered *)

Definition updateCovered (x y speed heading t : double) (e : Executive)
  : Executive :=
  let ribbons :=
    if Double.le (Double.div (Double.sub (m_LastHeading e) heading)
                             (m_LastUpdateTime e))
                 c_CoverageHeadingRateMax
    then cover (e_RibbonManager e) x y
    else e_RibbonManager e in
  with_last t heading (State.mk x y heading speed t) ribbons e.

(** *** pause, unPause, terminate *)

Definition pause (e : Executive) : Executive :=
  if m_Pause e then e
  else
    let e := with_pause true e in
    if negb (m_Running e) then e
    else emit AllDone e.

Definition unPause (e : Executive) : Executive := with_pause false e.

Definition terminate (e : Executive) : Executive :=
  if negb (m_Running e) then e
  else unPause (with_running false e).

(** *** requestPath *)

(** What one turn of the loop of [requestPath] does: it goes on to the
    next turn, it waits on [m_PauseCv] (the loop is paused), or an
    exception leaves the loop. *)
Inductive Turn : Type :=
| Continue (e : Executive)
| Waiting (e : Executive)
| Thrown (x : Exception) (e : Executive)
| BadConversion.

(** The turn up to the call of the planner (lines 95-124): the state the
    call is made in and its arguments' values. *)
Definition before_plan (e : Executive)
  : Executive * double * State.t * double :=
  let e := emit (DisplayRibbons (e_RibbonManager e)) e in
  let e :=
    if m_MapMutex_held e then e
    else
      let pl := match m_NewMap e with
                | Some m => updateMap (m_Planner e) m
                | None => m_Planner e
                end in
      with_planner pl None e in
  let '(start, e) := getTime e in
  let '(now, e) := getTime e in
  let '(startState, e) :=
    getEstimatedState (Double.add now c_PlanningTimeSeconds) e in
  let '(startState, e) :=
    if Double.eq (State.time startState) (Double.of_Z (-1)) then
      let '(now, e) := getTime e in
      (setEstimate startState
         (Double.sub (Double.add now c_PlanningTimeSeconds)
                     (State.time (m_LastState e)))
         (m_LastState e), e)
    else (startState, e) in
  let '(now, e) := getTime e in
  (e, start, startState,
   Double.sub (Double.add start c_PlanningTimeSeconds) now).

Definition call_planner (e : Executive)
  : PlanResult PlannerObj Exception :=
  let '(e1, _, startState, timeRemaining) := before_plan e in
  plannerPlan (m_Planner e1) (e_RibbonManager e1) startState timeRemaining
              (MaxSpeed e1) (TurningRadius e1) (CoverageMaxSpeed e1)
              (CoverageTurningRadius e1).

Definition requestPath_turn (e : Executive) : Turn :=
  if m_Pause e then Waiting e
  else if ribbonsDone (e_RibbonManager e) then
    let e := emit (SleepFor 1000) e in
    let e := emit (Cerr "Finished path; pausing") e in
    Continue (pause e)
  else
    let '(e1, start, _, _) := before_plan e in
    match call_planner e with
    | PlanThrows x pl =>
        let e2 := with_planner pl (m_NewMap e1) e1 in
        let e2 := emit (Cerr "Exception thrown while planning; pausing") e2 in
        Thrown x (pause e2)
    | PlanReturns plan pl =>
        let e2 := with_planner pl (m_NewMap e1) e1 in
        let e2 := emit (PublishTrajectory plan) e2 in
        let e2 := emit (DisplayTrajectory plan true) e2 in
        let '(end_, e2) := getTime e2 in
        if Double.le (Double.sub end_ start) c_PlanningTimeSeconds then
          match Double.to_int
                  (Double.mul
                     (Double.sub c_PlanningTimeSeconds
                                 (Double.sub end_ start))
                     (Double.of_Z 1000)) with
          | Some sleeptime => Continue (emit (SleepFor sleeptime) e2)
          | None => BadConversion
          end
        else Continue (emit (SleepFor 0) e2)
    end.

(** The loop [while (m_Running) { ... }]. *)
Inductive LoopResult : Type :=
| Returned (e : Executive)
| Blocked (e : Executive)
| Raised (x : Exception) (e : Executive)
| Unspecified
| MoreTurns.

Fixpoint requestPath (fuel : nat) (e : Executive) : LoopResult :=
  if m_Running e then
    match fuel with
    | O => MoreTurns
    | S fuel' =>
        match requestPath_turn e with
        | Continue e' => requestPath fuel' e'
        | Waiting e' => Blocked e'
        | Thrown x e' => Raised x e'
        | BadConversion => Unspecified
        end
    end
  else Returned e.

End Executive.

(* ===================================================================== *)
(** ** A world on a line, to run the planner in *)
(* ===================================================================== *)

(** The state at abscissa [x] and time [t], everything else zero. *)
Definition on_line (x t : Z) : State.t :=
  State.mk (Double.of_Z x) Double.zero Double.zero Double.zero (Double.of_Z t).

(** States are compared by their abscissas; a connection takes one unit of
    time and adds one to the depth; the approximate cost of an
    edge is the distance of its end from abscissa 20, so that it falls
    while the straight-line distance from the origin rises; samples are
    generated at abscissas [seed], [seed + 1], ... *)
Definition line_world : Collaborators := {|
  RibbonManager := unit;
  DynamicObstaclesManager := unit;
  DubinsPlan := Vertex.t;
  StateGenerator := Z;
  distanceTo s1 s2 := SFabs (Double.sub (State.x s1) (State.x s2));
  getNearestPointAsState v := on_line 10 0;
  connect src s radius coverage :=
    Vertex.mk (State.mk (State.x s) (State.y s) (State.heading s)
                        (State.speed s)
                        (Double.add (State.time (Vertex.state src))
                                    (Double.of_Z 1)))
              (Vertex.depth src + 1)
              (Some (Edge.mk Double.zero Double.zero false coverage))
              (Vertex.f src) (Vertex.done src);
  makeRoot s _ := Vertex.mk s 0 None Double.zero false;
  computeTrueCost _ v := v;
  computeApproxCost v :=
    match Vertex.parentEdge v with
    | Some e =>
        Vertex.mk (Vertex.state v) (Vertex.depth v)
                  (Some (Edge.mk
                           (SFabs (Double.sub (Double.of_Z 20)
                                              (State.x (Vertex.state v))))
                           (Edge.trueCost e) (Edge.infeasible e)
                           (Edge.coverage e)))
                  (Vertex.f v) (Vertex.done v)
    | None => v
    end;
  newStateGenerator _ _ _ _ _ _ seed _ := seed;
  generate g := (on_line g 0, (g + 1)%Z);
  tracePlan v _ _ := v
|}.

Definition line_config (horizon : Z) (coverageRadius : Z)
           (branching : Z) : PlannerConfig unit :=
  mkConfig (Double.of_Z horizon) Double.zero (Double.of_Z 1)
           (Double.of_Z 1) (Double.of_Z coverageRadius) Double.zero
           branching false tt.

Definition line_planner (cfg : PlannerConfig unit)
           (samples : list State.t) (best : option Vertex.t)
  : @Planner line_world :=
  @mkPlanner line_world cfg Double.zero samples [] best tt 0%Z [] [].

(** A vertex at abscissa [x], time [t], with total cost [f], on a feasible
    or infeasible edge. *)
Definition line_vertex (x t depth f : Z) (infeasible : bool) : Vertex.t :=
  Vertex.mk (on_line x t) depth
            (Some (Edge.mk Double.zero Double.zero infeasible false))
            (Double.of_Z f) false.

Definition line_root (x t : Z) (done : bool) : Vertex.t :=
  Vertex.mk (on_line x t) 0 None Double.zero done.

(** An incumbent goal of total cost 5 (its time, 100, is past the horizon
    of 60), and vertices to push against it: one that costs more, one that
    costs the same without being a goal, one that costs the same and is a
    goal, one that costs less, and one on an infeasible edge. *)
Definition incumbent : Vertex.t := line_vertex 0 100 3 5 false.
Definition v_worse : Vertex.t := line_vertex 1 0 1 7 false.
Definition v_equal : Vertex.t := line_vertex 2 0 1 5 false.
Definition v_equal_goal : Vertex.t := line_vertex 2 70 1 5 false.
Definition v_better : Vertex.t := line_vertex 3 0 2 3 false.
Definition v_blocked : Vertex.t := line_vertex 4 0 4 1 true.

Definition pruning_planner : @Planner line_world :=
  line_planner (line_config 60 0 2) [] (Some incumbent).

Definition plain_planner : @Planner line_world :=
  line_planner (line_config 60 0 2) [] None.

(** A deep vertex of high total cost and a shallow one of low total cost. *)
Definition v_deep_costly : Vertex.t := line_vertex 6 0 4 9 false.
Definition v_shallow_cheap : Vertex.t := line_vertex 5 0 1 1 false.

Definition history : list QueueOp :=
  [Push v_better; Push v_worse; Push v_equal; Pop; Push v_blocked;
   Push v_equal_goal; Push v_worse].

(** A pool of samples, a source that has coverage left to do and one that
    has none, and planners with branching factors 2 and -1. *)
Definition pool : list State.t :=
  map (λ z, on_line z 0) [5; 3; 8; 1; 9; 2; 7]%Z.
Definition source_covering : Vertex.t := line_root 0 0 false.
Definition source_done : Vertex.t := line_root 0 0 true.
Definition scan_planner : @Planner line_world :=
  line_planner (line_config 60 0 2) pool None.
Definition fresh_planner : @Planner line_world :=
  line_planner (line_config 60 0 2) [] None.

(* ===================================================================== *)
(** ** Surroundings to run the executive in *)
(* ===================================================================== *)

(** The ribbon manager is the number of ribbons left to cover, the clock
    counts what has happened so far, the state estimator answers with a
    state at the time asked for, and the planner throws when exactly one
    ribbon is left. *)
Definition countdown : Surroundings := {|
  Ribbons := nat;
  Map := unit;
  PlannerObj := unit;
  Exception := exn;
  ribbonsDone n := Nat.eqb n 0;
  cover n _ _ := Nat.pred n;
  c_CoverageHeadingRateMax := Double.of_Z 1;
  c_PlanningTimeSeconds := Double.of_Z 1;
  clock evs := Double.of_Z (Z.of_nat (length evs));
  estimator _ t := State.mk Double.zero Double.zero Double.zero Double.zero t;
  setEstimate _ _ from := from;
  plannerPlan pl ribbons start _ _ _ _ _ :=
    if Nat.eqb ribbons 1
    then PlanThrows (out_of_range "Trying to pop an empty vertex queue") pl
    else PlanReturns [start] pl;
  updateMap pl _ := pl
|}.

(** An executive that is running, not paused, with [ribbons] left, last
    updated at time [t] with heading [h]. *)
Definition running_executive (ribbons : nat) (t h : Z)
  : @Executive countdown :=
  @mkExecutive countdown true false (Double.of_Z h) (Double.of_Z t)
               (on_line 0 t) ribbons tt None false
               (Double.of_Z 2) (Double.of_Z 8) (Double.of_Z 2) (Double.of_Z 16)
               [].

(* ===================================================================== *)
(** ** What a call leaves alone *)
(* ===================================================================== *)

(** The planner [p'] has the configuration, the start time, the incumbent
    and the ribbon manager of [p]. *)
Definition untouched `{Collaborators} (p p' : Planner) : Prop :=
  m_Config p' = m_Config p
  ∧ m_StartStateTime p' = m_StartStateTime p
  ∧ m_BestVertex p' = m_BestVertex p
  ∧ m_RibbonManager p' = m_RibbonManager p.

(** The turning radius of a policy: [coverageTurningRadius] for the
    coverage policy, [turningRadius] for the direct one. *)
Definition policy_radius {M : Type} (cfg : PlannerConfig M) (coverage : bool)
  : double :=
  if coverage then coverageTurningRadius cfg else turningRadius cfg.

(** The candidate [r] was made for the policy [coverage] by
    [Vertex::connect] from [sourceVertex] to a sample of [pool], its
    approximate cost computed. *)
Definition candidate_of `{Collaborators}
           (cfg : PlannerConfig DynamicObstaclesManager)
           (sourceVertex : Vertex.t) (pool : list State.t) (coverage : bool)
           (r : Vertex.t) : Prop :=
  ∃ s, s ∈ pool
       ∧ r = computeApproxCost
               (connect sourceVertex s (policy_radius cfg coverage) coverage).

(** The state [expand] heads for first: the nearest point to cover, at the
    maximal speed. *)
Definition nearest_target `{Collaborators}
           (cfg : PlannerConfig DynamicObstaclesManager)
           (sourceVertex : Vertex.t) : State.t :=
  State.with_speed (getNearestPointAsState sourceVertex) (maxSpeed cfg).

(** The vertex [u] is a successor of [sourceVertex] as [expand] makes them:
    connected to the nearest point to cover, or to a sample of [pool] with
    the approximate cost computed first, under either policy, and with its
    true cost computed. *)
Definition successor_of `{Collaborators}
           (cfg : PlannerConfig DynamicObstaclesManager)
           (sourceVertex : Vertex.t) (pool : list State.t) (u : Vertex.t)
  : Prop :=
  (∃ coverage,
      u = computeTrueCost cfg
            (connect sourceVertex (nearest_target cfg sourceVertex)
                     (policy_radius cfg coverage) coverage))
  ∨ (∃ coverage r,
        candidate_of cfg sourceVertex pool coverage r
        ∧ u = computeTrueCost cfg r).

(** [pushVertexQueue] lets the vertex [u] into the open list of [p]: its
    parent edge is not marked infeasible and the incumbent, if there is
    one, does not prune it. *)
Definition accepted_by `{Collaborators} (p : Planner) (u : Vertex.t) : Prop :=
  on_infeasible_edge u = false
  ∧ ∀ b, m_BestVertex p = Some b → pruned_by p b u = false.

(** Between [p] and [p'] a line was written to the visualization stream
    for every vertex put on the open list, as "Generated" and with the
    tag "vertex", and nothing else was written. *)
Definition generated `{Collaborators} (p p' : Planner) : Prop :=
  ∃ lines,
    visualizationStream p' = visualizationStream p ++ lines
    ∧ length (m_VertexQueue p') = length (m_VertexQueue p) + length lines
    ∧ Forall (λ l, vis_expanded l = false ∧ vis_tag l = "vertex"%string
                   ∧ vis_vertex l ∈ m_VertexQueue p') lines.

(** A planner of the world on a line with visualizations switched on. *)
Definition shown_planner : @Planner line_world :=
  line_planner
    (mkConfig (Double.of_Z 60) Double.zero (Double.of_Z 1) (Double.of_Z 1)
              Double.zero Double.zero 2%Z true tt)
    pool None.

(* ===================================================================== *)
(** ** The rest of the sample pool's and the executive's interface *)
(* ===================================================================== *)

(** The conversion of a [size_t] to [int]: the low 32 bits, read in two's
    complement. *)
Definition size_t_to_int (n : Z) : Z :=
  ((n + 2 ^ 31) mod 2 ^ 32 - 2 ^ 31)%Z.

(** [addSamples(generator)] (lines 137-139), the overload with one
    parameter: [addSamples(generator, m_Samples.size())]. *)
Definition addSamples1 `{Collaborators} (generator : StateGenerator)
           (p : Planner) : StateGenerator * Planner :=
  addSamples generator (size_t_to_int (Z.of_nat (length (m_Samples p)))) p.

(** [setVehicleConfiguration] (lines 269-275). *)
Definition setVehicleConfiguration `{Surroundings}
           (maxSpeed turningRadius coverageMaxSpeed
              coverageTurningRadius : double)
           (e : Executive) : Executive :=
  mkExecutive (m_Running e) (m_Pause e) (m_LastHeading e)
    (m_LastUpdateTime e) (m_LastState e) (e_RibbonManager e) (m_Planner e)
    (m_NewMap e) (m_MapMutex_held e) maxSpeed turningRadius
    coverageMaxSpeed coverageTurningRadius (events e).

(** The constructors of the two map formats, whose code is not among the
    sources: a map, or nothing when the constructor throws. *)
Class MapLoaders `{Surroundings} := {
  GeoTiffMap : string → double → double → option Map;
  GridWorldMap : string → option Map
}.

(** The map that [refreshMap] loads for a path (lines 233-237): a path
    with [".map"] somewhere in it is read as a grid world, any other as a
    GeoTIFF, which takes the longitude before the latitude. *)
Definition load_map `{MapLoaders} (pathToMapFile : string)
           (latitude longitude : double) : option Map :=
  match index 0 ".map" pathToMapFile with
  | None => GeoTiffMap pathToMapFile longitude latitude
  | Some _ => GridWorldMap pathToMapFile
  end.

(** [refreshMap] (lines 226-248): the body of the thread it detaches, from
    taking [m_MapMutex] to releasing it; the member [m_CurrentMapPath] is
    passed and returned beside the executive.  While another thread holds
    the mutex the body has not run ([None]). *)
Definition refreshMap `{MapLoaders} (pathToMapFile : string)
           (latitude longitude : double)
           (m_CurrentMapPath : string) (e : Executive)
  : option (string * Executive) :=
  if m_MapMutex_held e then None
  else if String.eqb m_CurrentMapPath pathToMapFile
  then Some (m_CurrentMapPath, e)
  else
    match load_map pathToMapFile latitude longitude with
    | Some m => Some (pathToMapFile, with_planner (m_Planner e) (Some m) e)
    | None =>
        Some (EmptyString,
              emit (Cerr (String.append
                            "Encountered an error loading map at path "
                            pathToMapFile))
                   (with_planner (m_Planner e) None e))
    end.

(** A turn of [requestPath] has stopped the loop of the executive [e]:
    the loop is paused, and [allDone()] was called once, last. *)
Definition stopped `{Surroundings} (e e' : Executive) : Prop :=
  m_Pause e' = true ∧ m_Running e' = true
  ∧ e_RibbonManager e' = e_RibbonManager e
  ∧ ∃ evs, events e' = events e ++ evs ++ [AllDone] ∧ AllDone ∉ evs.

(** Loaders for the executive's example surroundings: every grid world
    loads, a GeoTIFF loads unless it is the file [missing.tif]. *)
Definition chart_loaders : @MapLoaders countdown := {|
  GeoTiffMap path _ _ :=
    if String.eqb path "missing.tif" then None else Some (tt : @Map countdown);
  GridWorldMap _ := Some (tt : @Map countdown)
|}.

(** A planner of the world on a line with a branching factor of zero, one
    whose incumbent costs less than any vertex made there, and a start
    state whose time is not a number. *)
Definition childless_planner : @Planner line_world :=
  line_planner (line_config 60 0 0) pool None.
Definition undercut_planner : @Planner line_world :=
  line_planner (line_config 60 0 2) []
               (Some (line_vertex 0 100 3 (-1) false)).
Definition timeless_start : State.t :=
  State.mk Double.zero Double.zero Double.zero Double.zero Double.nan.

(** The loop of [requestPath] from the point where it waits on
    [m_PauseCv] (line 81).  [m_Running] is tested at the top of the loop
    only (line 77): once the wait is over the rest of the turn runs,
    whatever [m_Running] has become in the meantime. *)
Definition requestPath_woken `{Surroundings} (fuel : nat) (e : Executive)
  : LoopResult :=
  match requestPath_turn e with
  | Continue e' => requestPath fuel e'
  | Waiting e' => Blocked e'
  | Thrown x e' => Raised x e'
  | BadConversion => Unspecified
  end.

(* ===================================================================== *)
(** ** The order of doubles *)
(* ===================================================================== *)

Ltac double_cases :=
  repeat match goal with
         | s : bool |- _ => destruct s
         | |- context [(?a ?= ?b)%Z] =>
             destruct (Z.compare_spec a b); subst
         | H : context [(?a ?= ?b)%Z] |- _ =>
             destruct (Z.compare_spec a b); subst
         | |- context [Pos.compare_cont Eq ?a ?b] =>
             change (Pos.compare_cont Eq a b) with (Pos.compare a b);
             destruct (Pos.compare_spec a b); subst
         | H : context [Pos.compare_cont Eq ?a ?b] |- _ =>
             change (Pos.compare_cont Eq a b) with (Pos.compare a b) in H;
             destruct (Pos.compare_spec a b); subst
         end;
  cbn in *; try reflexivity; try discriminate; try lia.



Lemma double_le_lt_trans (a b c : double) :
  Double.le a b = true → Double.lt b c = true → Double.le a c = true.
Proof.
  unfold Double.le, Double.lt, SFleb, SFltb, SFcompare.
  destruct a as [sa|sa| |sa ma ea], b as [sb|sb| |sb mb eb],
           c as [sc|sc| |sc mc ec];
    try discriminate; double_cases.
Qed.


Lemma double_lt_ordered (a b : double) :
  Double.lt a b = true → Double.ordered a ∧ Double.ordered b.
Proof.
  unfold Double.ordered, Double.lt, SFltb, SFcompare.
  destruct a as [sa|sa| |sa ma ea], b as [sb|sb| |sb mb eb];
    try discriminate; done.
Qed.

(* ===================================================================== *)
(** ** The heap algorithms on small vectors *)
(* ===================================================================== *)

(** The results are those of libstdc++ 12 on the same vectors, with
    [std::less] and with [std::greater]. *)

Example make_heap_less :
  make_heap Nat.ltb [3; 1; 4; 1; 5; 9; 2; 6] 8 = [9; 6; 4; 1; 5; 3; 2; 1].
Proof. reflexivity. Qed.

Example pop_heap_less :
  pop_heap Nat.ltb [9; 6; 4; 1; 5; 3; 2; 1] 8 = [6; 5; 4; 1; 1; 3; 2; 9].
Proof. reflexivity. Qed.

Example push_heap_less :
  push_heap Nat.ltb [9; 6; 4; 3; 5; 1; 2; 1; 7] 9
  = [9; 7; 4; 6; 5; 1; 2; 1; 3].
Proof. reflexivity. Qed.

Example make_heap_greater :
  make_heap (λ a b, b <? a) [5; 3; 8; 1; 9; 2; 7] 7 = [1; 3; 2; 5; 9; 8; 7].
Proof. reflexivity. Qed.

Example pop_heap_greater_prefix :
  pop_heap (λ a b, b <? a) [2; 3; 7; 5; 9; 8; 1] 6 = [3; 5; 7; 8; 9; 2; 1].
Proof. reflexivity. Qed.

(* ===================================================================== *)
(** ** The heap algorithms: lengths, permutations, locality *)
(* ===================================================================== *)

Section HeapFacts.
Context {A : Type}.
Variable comp : A → A → bool.

Lemma parent_children (c h : nat) :
  0 < c → (parent c = h ↔ c = 2 * h + 1 ∨ c = 2 * h + 2).
Proof.
  unfold parent. intros Hc.
  pose proof (Nat.div_mod_eq (c - 1) 2) as E.
  pose proof (Nat.mod_upper_bound (c - 1) 2) as B.
  split.
  - intros <-. lia.
  - intros [-> | ->].
    + replace (2 * h + 1 - 1) with (h * 2) by lia. apply Nat.div_mul. lia.
    + replace (2 * h + 2 - 1) with (1 + h * 2) by lia.
      rewrite Nat.div_add by lia. reflexivity.
Qed.

Lemma parent_lt (c : nat) : 0 < c → parent c < c.
Proof.
  unfold parent. intros Hc.
  pose proof (Nat.div_mod_eq (c - 1) 2). lia.
Qed.

Lemma parent_le (c : nat) : parent c ≤ c.
Proof.
  destruct c as [|c]; [reflexivity|].
  pose proof (parent_lt (S c)). lia.
Qed.

(** Exchanging the values written at two places permutes the list. *)
Lemma insert_cons_swap (l : list A) (j : nat) (a b : A) :
  j < length l → a :: <[j := b]> l ≡ₚ b :: <[j := a]> l.
Proof.
  revert j. induction l as [|y l IH]; intros j Hj; simpl in Hj; [lia|].
  destruct j as [|j]; simpl.
  - apply perm_swap.
  - rewrite (perm_swap y a), (perm_swap y b).
    apply perm_skip, IH. lia.
Qed.

Lemma insert_insert_swap (l : list A) (i j : nat) (a b : A) :
  i < length l → j < length l → i ≠ j →
  <[i := a]> (<[j := b]> l) ≡ₚ <[i := b]> (<[j := a]> l).
Proof.
  revert i j. induction l as [|y l IH]; intros i j Hi Hj Hne;
    simpl in Hi, Hj; [lia|].
  destruct i as [|i], j as [|j]; simpl; try lia.
  - apply insert_cons_swap. lia.
  - symmetry. apply insert_cons_swap. lia.
  - apply perm_skip, IH; lia.
Qed.

(** Moving the hole: the list with [value] put back in the hole stays the
    same list up to the order of its elements. *)
Lemma hole_move (l : list A) (h c : nat) (x value : A) :
  h < length l → l !! c = Some x →
  <[c := value]> (<[h := x]> l) ≡ₚ <[h := value]> l.
Proof.
  intros Hh Hc.
  assert (c < length l) by (eapply lookup_lt_Some; eauto).
  destruct (decide (c = h)) as [->|Hne].
  - rewrite list_insert_insert_eq. reflexivity.
  - rewrite insert_insert_swap by (rewrite ?length_insert; lia).
    rewrite list_insert_insert_ne by done.
    rewrite (list_insert_id l c x) by done. reflexivity.
Qed.

Lemma push_heap_loop_length fuel (l : list A) h top value :
  length (push_heap_loop comp fuel l h top value) = length l.
Proof.
  revert l h. induction fuel as [|fuel IH]; intros l h; simpl.
  - apply length_insert.
  - destruct (top <? h); [|apply length_insert].
    destruct (l !! parent h) as [p|]; [|apply length_insert].
    destruct (comp p value); [|apply length_insert].
    rewrite IH. apply length_insert.
Qed.

Lemma push_heap_loop_perm fuel (l : list A) h top value :
  h < length l →
  push_heap_loop comp fuel l h top value ≡ₚ <[h := value]> l.
Proof.
  revert l h. induction fuel as [|fuel IH]; intros l h Hh; simpl; [done|].
  destruct (top <? h); [|done].
  destruct (l !! parent h) as [p|] eqn:Ep; [|done].
  destruct (comp p value); [|done].
  rewrite IH.
  - apply hole_move; done.
  - rewrite length_insert. pose proof (parent_le h). lia.
Qed.

(** The loop writes below [holeIndex] only. *)
Lemma push_heap_loop_above fuel (l : list A) h top value i :
  h < i → push_heap_loop comp fuel l h top value !! i = l !! i.
Proof.
  revert l h. induction fuel as [|fuel IH]; intros l h Hi; simpl.
  - apply list_lookup_insert_ne. lia.
  - destruct (top <? h); [|apply list_lookup_insert_ne; lia].
    destruct (l !! parent h) as [p|]; [|apply list_lookup_insert_ne; lia].
    destruct (comp p value); [|apply list_lookup_insert_ne; lia].
    rewrite IH by (pose proof (parent_le h); lia).
    apply list_lookup_insert_ne. lia.
Qed.

Lemma adjust_heap_loop_length fuel (l : list A) h len :
  length (adjust_heap_loop comp fuel l h len).1 = length l.
Proof.
  revert l h. induction fuel as [|fuel IH]; intros l h; cbn [adjust_heap_loop fst snd]; [done|].
  destruct (h <? (len - 1) / 2); [|done].
  destruct (l !! (2 * (h + 1))) as [r|]; [|done].
  destruct (l !! (2 * (h + 1) - 1)) as [lft|]; [|done].
  destruct (comp r lft); rewrite IH; apply length_insert.
Qed.

(** The first loop of [adjust_heap] keeps the hole inside the range, moves it
    down, and leaves the places from [len] on as they were. *)
Lemma adjust_heap_loop_hole fuel (l : list A) h len :
  h < len → h ≤ (adjust_heap_loop comp fuel l h len).2 < len.
Proof.
  revert l h. induction fuel as [|fuel IH]; intros l h Hh; cbn [adjust_heap_loop fst snd]; [lia|].
  destruct (h <? (len - 1) / 2) eqn:E; [|simpl; lia].
  apply Nat.ltb_lt in E.
  pose proof (Nat.div_mod_eq (len - 1) 2).
  destruct (l !! (2 * (h + 1))) as [r|]; [|simpl; lia].
  destruct (l !! (2 * (h + 1) - 1)) as [lft|]; [|simpl; lia].
  destruct (comp r lft).
  - specialize (IH (<[h := lft]> l) (2 * (h + 1) - 1)). lia.
  - specialize (IH (<[h := r]> l) (2 * (h + 1))). lia.
Qed.

Lemma adjust_heap_loop_perm fuel (l : list A) h len value :
  h < length l →
  let r := adjust_heap_loop comp fuel l h len in
  <[r.2 := value]> r.1 ≡ₚ <[h := value]> l.
Proof.
  revert l h. induction fuel as [|fuel IH]; intros l h Hh; cbn [adjust_heap_loop fst snd]; [done|].
  destruct (h <? (len - 1) / 2); [|done].
  destruct (l !! (2 * (h + 1))) as [r|] eqn:Er; [|done].
  destruct (l !! (2 * (h + 1) - 1)) as [lft|] eqn:El; [|done].
  destruct (comp r lft).
  - etrans; [apply IH|].
    + rewrite length_insert. eapply lookup_lt_Some; eauto.
    + apply hole_move; done.
  - etrans; [apply IH|].
    + rewrite length_insert. eapply lookup_lt_Some; eauto.
    + apply hole_move; done.
Qed.

Lemma adjust_heap_loop_above fuel (l : list A) h len i :
  h < len → len ≤ i →
  (adjust_heap_loop comp fuel l h len).1 !! i = l !! i.
Proof.
  revert l h. induction fuel as [|fuel IH]; intros l h Hh Hi; cbn [adjust_heap_loop fst snd]; [done|].
  destruct (h <? (len - 1) / 2) eqn:E; [|done].
  apply Nat.ltb_lt in E.
  pose proof (Nat.div_mod_eq (len - 1) 2).
  destruct (l !! (2 * (h + 1))) as [r|]; [|done].
  destruct (l !! (2 * (h + 1) - 1)) as [lft|]; [|done].
  destruct (comp r lft); rewrite IH by lia; apply list_lookup_insert_ne; lia.
Qed.


Lemma adjust_heap_length (l : list A) h len value :
  length (adjust_heap comp l h len value) = length l.
Proof.
  unfold adjust_heap, std_push_heap_aux.
  pose proof (adjust_heap_loop_length len l h len) as E.
  destruct (adjust_heap_loop comp len l h len) as [l1 sc]; cbn [fst snd] in E.
  destruct (Nat.even len && (2 <=? len) && (sc =? (len - 2) / 2)).
  - destruct (l1 !! (2 * (sc + 1) - 1)).
    + rewrite push_heap_loop_length, length_insert. done.
    + rewrite push_heap_loop_length. done.
  - rewrite push_heap_loop_length. done.
Qed.

Lemma adjust_heap_perm (l : list A) h len value :
  h < len ≤ length l →
  adjust_heap comp l h len value ≡ₚ <[h := value]> l.
Proof.
  intros Hh. unfold adjust_heap, std_push_heap_aux.
  pose proof (adjust_heap_loop_length len l h len) as E.
  pose proof (adjust_heap_loop_hole len l h len ltac:(lia)) as B.
  pose proof (adjust_heap_loop_perm len l h len value ltac:(lia)) as P.
  destruct (adjust_heap_loop comp len l h len) as [l1 sc]; cbn [fst snd] in *.
  destruct (Nat.even len && (2 <=? len) && (sc =? (len - 2) / 2)).
  - destruct (l1 !! (2 * (sc + 1) - 1)) as [x|] eqn:Ex.
    + cbv beta iota. rewrite push_heap_loop_perm.
      * rewrite <- P. apply hole_move; [lia | done].
      * rewrite length_insert. eapply lookup_lt_Some; eauto.
    + cbv beta iota. rewrite push_heap_loop_perm by lia. done.
  - cbv beta iota. rewrite push_heap_loop_perm by lia. done.
Qed.

Lemma adjust_heap_above (l : list A) h len value i :
  h < len → len ≤ i → adjust_heap comp l h len value !! i = l !! i.
Proof.
  intros Hh Hi. unfold adjust_heap, std_push_heap_aux.
  pose proof (adjust_heap_loop_hole len l h len Hh) as B.
  pose proof (adjust_heap_loop_above len l h len i Hh Hi) as P.
  destruct (adjust_heap_loop comp len l h len) as [l1 sc]; cbn [fst snd] in *.
  destruct (Nat.even len && (2 <=? len) && (sc =? (len - 2) / 2)) eqn:Ec.
  - destruct (l1 !! (2 * (sc + 1) - 1)) as [x|] eqn:Ex.
    + apply andb_true_iff in Ec as [Ec1 Ec3].
      apply andb_true_iff in Ec1 as [Ec1 Ec2].
      apply Nat.eqb_eq in Ec3. apply Nat.leb_le in Ec2.
      pose proof (Nat.div_mod_eq (len - 2) 2).
      pose proof (Nat.mod_upper_bound (len - 2) 2).
      cbv beta iota. rewrite push_heap_loop_above by lia.
      rewrite list_lookup_insert_ne by lia. done.
    + cbv beta iota. rewrite push_heap_loop_above by lia. done.
  - cbv beta iota. rewrite push_heap_loop_above by lia. done.
Qed.

Lemma push_heap_length (l : list A) n : length (push_heap comp l n) = length l.
Proof.
  unfold push_heap, std_push_heap_aux.
  destruct (l !! (n - 1)); [apply push_heap_loop_length | done].
Qed.

Lemma push_heap_perm (l : list A) n : push_heap comp l n ≡ₚ l.
Proof.
  unfold push_heap, std_push_heap_aux.
  destruct (l !! (n - 1)) as [value|] eqn:E; [|done].
  rewrite push_heap_loop_perm by (eapply lookup_lt_Some; eauto).
  rewrite list_insert_id; done.
Qed.

Lemma pop_heap_length (l : list A) n : length (pop_heap comp l n) = length l.
Proof.
  unfold pop_heap. destruct (1 <? n); [|done].
  destruct (l !! (n - 1)); [|done]. destruct (l !! 0); [|done].
  rewrite adjust_heap_length, length_insert. done.
Qed.

Lemma pop_heap_perm (l : list A) n : pop_heap comp l n ≡ₚ l.
Proof.
  unfold pop_heap. destruct (1 <? n) eqn:E; [|done].
  apply Nat.ltb_lt in E.
  destruct (l !! (n - 1)) as [value|] eqn:Ev; [|done].
  destruct (l !! 0) as [top|] eqn:Et; [|done].
  pose proof (lookup_lt_Some _ _ _ Ev).
  rewrite adjust_heap_perm by (rewrite length_insert; lia).
  rewrite hole_move by done.
  rewrite list_insert_id; done.
Qed.

(** [pop_heap] moves the front to the end of the range. *)
Lemma pop_heap_back (l : list A) n :
  n ≤ length l → pop_heap comp l n !! (n - 1) = l !! 0.
Proof.
  intros Hn. unfold pop_heap. destruct (1 <? n) eqn:E.
  - apply Nat.ltb_lt in E.
    destruct (lookup_lt_is_Some_2 l (n - 1) ltac:(lia)) as [value Ev].
    destruct (lookup_lt_is_Some_2 l 0 ltac:(lia)) as [top Et].
    rewrite Ev, Et, adjust_heap_above by lia.
    apply list_lookup_insert_eq. lia.
  - apply Nat.ltb_ge in E. f_equal. lia.
Qed.

Lemma make_heap_loop_perm (l : list A) len p :
  p < len ≤ length l → make_heap_loop comp l len p ≡ₚ l.
Proof.
  revert l. induction p as [|p IH]; intros l Hp; cbn [make_heap_loop].
  - destruct (l !! 0) as [value|] eqn:E; [|done].
    rewrite adjust_heap_perm by done. rewrite list_insert_id; done.
  - destruct (l !! S p) as [value|] eqn:E.
    + rewrite IH by (rewrite adjust_heap_length; lia).
      rewrite adjust_heap_perm by done. rewrite list_insert_id; done.
    + apply IH. lia.
Qed.

Lemma make_heap_perm (l : list A) : make_heap comp l (length l) ≡ₚ l.
Proof.
  unfold make_heap. destruct (length l <? 2) eqn:E; [done|].
  apply Nat.ltb_ge in E. apply make_heap_loop_perm.
  pose proof (Nat.div_mod_eq (length l - 2) 2). lia.
Qed.

End HeapFacts.

(* ===================================================================== *)
(** ** The heap algorithms: order *)
(* ===================================================================== *)

Section HeapOrder.
Context {A : Type}.
Variable comp : A → A → bool.
(** The comparator is a strict weak ordering on the values that satisfy
    [ok]: what <algorithm> requires of it. *)
Variable ok : A → Prop.
Hypothesis comp_asym :
  ∀ a b, ok a → ok b → comp a b = true → comp b a = false.
Hypothesis comp_negtrans :
  ∀ a b c, ok a → ok b → ok c →
           comp a b = false → comp b c = false → comp a c = false.

Lemma comp_irrefl a : ok a → comp a a = false.
Proof.
  intros Ha. destruct (comp a a) eqn:E; [|done].
  rewrite (comp_asym a a Ha Ha E) in E. done.
Qed.

Lemma comp_below a b c :
  ok a → ok b → ok c → comp a b = true → comp a c = false → comp b c = false.
Proof. intros Ha Hb Hc H1 H2. eapply (comp_negtrans b a c); eauto. Qed.

Lemma ok_lookup (l : list A) i x : Forall ok l → l !! i = Some x → ok x.
Proof. intros Hl Hx. eapply Forall_lookup_1; eauto. Qed.

Lemma ok_insert (l : list A) i x : Forall ok l → ok x → Forall ok (<[i := x]> l).
Proof. intros. apply Forall_insert; done. Qed.

(** Filling the hole with [value] gives a heap, when [value] obeys the
    parent of the hole. *)
Lemma fill_hole (l : list A) len h value :
  h < len ≤ length l → hole_heap comp l len h → below_value comp l len h value →
  (0 < h → ∀ p, l !! parent h = Some p → comp p value = false) →
  is_heap comp (<[h := value]> l) len.
Proof.
  intros Hh [H1 H2] Hb Hp i x y Hi Hx Hy.
  destruct (decide (i = h)) as [->|Hih].
  - rewrite list_lookup_insert_eq in Hx by lia. injection Hx as <-.
    pose proof (parent_lt h ltac:(lia)).
    rewrite list_lookup_insert_ne in Hy by lia.
    eapply Hp; [lia | done].
  - rewrite list_lookup_insert_ne in Hx by done.
    destruct (decide (parent i = h)) as [Hpi|Hpi].
    + rewrite Hpi, list_lookup_insert_eq in Hy by lia. injection Hy as <-.
      eapply Hb; eauto.
    + rewrite list_lookup_insert_ne in Hy by done. eapply H1; eauto.
Qed.

(** [std::__push_heap] with [topIndex = 0] turns a heap with a hole into a
    heap. *)
Lemma push_heap_loop_heap fuel (l : list A) len h value :
  h ≤ fuel → h < len ≤ length l → Forall ok l → ok value →
  hole_heap comp l len h → below_value comp l len h value →
  is_heap comp (push_heap_loop comp fuel l h 0 value) len.
Proof.
  revert l h. induction fuel as [|fuel IH]; intros l h Hf Hh Hok Hv HH Hb.
  - simpl. apply fill_hole; try done. lia.
  - cbn [push_heap_loop]. destruct (0 <? h) eqn:E0.
    2:{ apply Nat.ltb_ge in E0. apply fill_hole; try done. lia. }
    apply Nat.ltb_lt in E0. pose proof (parent_lt h E0) as Hph.
    destruct (lookup_lt_is_Some_2 l (parent h) ltac:(lia)) as [p Ep].
    rewrite Ep. pose proof (ok_lookup _ _ _ Hok Ep) as Hokp.
    destruct (comp p value) eqn:Ec.
    2:{ apply fill_hole; try done. intros _ p' Ep'. congruence. }
    destruct HH as [H1 H2].
    apply IH; try done.
    + lia.
    + rewrite length_insert. lia.
    + apply ok_insert; done.
    + split.
      * intros i x y Hi Hne Hpne Hx Hy.
        assert (i ≠ h) by (intros ->; done).
        rewrite list_lookup_insert_ne in Hx by done.
        destruct (decide (parent i = h)) as [Hpi|Hpi].
        -- rewrite Hpi, list_lookup_insert_eq in Hy by lia. injection Hy as <-.
           eapply (H2 i); eauto. lia.
        -- rewrite list_lookup_insert_ne in Hy by done. eapply H1; eauto.
      * intros c x y Hpos Hc Hpc Hx Hy.
        pose proof (parent_lt (parent h) Hpos).
        rewrite list_lookup_insert_ne in Hy by lia.
        assert (comp y p = false) as Hyp by (eapply (H1 (parent h)); eauto; lia).
        destruct (decide (c = h)) as [->|Hch].
        -- rewrite list_lookup_insert_eq in Hx by lia. injection Hx as <-. done.
        -- rewrite list_lookup_insert_ne in Hx by done.
           assert (0 < c) by (destruct c; [change (parent 0) with 0 in Hpc; lia | lia]).
           assert (comp p x = false)
             by (apply (H1 c x p); [lia | done | lia | done | by rewrite Hpc]).
           eapply (comp_negtrans y p x); eauto using ok_lookup.
    + intros c x Hc Hpc Hx.
      destruct (decide (c = h)) as [->|Hch].
      * rewrite list_lookup_insert_eq in Hx by lia. injection Hx as <-.
        apply comp_asym; done.
      * rewrite list_lookup_insert_ne in Hx by done.
        assert (comp p x = false)
          by (apply (H1 c x p); [lia | done | lia | done | by rewrite Hpc]).
        eapply (comp_below p value x); eauto using ok_lookup.
Qed.


(** The first loop of [std::__adjust_heap] moves the hole down and keeps
    the rest a heap. *)
Lemma adjust_heap_loop_heap fuel (l : list A) len h :
  h < len ≤ length l → Forall ok l → hole_heap comp l len h →
  let r := adjust_heap_loop comp fuel l h len in
  hole_heap comp r.1 len r.2 ∧ Forall ok r.1.
Proof.
  revert l h. induction fuel as [|fuel IH]; intros l h Hh Hok HH;
    cbn [adjust_heap_loop]; [done|].
  destruct (h <? (len - 1) / 2) eqn:E; [|done].
  apply Nat.ltb_lt in E.
  pose proof (Nat.div_mod_eq (len - 1) 2) as Hdm.
  destruct (l !! (2 * (h + 1))) as [r|] eqn:Er; [|done].
  destruct (l !! (2 * (h + 1) - 1)) as [lft|] eqn:El; [|done].
  pose proof (ok_lookup _ _ _ Hok Er) as Hokr.
  pose proof (ok_lookup _ _ _ Hok El) as Hokl.
  destruct HH as [H1 H2].
  (* the step, for the child [c] that is moved up and its sibling [s] *)
  assert (∀ c s x z, l !! c = Some x → l !! s = Some z → comp x z = false →
            (c = 2 * h + 1 ∧ s = 2 * h + 2 ∨ c = 2 * h + 2 ∧ s = 2 * h + 1) →
            hole_heap comp (<[h := x]> l) len c) as Hstep.
  { intros c s x z Ex Ez Hxz Hcs.
    assert (parent c = h ∧ parent s = h) as [Hpc Hps].
    { split; apply parent_children; lia. }
    split.
    - intros i a b Hi Hic Hpic Ha Hb.
      destruct (decide (i = h)) as [->|Hih].
      + rewrite list_lookup_insert_eq in Ha by lia. injection Ha as <-.
        pose proof (parent_lt h ltac:(lia)).
        rewrite list_lookup_insert_ne in Hb by lia.
        apply (H2 c x b); try done; lia.
      + rewrite list_lookup_insert_ne in Ha by done.
        destruct (decide (parent i = h)) as [Hpi|Hpi].
        * rewrite Hpi, list_lookup_insert_eq in Hb by lia. injection Hb as <-.
          apply parent_children in Hpi; [|lia].
          assert (i = s) as -> by lia. congruence.
        * rewrite list_lookup_insert_ne in Hb by done. eapply H1; eauto.
    - intros d a b Hc Hd Hpd Ha Hb.
      rewrite Hpc, list_lookup_insert_eq in Hb by lia. injection Hb as <-.
      assert (0 < d) by (destruct d; [change (parent 0) with 0 in Hpd; lia | lia]).
      pose proof (parent_lt d ltac:(lia)).
      rewrite list_lookup_insert_ne in Ha by lia.
      apply (H1 d a x); [lia | lia | lia | done | by rewrite Hpd]. }
  destruct (comp r lft) eqn:Ec.
  - apply IH.
    + rewrite length_insert. lia.
    + apply ok_insert; done.
    + apply (Hstep _ (2 * (h + 1)) lft r); try done.
      * apply comp_asym; done.
      * lia.
  - apply IH.
    + rewrite length_insert. lia.
    + apply ok_insert; done.
    + apply (Hstep _ (2 * (h + 1) - 1) r lft); try done. lia.
Qed.

(** With [len] turns the loop stops because its condition fails. *)
Lemma adjust_heap_loop_exit fuel (l : list A) len h :
  len ≤ fuel + h → len ≤ length l →
  (len - 1) / 2 ≤ (adjust_heap_loop comp fuel l h len).2.
Proof.
  revert l h. induction fuel as [|fuel IH]; intros l h Hf Hl;
    cbn [adjust_heap_loop].
  - cbn [snd]. pose proof (Nat.div_mod_eq (len - 1) 2). lia.
  - destruct (h <? (len - 1) / 2) eqn:E.
    2:{ apply Nat.ltb_ge in E. done. }
    apply Nat.ltb_lt in E.
    pose proof (Nat.div_mod_eq (len - 1) 2) as Hdm.
    destruct (lookup_lt_is_Some_2 l (2 * (h + 1)) ltac:(lia)) as [r ->].
    destruct (lookup_lt_is_Some_2 l (2 * (h + 1) - 1) ltac:(lia)) as [lft ->].
    destruct (comp r lft); apply IH; rewrite ?length_insert; lia.
Qed.

(** [std::__adjust_heap] from the front: a heap whose front is a hole
    becomes a heap holding [value]. *)
Lemma adjust_heap_heap (l : list A) len value :
  0 < len ≤ length l → Forall ok l → ok value →
  hole_heap comp l len 0 →
  is_heap comp (adjust_heap comp l 0 len value) len.
Proof.
  intros Hlen Hok Hv HH. unfold adjust_heap, std_push_heap_aux.
  pose proof (adjust_heap_loop_length comp len l 0 len) as E.
  pose proof (adjust_heap_loop_hole comp len l 0 len ltac:(lia)) as B.
  pose proof (adjust_heap_loop_exit len l len 0 ltac:(lia) ltac:(lia)) as X.
  pose proof (adjust_heap_loop_heap len l len 0 ltac:(lia) Hok HH) as [H1 Hok1].
  destruct (adjust_heap_loop comp len l 0 len) as [l1 sc]; cbn [fst snd] in *.
  pose proof (Nat.div_mod_eq (len - 1) 2) as Hdm1.
  pose proof (Nat.mod_upper_bound (len - 1) 2 ltac:(lia)) as Hm1.
  pose proof (Nat.div_mod_eq (len - 2) 2) as Hdm2.
  pose proof (Nat.mod_upper_bound (len - 2) 2 ltac:(lia)) as Hm2.
  destruct (Nat.even len && (2 <=? len) && (sc =? (len - 2) / 2)) eqn:Ec.
  - apply andb_true_iff in Ec as [Ec1 Ec3].
    apply andb_true_iff in Ec1 as [Ec1 Ec2].
    apply Nat.eqb_eq in Ec3. apply Nat.leb_le in Ec2.
    apply Nat.even_spec in Ec1 as [m Hm].
    assert (2 * (sc + 1) - 1 = len - 1) as Hlast by lia.
    destruct (lookup_lt_is_Some_2 l1 (2 * (sc + 1) - 1) ltac:(lia)) as [x Ex].
    rewrite Ex. cbv beta iota. rewrite Hlast in *.
    assert (parent (len - 1) = sc) as Hpl by (apply parent_children; lia).
    apply push_heap_loop_heap; try done.
    + rewrite length_insert. lia.
    + apply ok_insert; eauto using ok_lookup.
    + destruct H1 as [H1 H2]. split.
      * intros i a b Hi Hne Hpne Ha Hb.
        destruct (decide (i = sc)) as [->|Hisc].
        -- rewrite list_lookup_insert_eq in Ha by lia. injection Ha as <-.
           pose proof (parent_lt sc ltac:(lia)).
           rewrite list_lookup_insert_ne in Hb by lia.
           apply (H2 (len - 1) x b); try done; lia.
        -- rewrite list_lookup_insert_ne in Ha by done.
           destruct (decide (parent i = sc)) as [Hpi|Hpi].
           ++ apply parent_children in Hpi; lia.
           ++ rewrite list_lookup_insert_ne in Hb by done. eapply H1; eauto.
      * intros c a b _ Hc Hpc _ _.
        assert (0 < c) by (destruct c; [change (parent 0) with 0 in Hpc; lia | lia]).
        apply parent_children in Hpc; lia.
    + intros c a Hc Hpc _. apply parent_children in Hpc; lia.
  - cbv beta iota. apply push_heap_loop_heap; try done.
    + lia.
    + intros c a Hc Hpc _. apply parent_children in Hpc; [|lia].
      apply andb_false_iff in Ec as [Ec|Ec].
      * apply andb_false_iff in Ec as [Ec|Ec].
        -- assert (Nat.odd len = true) as Ho
             by (rewrite <- Nat.negb_even, Ec; done).
           apply Nat.odd_spec in Ho as [m Hm]. lia.
        -- apply Nat.leb_gt in Ec. lia.
      * apply Nat.eqb_neq in Ec.
        destruct (Nat.even len) eqn:Ev.
        -- apply Nat.even_spec in Ev as [m Hm]. lia.
        -- assert (Nat.odd len = true) as Ho
             by (rewrite <- Nat.negb_even, Ev; done).
           apply Nat.odd_spec in Ho as [m Hm]. lia.
Qed.

(** [std::push_heap]: the heap [first, first + len - 1) and the value at
    [len - 1] become the heap [first, first + len). *)
Lemma push_heap_heap (l : list A) len :
  0 < len ≤ length l → Forall ok l → is_heap comp l (len - 1) →
  is_heap comp (push_heap comp l len) len.
Proof.
  intros Hlen Hok HH. unfold push_heap, std_push_heap_aux.
  destruct (lookup_lt_is_Some_2 l (len - 1) ltac:(lia)) as [value Ev].
  rewrite Ev. apply push_heap_loop_heap; try done.
  - lia.
  - eauto using ok_lookup.
  - split.
    + intros i x y Hi Hne _ Hx Hy. apply (HH i x y); try done. lia.
    + intros c x y Hpos Hc Hpc _ _.
      assert (0 < c) by (destruct c; [change (parent 0) with 0 in Hpc; lia | lia]).
      pose proof (parent_lt c ltac:(lia)). lia.
  - intros c x Hc Hpc _. pose proof (parent_lt c ltac:(lia)). lia.
Qed.

(** [std::pop_heap]: the heap [first, first + len) becomes the heap
    [first, first + len - 1), its former front at [len - 1]. *)
Lemma pop_heap_heap (l : list A) len :
  len ≤ length l → Forall ok l → is_heap comp l len →
  is_heap comp (pop_heap comp l len) (len - 1).
Proof.
  intros Hlen Hok HH. unfold pop_heap.
  destruct (1 <? len) eqn:E.
  2:{ apply Nat.ltb_ge in E. intros i x y Hi. lia. }
  apply Nat.ltb_lt in E.
  destruct (lookup_lt_is_Some_2 l (len - 1) ltac:(lia)) as [value Ev].
  destruct (lookup_lt_is_Some_2 l 0 ltac:(lia)) as [top Et].
  rewrite Ev, Et. apply adjust_heap_heap.
  - rewrite length_insert. lia.
  - apply ok_insert; eauto using ok_lookup.
  - eauto using ok_lookup.
  - split.
    + intros i x y Hi Hne Hpne Hx Hy.
      pose proof (parent_lt i ltac:(lia)).
      rewrite list_lookup_insert_ne in Hx by lia.
      rewrite list_lookup_insert_ne in Hy by lia.
      apply (HH i x y); try done. lia.
    + intros c x y Hpos. lia.
Qed.

(** Nothing in a heap is ordered after its front. *)
Lemma heap_front (l : list A) len :
  Forall ok l → is_heap comp l len →
  ∀ i x y, i < len → l !! i = Some x → l !! 0 = Some y → comp y x = false.
Proof.
  intros Hok HH i. induction i as [i IH] using lt_wf_ind.
  intros x y Hi Hx Hy. destruct (decide (i = 0)) as [->|Hi0].
  - assert (x = y) as -> by congruence.
    apply comp_irrefl. eauto using ok_lookup.
  - pose proof (parent_lt i ltac:(lia)) as Hp.
    pose proof (lookup_lt_Some _ _ _ Hx) as Hl.
    destruct (lookup_lt_is_Some_2 l (parent i) ltac:(lia)) as [z Ez].
    apply (comp_negtrans y z x); eauto using ok_lookup.
    + apply (IH (parent i)); try done. lia.
    + apply (HH i x z); try done. lia.
Qed.

End HeapOrder.

(* ===================================================================== *)
(** ** The open list *)
(* ===================================================================== *)

Section OpenList.
Context `{Collaborators}.

Lemma vertex_comp_asym (a b : Vertex.t) :
  True → True → getVertexComparator a b = true →
  getVertexComparator b a = false.
Proof. unfold getVertexComparator. intros _ _. lia. Qed.

Lemma vertex_comp_negtrans (a b c : Vertex.t) :
  True → True → True →
  getVertexComparator a b = false → getVertexComparator b c = false →
  getVertexComparator a c = false.
Proof. unfold getVertexComparator. intros _ _ _. lia. Qed.

Lemma Forall_True {A} (l : list A) : Forall (λ _, True) l.
Proof. apply Forall_forall. done. Qed.

(** A heap is a matter of the places inside the range only. *)
Lemma is_heap_ext {A} (comp : A → A → bool) (l l' : list A) len :
  (∀ i, i < len → l' !! i = l !! i) → is_heap comp l len → is_heap comp l' len.
Proof.
  intros E HH i x y Hi Hx Hy.
  pose proof (parent_le i).
  rewrite E in Hx, Hy by lia. eapply HH; eauto.
Qed.


Lemma last_removelast {A} (l : list A) x :
  last l = Some x → l = removelast l ++ [x].
Proof.
  intros [l' ->]%last_Some. rewrite removelast_last. done.
Qed.

(** The three ways [pushVertexQueue] ends. *)
Lemma pushVertexQueue_cases (v : Vertex.t) (p : Planner) :
  (pushVertexQueue v p = p
   ∧ (on_infeasible_edge v = true
      ∨ ∃ b, m_BestVertex p = Some b ∧ pruned_by p b v = true))
  ∨ (pushVertexQueue v p
     = visualizeVertex v "vertex" false
         (set_vertexQueue
            (push_heap getVertexComparator (m_VertexQueue p ++ [v])
                       (length (m_VertexQueue p ++ [v]))) p)
     ∧ on_infeasible_edge v = false
     ∧ ∀ b, m_BestVertex p = Some b → pruned_by p b v = false).
Proof.
  unfold pushVertexQueue, on_infeasible_edge, pruned_by, Vertex.isRoot, f_of.
  assert (∀ R : Prop, R →
            (R ∧ ∀ b : Vertex.t, @None Vertex.t = Some b →
                   Double.lt (Vertex.f b) (Vertex.f v)
                   || Double.eq (Vertex.f b) (Vertex.f v)
                      && goalCondition p v = false)) as Hnone.
  { intros R HR. split; [done|]. intros b [=]. }
  destruct (Vertex.parentEdge v) as [e|]; cbn [negb andb].
  - destruct (Edge.infeasible e); [left; split; [done | by left]|].
    destruct (m_BestVertex p) as [b|]; cbn [andb].
    2:{ right. split; [done|]. apply Hnone. done. }
    destruct (Double.lt (Vertex.f b) (Vertex.f v)) eqn:E1.
    { left. split; [done|]. right. exists b. rewrite E1. done. }
    destruct (Double.eq (Vertex.f b) (Vertex.f v) && goalCondition p v) eqn:E2.
    { left. split; [done|]. right. exists b. rewrite E2, orb_true_r. done. }
    right. split; [done|]. split; [done|].
    intros b' [= <-]. rewrite E1, E2. done.
  - destruct (m_BestVertex p) as [b|]; cbn [andb].
    2:{ right. split; [done|]. apply Hnone. done. }
    destruct (Double.lt (Vertex.f b) (Vertex.f v)) eqn:E1.
    { left. split; [done|]. right. exists b. rewrite E1. done. }
    destruct (Double.eq (Vertex.f b) (Vertex.f v) && goalCondition p v) eqn:E2.
    { left. split; [done|]. right. exists b. rewrite E2, orb_true_r. done. }
    right. split; [done|]. split; [done|].
    intros b' [= <-]. rewrite E1, E2. done.
Qed.

Lemma visualizeVertex_queue v tag e (p : Planner) :
  m_VertexQueue (visualizeVertex v tag e p) = m_VertexQueue p.
Proof. unfold visualizeVertex. destruct (visualizations _); done. Qed.

(** What [pushVertexQueue] leaves alone. *)
Lemma pushVertexQueue_frame (v : Vertex.t) (p : Planner) :
  m_BestVertex (pushVertexQueue v p) = m_BestVertex p
  ∧ m_Config (pushVertexQueue v p) = m_Config p
  ∧ m_StartStateTime (pushVertexQueue v p) = m_StartStateTime p
  ∧ m_Samples (pushVertexQueue v p) = m_Samples p
  ∧ ghost (pushVertexQueue v p) = ghost p.
Proof.
  destruct (pushVertexQueue_cases v p) as [[-> _]|[-> _]]; [done|].
  unfold visualizeVertex. destruct (visualizations _); done.
Qed.

(** The open list after [pushVertexQueue]: as it was, or with the vertex in. *)
Lemma pushVertexQueue_perm (v : Vertex.t) (p : Planner) :
  m_VertexQueue (pushVertexQueue v p) = m_VertexQueue p
  ∨ (m_VertexQueue (pushVertexQueue v p) ≡ₚ v :: m_VertexQueue p
     ∧ on_infeasible_edge v = false
     ∧ ∀ b, m_BestVertex p = Some b → pruned_by p b v = false).
Proof.
  destruct (pushVertexQueue_cases v p) as [[-> _]|[-> R]]; [by left|right].
  split; [|done].
  rewrite visualizeVertex_queue. cbn.
  rewrite push_heap_perm. symmetry. apply Permutation_cons_append.
Qed.

Lemma pushVertexQueue_heap (v : Vertex.t) (p : Planner) :
  queue_is_heap p → queue_is_heap (pushVertexQueue v p).
Proof.
  intros HH. destruct (pushVertexQueue_cases v p) as [[-> _]|[-> _]]; [done|].
  unfold queue_is_heap. rewrite visualizeVertex_queue. cbn.
  rewrite push_heap_length.
  apply (push_heap_heap _ (λ _, True)).
  - apply vertex_comp_asym.
  - apply vertex_comp_negtrans.
  - rewrite length_app. cbn. lia.
  - apply Forall_True.
  - rewrite length_app. cbn.
    replace (length (m_VertexQueue p) + 1 - 1) with (length (m_VertexQueue p))
      by lia.
    eapply is_heap_ext; [|exact HH].
    intros i Hi. apply lookup_app_l. done.
Qed.

(** [popVertexQueue] on an open list that is not empty. *)
Lemma popVertexQueue_nonempty (p : Planner) :
  m_VertexQueue p ≠ [] →
  ∃ v q, popVertexQueue p = Ok v (set_vertexQueue q p)
         ∧ m_VertexQueue p ≡ₚ v :: q
         ∧ pop_heap getVertexComparator (m_VertexQueue p)
                    (length (m_VertexQueue p)) = q ++ [v].
Proof.
  intros Hne. unfold popVertexQueue.
  destruct (m_VertexQueue p) as [|a q0] eqn:Eq; [done|].
  set (q1 := pop_heap _ _ _).
  assert (length q1 = length (a :: q0)) as Hlen by apply pop_heap_length.
  destruct (last q1) as [ret|] eqn:El.
  2:{ apply last_None in El. rewrite El in Hlen. done. }
  exists ret, (removelast q1). split; [done|].
  pose proof (last_removelast _ _ El) as E. split; [|done].
  rewrite <- (pop_heap_perm getVertexComparator (a :: q0) (length (a :: q0))).
  fold q1. rewrite E at 1. symmetry. apply Permutation_cons_append.
Qed.

Lemma popVertexQueue_empty (p : Planner) :
  m_VertexQueue p = [] →
  popVertexQueue p
  = Throw (out_of_range "Trying to pop an empty vertex queue") p.
Proof. intros E. unfold popVertexQueue. rewrite E. done. Qed.

(** On a heap, [popVertexQueue] returns the front, which nothing is deeper
    than, and leaves a heap. *)
Lemma popVertexQueue_heap (p : Planner) v p' :
  queue_is_heap p → popVertexQueue p = Ok v p' →
  queue_is_heap p'
  ∧ ∀ u, u ∈ m_VertexQueue p → (Vertex.getDepth u ≤ Vertex.getDepth v)%Z.
Proof.
  intros HH Hpop.
  destruct (decide (m_VertexQueue p = [])) as [E|Hne].
  { rewrite popVertexQueue_empty in Hpop by done. done. }
  destruct (popVertexQueue_nonempty p Hne) as (v' & q & E & Hperm & Hq).
  rewrite E in Hpop. injection Hpop as <- <-.
  set (len := length (m_VertexQueue p)) in *.
  assert (length (q ++ [v']) = len) as Hlen
      by (rewrite <- Hq; apply pop_heap_length).
  rewrite length_app in Hlen. cbn in Hlen.
  split.
  - unfold queue_is_heap. cbn.
    pose proof (pop_heap_heap getVertexComparator (λ _, True)
                  vertex_comp_asym vertex_comp_negtrans
                  (m_VertexQueue p) len ltac:(done) (Forall_True _) HH) as H1.
    rewrite Hq in H1. replace (length q) with (len - 1) by lia.
    eapply is_heap_ext; [|exact H1].
    intros i Hi. symmetry. apply lookup_app_l. lia.
  - assert (m_VertexQueue p !! 0 = Some v') as Hfront.
    { rewrite <- (pop_heap_back getVertexComparator _ len) by done.
      rewrite Hq. replace (len - 1) with (length q + 0) by lia.
      rewrite lookup_app_r by lia.
      replace (length q + 0 - length q) with 0 by lia. done. }
    intros u [i Hu]%list_elem_of_lookup.
    pose proof (heap_front getVertexComparator (λ _, True)
                  vertex_comp_asym vertex_comp_negtrans
                  (m_VertexQueue p) len (Forall_True _) HH i u v'
                  (lookup_lt_Some _ _ _ Hu) Hu Hfront) as Hc.
    unfold getVertexComparator in Hc. lia.
Qed.

(** A property of planners that pushes and pops keep holds after every
    history. *)
Lemma run_ops_invariant (I : Planner → Prop) :
  (∀ v p, I p → I (pushVertexQueue v p)) →
  (∀ p v p', I p → popVertexQueue p = Ok v p' → I p') →
  ∀ ops p, I p → I (run_ops ops p).
Proof.
  intros Hpush Hpop ops. unfold run_ops.
  induction ops as [|o ops IH]; intros p Hp; [done|].
  cbn. apply IH. destruct o as [v|]; cbn.
  - apply Hpush. done.
  - destruct (popVertexQueue p) as [v p'| e p'| |] eqn:E; try done.
    + eapply Hpop; eauto.
    + destruct (decide (m_VertexQueue p = [])) as [E0|Hne].
      * rewrite popVertexQueue_empty in E by done. congruence.
      * destruct (popVertexQueue_nonempty p Hne) as (v' & q & E' & _).
        congruence.
Qed.

Lemma run_ops_heap ops (p : Planner) :
  queue_is_heap p → queue_is_heap (run_ops ops p).
Proof.
  apply (run_ops_invariant queue_is_heap).
  - intros v q. apply pushVertexQueue_heap.
  - intros q v q' Hq Hpop. eapply popVertexQueue_heap; eauto.
Qed.

End OpenList.

Section OpenListClaims.
Context `{Collaborators}.

Lemma popVertexQueue_frame (p : Planner) v p' :
  popVertexQueue p = Ok v p' →
  m_BestVertex p' = m_BestVertex p ∧ m_Config p' = m_Config p
  ∧ m_StartStateTime p' = m_StartStateTime p
  ∧ m_VertexQueue p ≡ₚ v :: m_VertexQueue p'.
Proof.
  intros Hpop.
  destruct (decide (m_VertexQueue p = [])) as [E|Hne].
  { rewrite popVertexQueue_empty in Hpop by done. done. }
  destruct (popVertexQueue_nonempty p Hne) as (v' & q & E & Hperm & _).
  rewrite E in Hpop. injection Hpop as <- <-. done.
Qed.

Lemma pruned_by_frame (p q : Planner) b v :
  m_Config q = m_Config p → m_StartStateTime q = m_StartStateTime p →
  pruned_by q b v = pruned_by p b v.
Proof.
  intros E1 E2. unfold pruned_by, goalCondition. rewrite E1, E2. done.
Qed.

(** C1 (amended): once a goal vertex [b] of total cost [C] is the incumbent,
    pushing a vertex that does not improve on it -- total cost greater than
    [C], or total cost equal to [C] while being a goal itself -- leaves the
    open list as it was, after every history of pushes and pops; so every
    vertex the open list holds afterwards was in it when [b] became the
    incumbent, or costs no more than [C] and is not an equal-cost goal.
    Any other vertex is retained unless its parent edge is marked
    infeasible: pushing a vertex on a feasible edge whose total cost is
    not greater than [C], and that is not a goal if its total cost equals
    [C], adds it to the open list. *)
Theorem pushVertexQueue_prunes_against_incumbent
        (ops : list QueueOp) (p : Planner) (b : Vertex.t) :
  m_BestVertex p = Some b →
  (∀ v, Double.lt (Vertex.f b) (Vertex.f v) = true
        ∨ (Double.eq (Vertex.f b) (Vertex.f v) = true
           ∧ goalCondition p v = true) →
        pushVertexQueue v (run_ops ops p) = run_ops ops p)
  ∧ (∀ u, u ∈ m_VertexQueue (run_ops ops p) →
          u ∈ m_VertexQueue p
          ∨ (Double.lt (Vertex.f b) (Vertex.f u) = false
             ∧ (Double.eq (Vertex.f b) (Vertex.f u) = true →
                goalCondition p u = false)))
  ∧ (∀ v, on_infeasible_edge v = false →
          Double.lt (Vertex.f b) (Vertex.f v) = false →
          (Double.eq (Vertex.f b) (Vertex.f v) = true →
           goalCondition p v = false) →
          m_VertexQueue (pushVertexQueue v (run_ops ops p))
          ≡ₚ v :: m_VertexQueue (run_ops ops p)).
Proof.
  intros Hb.
  pose (fine := λ u : Vertex.t,
          u ∈ m_VertexQueue p ∨ pruned_by p b u = false).
  assert (m_BestVertex (run_ops ops p) = Some b
          ∧ m_Config (run_ops ops p) = m_Config p
          ∧ m_StartStateTime (run_ops ops p) = m_StartStateTime p
          ∧ Forall fine (m_VertexQueue (run_ops ops p)))
    as (Rb & Rc & Rt & Rq).
  { apply (run_ops_invariant
             (λ q, m_BestVertex q = Some b ∧ m_Config q = m_Config p
                   ∧ m_StartStateTime q = m_StartStateTime p
                   ∧ Forall fine (m_VertexQueue q))).
    - intros v q (Qb & Qc & Qt & Qq).
      destruct (pushVertexQueue_frame v q) as (Fb & Fc & Ft & _).
      rewrite Fb, Fc, Ft. repeat split; try done.
      destruct (pushVertexQueue_perm v q) as [->|(Hperm & _ & Hkeep)]; [done|].
      rewrite Hperm. constructor; [|done]. right.
      rewrite <- (pruned_by_frame p q) by done. apply Hkeep. done.
    - intros q v q' (Qb & Qc & Qt & Qq) Hpop.
      destruct (popVertexQueue_frame q v q' Hpop) as (Fb & Fc & Ft & Hperm).
      rewrite Fb, Fc, Ft. repeat split; try done.
      rewrite Hperm in Qq. by inversion Qq.
    - repeat split; try done. apply Forall_forall. intros u Hu. by left. }
  split.
  - intros v Hv.
    destruct (pushVertexQueue_cases v (run_ops ops p))
      as [[E _]|(_ & _ & Hkeep)]; [done|].
    specialize (Hkeep b Rb). rewrite (pruned_by_frame p) in Hkeep by done.
    unfold pruned_by in Hkeep.
    destruct Hv as [Hv|[Hv1 Hv2]].
    + rewrite Hv in Hkeep. done.
    + rewrite Hv1, Hv2, orb_true_r in Hkeep. done.
  - split.
    + intros u Hu. rewrite Forall_forall in Rq.
      destruct (Rq u Hu) as [Hold|Hnew]; [by left | right].
      unfold pruned_by in Hnew. apply orb_false_iff in Hnew as [R1 R2].
      split; [done|]. intros E. rewrite E in R2. done.
    + intros v Hfeasible Hlt Heq.
      destruct (pushVertexQueue_cases v (run_ops ops p))
        as [[_ [Hbad|(b' & Eb' & Hpruned)]]|[E _]].
      * congruence.
      * rewrite Rb in Eb'. injection Eb' as <-.
        rewrite (pruned_by_frame p) in Hpruned by done.
        unfold pruned_by in Hpruned. rewrite Hlt in Hpruned.
        destruct (Double.eq (Vertex.f b) (Vertex.f v));
          [rewrite Heq in Hpruned by done|]; done.
      * rewrite E, visualizeVertex_queue. cbn.
        rewrite push_heap_perm. symmetry. apply Permutation_cons_append.
Qed.

(** C2: [pushVertexQueue] returns without inserting a vertex whose parent
    edge is marked infeasible, so after every history of pushes and pops
    the open list holds no such vertex. *)
Theorem pushVertexQueue_never_inserts_infeasible
        (ops : list QueueOp) (p : Planner) :
  Forall (λ u, on_infeasible_edge u = false) (m_VertexQueue p) →
  (∀ v, on_infeasible_edge v = true →
        pushVertexQueue v (run_ops ops p) = run_ops ops p)
  ∧ (∀ u, u ∈ m_VertexQueue (run_ops ops p) → on_infeasible_edge u = false).
Proof.
  intros Hq. split.
  - intros v Hv.
    destruct (pushVertexQueue_cases v (run_ops ops p))
      as [[E _]|(_ & Hf & _)]; [done|congruence].
  - apply Forall_forall. revert p Hq.
    apply (run_ops_invariant
             (λ q, Forall (λ u, on_infeasible_edge u = false)
                          (m_VertexQueue q))).
    + intros v q Qq.
      destruct (pushVertexQueue_perm v q) as [->|(Hperm & Hf & _)]; [done|].
      rewrite Hperm. constructor; done.
    + intros q v q' Qq Hpop.
      destruct (popVertexQueue_frame q v q' Hpop) as (_ & _ & _ & Hperm).
      rewrite Hperm in Qq. by inversion Qq.
Qed.

(** C3: on every open list reached from the empty one by pushes and pops
    and not empty, [popVertexQueue] removes and returns a vertex of the
    greatest depth among the queued ones; total costs play no part. *)
Theorem popVertexQueue_returns_deepest (ops : list QueueOp) (p : Planner) :
  m_VertexQueue p = [] → m_VertexQueue (run_ops ops p) ≠ [] →
  ∃ v p', popVertexQueue (run_ops ops p) = Ok v p'
          ∧ m_VertexQueue (run_ops ops p) ≡ₚ v :: m_VertexQueue p'
          ∧ ∀ u, u ∈ m_VertexQueue (run_ops ops p) →
                 (Vertex.getDepth u ≤ Vertex.getDepth v)%Z.
Proof.
  intros Hempty Hne.
  assert (queue_is_heap (run_ops ops p)) as HH.
  { apply run_ops_heap. unfold queue_is_heap. rewrite Hempty.
    intros i x y Hi. cbn in Hi. lia. }
  destruct (popVertexQueue_nonempty _ Hne) as (v & q & E & Hperm & _).
  exists v, (set_vertexQueue q (run_ops ops p)).
  split; [done|]. split; [done|].
  eapply popVertexQueue_heap; eauto.
Qed.

(** C4: [popVertexQueue] on an empty open list throws [out_of_range]
    ("Trying to pop an empty vertex queue") and returns no vertex; on an
    open list that is not empty it removes a vertex and returns it. *)
Theorem popVertexQueue_empty_throws (p : Planner) :
  match m_VertexQueue p with
  | [] => popVertexQueue p
          = Throw (out_of_range "Trying to pop an empty vertex queue") p
  | _ :: _ => ∃ v p', popVertexQueue p = Ok v p'
                      ∧ m_VertexQueue p ≡ₚ v :: m_VertexQueue p'
  end.
Proof.
  destruct (m_VertexQueue p) as [|a q] eqn:E.
  - apply popVertexQueue_empty. done.
  - destruct (popVertexQueue_nonempty p) as (v & q' & E' & Hperm & _).
    { rewrite E. done. }
    exists v, (set_vertexQueue q' p). rewrite <- E. done.
Qed.

(** C5: the goal condition is monotonic in time: with the start time and
    configuration fixed, if a vertex satisfies it, so does every vertex of
    the same coverage-completion status and a later state time. *)
Theorem goalCondition_monotonic (p : Planner) (v v' : Vertex.t) :
  goalCondition p v = true →
  Vertex.done v' = Vertex.done v →
  Double.gt (State.time (Vertex.state v')) (State.time (Vertex.state v)) = true →
  goalCondition p v' = true.
Proof.
  unfold goalCondition, Double.ge, Double.gt. intros Hg -> Ht.
  apply orb_true_iff in Hg as [Hg|Hg]; apply orb_true_iff.
  - left. eapply double_le_lt_trans; eauto.
  - right. apply andb_true_iff in Hg as [Hd Hg].
    rewrite Hd. cbn. eapply double_le_lt_trans; eauto.
Qed.

End OpenListClaims.

Lemma pushVertexQueue_prunes_against_incumbent_witness :
  m_BestVertex pruning_planner = Some incumbent
  ∧ pushVertexQueue v_worse (run_ops history pruning_planner)
    = run_ops history pruning_planner
  ∧ pushVertexQueue v_equal_goal (run_ops history pruning_planner)
    = run_ops history pruning_planner
  ∧ (∀ u, u ∈ m_VertexQueue (run_ops history pruning_planner) →
          Double.lt (Vertex.f incumbent) (Vertex.f u) = false)
  ∧ m_VertexQueue (pushVertexQueue v_equal (run_ops history pruning_planner))
    ≡ₚ v_equal :: m_VertexQueue (run_ops history pruning_planner).
Proof.
  assert (m_BestVertex pruning_planner = Some incumbent) as Hb
      by reflexivity.
  destruct (pushVertexQueue_prunes_against_incumbent
              history pruning_planner incumbent Hb) as (Hpush & Hin & Hkeep).
  split; [exact Hb|].
  split; [apply Hpush; left; vm_compute; reflexivity|].
  split; [apply Hpush; right; split; vm_compute; reflexivity|].
  split.
  - intros u Hu. destruct (Hin u Hu) as [Hold|[Hnew _]]; [|exact Hnew].
    apply elem_of_nil in Hold. destruct Hold.
  - apply Hkeep; [reflexivity | vm_compute; reflexivity |].
    intros _. vm_compute. reflexivity.
Defined.

Lemma pushVertexQueue_never_inserts_infeasible_witness :
  Forall (λ u, on_infeasible_edge u = false) (m_VertexQueue plain_planner)
  ∧ pushVertexQueue v_blocked (run_ops history plain_planner)
    = run_ops history plain_planner
  ∧ ∀ u, u ∈ m_VertexQueue (run_ops history plain_planner) →
         on_infeasible_edge u = false.
Proof.
  assert (Forall (λ u, on_infeasible_edge u = false)
                 (m_VertexQueue plain_planner)) as Hq
      by (vm_compute; constructor).
  destruct (pushVertexQueue_never_inserts_infeasible
              history plain_planner Hq) as [Hpush Hin].
  split; [exact Hq|].
  split; [apply Hpush; vm_compute; reflexivity | exact Hin].
Defined.

Lemma popVertexQueue_returns_deepest_witness :
  m_VertexQueue plain_planner = []
  ∧ m_VertexQueue (run_ops history plain_planner) ≠ []
  ∧ ∃ v p', popVertexQueue (run_ops history plain_planner) = Ok v p'
            ∧ m_VertexQueue (run_ops history plain_planner)
              ≡ₚ v :: m_VertexQueue p'
            ∧ ∀ u, u ∈ m_VertexQueue (run_ops history plain_planner) →
                   (Vertex.getDepth u ≤ Vertex.getDepth v)%Z.
Proof.
  assert (m_VertexQueue plain_planner = []) as He by reflexivity.
  assert (m_VertexQueue (run_ops history plain_planner) ≠ []) as Hne
      by (vm_compute; discriminate).
  split; [exact He|]. split; [exact Hne|].
  exact (popVertexQueue_returns_deepest history plain_planner He Hne).
Defined.

(** Depth decides, not cost: of a shallow vertex of total cost 1 and a
    deep one of total cost 9, [popVertexQueue] returns the deep one. *)
Example popVertexQueue_prefers_depth_to_cost :
  match popVertexQueue
          (run_ops [Push v_deep_costly; Push v_shallow_cheap] plain_planner)
  with
  | Ok v p' => v = v_deep_costly ∧ m_VertexQueue p' = [v_shallow_cheap]
  | _ => False
  end.
Proof. vm_compute. split; reflexivity. Qed.

Lemma goalCondition_monotonic_witness :
  goalCondition pruning_planner v_equal_goal = true
  ∧ Vertex.done incumbent = Vertex.done v_equal_goal
  ∧ Double.gt (State.time (Vertex.state incumbent))
              (State.time (Vertex.state v_equal_goal)) = true
  ∧ goalCondition pruning_planner incumbent = true.
Proof.
  assert (goalCondition pruning_planner v_equal_goal = true) as H1
      by (vm_compute; reflexivity).
  assert (Vertex.done incumbent = Vertex.done v_equal_goal) as H2
      by reflexivity.
  assert (Double.gt (State.time (Vertex.state incumbent))
                    (State.time (Vertex.state v_equal_goal)) = true) as H3
      by (vm_compute; reflexivity).
  split; [exact H1|]. split; [exact H2|]. split; [exact H3|].
  exact (goalCondition_monotonic pruning_planner v_equal_goal incumbent
                                 H1 H2 H3).
Defined.

(** C1 as the claim words it fails: with an incumbent of total cost 5, a
    vertex of total cost 5 -- so of total cost [>= C] -- that is not a goal
    is pushed and stays in the open list. *)
Lemma equal_cost_vertex_is_retained :
  m_BestVertex pruning_planner = Some incumbent
  ∧ goalCondition pruning_planner incumbent = true
  ∧ Double.ge (Vertex.f v_equal) (Vertex.f incumbent) = true
  ∧ v_equal ∈ m_VertexQueue (pushVertexQueue v_equal pruning_planner).
Proof.
  split; [reflexivity|]. split; [vm_compute; reflexivity|].
  split; [vm_compute; reflexivity|].
  vm_compute. apply list_elem_of_here.
Qed.

(* ===================================================================== *)
(** ** The bounded selections of [expand] *)
(* ===================================================================== *)

Section Selections.
Context `{Collaborators}.












End Selections.

Section SelectionClaims.
Context `{Collaborators}.





End SelectionClaims.



(* ===================================================================== *)
(** ** The coverage policy with a turning radius that is not positive *)
(* ===================================================================== *)

Section CoverageDisabled.
Context `{Collaborators}.

(** [offer] makes vertices of its own policy only, and none once the policy
    is finished. *)
Lemma offer_connects_own_policy sourceVertex sample radius coverage best
      finished (p : Planner) r p' :
  offer sourceVertex sample radius coverage best finished p = Ok r p' →
  ∃ g, ghost p' = ghost p ++ g ∧ m_Config p' = m_Config p
       ∧ (finished = true → r = (best, true) ∧ g = [])
       ∧ ∀ c rad v, Connected c rad v ∈ g → c = coverage.
Proof.
  unfold offer. destruct finished.
  { intros [= <- <-]. exists []. rewrite app_nil_r.
    repeat split; try done. intros c rad v Hin. by apply elem_of_nil in Hin. }
  unfold bind, wanted.
  assert (∀ q : Planner, ∀ b, Ok (best, b) q = Ok r p' → q = p →
            ∃ g, ghost p' = ghost p ++ g ∧ m_Config p' = m_Config p
                 ∧ (false = true → r = (best, true) ∧ g = [])
                 ∧ ∀ c rad v, Connected c rad v ∈ g → c = coverage) as Hsame.
  { intros q b [= <- <-] ->. exists []. rewrite app_nil_r.
    repeat split; try done. intros c rad v Hin. by apply elem_of_nil in Hin. }
  destruct (if (Z.of_nat (length best) <? to_size_t (k p))%Z then Ok true p
            else match best !! 0 with
                 | None => Undefined
                 | Some front =>
                     match Vertex.parentEdge front with
                     | None => Undefined
                     | Some e =>
                         Ok (Double.gt (Edge.approxCost e)
                               (distanceTo sample (Vertex.state sourceVertex)))
                            p
                     end
                 end) as [w q| | |] eqn:Ew; try done.
  assert (q = p) as ->.
  { destruct (Z.of_nat (length best) <? to_size_t (k p))%Z; [congruence|].
    destruct (best !! 0) as [front|]; [|done].
    destruct (Vertex.parentEdge front); [congruence | done]. }
  destruct w; [|intros E; exact (Hsame p true E eq_refl)].
  destruct (Double.gt _ _); [|intros E; exact (Hsame p false E eq_refl)].
  set (c0 := connect sourceVertex sample radius coverage).
  set (p1 := note (Connected coverage radius c0) p).
  destruct (to_size_t (k p1) <? _)%Z.
  - destruct (last _) as [worst|]; [|done].
    intros [= <- <-].
    exists [Connected coverage radius c0; Evicted coverage worst].
    split; [cbn; rewrite <- app_assoc; done|]. split; [done|].
    split; [done|]. intros c rad v Hin.
    apply elem_of_cons in Hin as [[= -> _ _]|Hin]; [done|].
    apply list_elem_of_singleton in Hin. done.
  - intros [= <- <-]. exists [Connected coverage radius c0].
    split; [done|]. split; [done|]. split; [done|].
    intros c rad v Hin. apply list_elem_of_singleton in Hin.
    by injection Hin as -> _ _.
Qed.

Lemma scan_skips_finished_coverage fuel i sourceVertex bestSamples
      regularDone (p : Planner) sel p' :
  scan fuel i sourceVertex bestSamples [] regularDone true p = Ok sel p' →
  sel.2 = []
  ∧ ∃ g, ghost p' = ghost p ++ g ∧ ∀ rad v, Connected true rad v ∉ g.
Proof.
  revert i bestSamples regularDone p.
  induction fuel as [|fuel IH]; intros i bS rD p; cbn [scan].
  - destruct ((i <? length (m_Samples p)) && _); [done|].
    intros [= <- <-]. split; [done|]. exists []. rewrite app_nil_r.
    split; [done|]. intros rad v Hin. by apply elem_of_nil in Hin.
  - destruct ((i <? length (m_Samples p)) && _).
    2:{ intros [= <- <-]. split; [done|]. exists []. rewrite app_nil_r.
        split; [done|]. intros rad v Hin. by apply elem_of_nil in Hin. }
    destruct (m_Samples p !! 0) as [sample|]; [|done].
    set (p1 := set_samples _ p).
    unfold bind at 1.
    destruct (offer sourceVertex sample (turningRadius (m_Config p1)) false
                    bS rD p1) as [r p2| | |] eqn:E1; try done.
    destruct (offer_connects_own_policy _ _ _ _ _ _ _ _ _ E1)
      as (g1 & Eg1 & _ & _ & Hg1).
    unfold bind at 1.
    destruct (offer sourceVertex sample (coverageTurningRadius (m_Config p1))
                    true [] true p2) as [c p3| | |] eqn:E2; try done.
    destruct (offer_connects_own_policy _ _ _ _ _ _ _ _ _ E2)
      as (g2 & Eg2 & _ & Hfin & _).
    destruct (Hfin eq_refl) as [-> ->].
    cbn [fst snd]. intros Hscan.
    destruct (IH _ _ _ _ Hscan) as (Hsel & g3 & Eg3 & Hg3).
    split; [done|]. exists (g1 ++ g3).
    split.
    + rewrite Eg3, Eg2, Eg1, app_nil_r, app_assoc. done.
    + intros rad v [Hin|Hin]%elem_of_app.
      * apply Hg1 in Hin. done.
      * by apply Hg3 in Hin.
Qed.

(** With a coverage turning radius that is not positive, the bounded
    selections of [expand] make no coverage-policy vertex. *)
Lemma select_skips_disabled_coverage sourceVertex (p : Planner) sel p' :
  Double.le (coverageTurningRadius (m_Config p)) Double.zero = true →
  select sourceVertex p = Ok sel p' →
  sel.2 = []
  ∧ ∃ g, ghost p' = ghost p ++ g ∧ ∀ rad v, Connected true rad v ∉ g.
Proof.
  intros Hle Hsel. unfold select in Hsel.
  cbn [set_samples m_Config] in Hsel. rewrite Hle in Hsel.
  exact (scan_skips_finished_coverage _ _ _ _ _ _ _ _ Hsel).
Qed.

(** The nearest-point step of [expand] makes a coverage-policy vertex
    whatever the coverage turning radius is. *)
Lemma expand_nearest_connects_coverage sourceVertex (p : Planner) :
  Vertex.done sourceVertex = false →
  Double.gt (distanceTo (Vertex.state sourceVertex)
                        (getNearestPointAsState sourceVertex))
            (collisionCheckingIncrement (m_Config p)) = true →
  ∃ v, Connected true (coverageTurningRadius (m_Config p)) v
       ∈ ghost (expand_nearest sourceVertex p).
Proof.
  intros Hd Hfar. unfold expand_nearest. rewrite Hd, Hfar. cbn [negb].
  set (s := State.with_speed _ _).
  set (d1 := connect sourceVertex s (turningRadius (m_Config p)) false).
  set (p1 := note (Connected false _ d1) p).
  set (p2 := pushVertexQueue (computeTrueCost (m_Config p1) d1) p1).
  destruct (pushVertexQueue_frame (computeTrueCost (m_Config p1) d1) p1)
    as (_ & Ec2 & _ & _ & Eg2).
  fold p2 in Ec2, Eg2.
  set (d2 := connect sourceVertex s (coverageTurningRadius (m_Config p2)) true).
  set (p3 := note (Connected true _ d2) p2).
  destruct (pushVertexQueue_frame (computeTrueCost (m_Config p3) d2) p3)
    as (_ & _ & _ & _ & Eg3).
  rewrite Eg3. exists d2. cbn [p3 note set_ghost ghost].
  apply elem_of_app. right.
  replace (coverageTurningRadius (m_Config p))
    with (coverageTurningRadius (m_Config p2)) by (rewrite Ec2; done).
  apply list_elem_of_here.
Qed.

End CoverageDisabled.

(** C7 fails on the code: with [coverageTurningRadius = 0], a source vertex
    whose coverage is not complete and whose nearest point to cover lies
    farther than the collision checking increment, [expand] makes a vertex
    with the coverage-mode flag (turning radius 0) and pushes it. *)
Lemma expand_connects_coverage_at_zero_radius :
  coverageTurningRadius (m_Config scan_planner) = Double.zero
  ∧ match @expand line_world source_covering tt scan_planner with
    | Ok _ p' =>
        ∃ v, Connected true Double.zero v ∈ ghost p'
             ∧ Vertex.parentEdge v
               = Some (Edge.mk Double.zero Double.zero false true)
             ∧ computeTrueCost (m_Config scan_planner) v ∈ m_VertexQueue p'
    | _ => False
    end.
Proof.
  split; [reflexivity|]. vm_compute. eexists.
  split; [apply list_elem_of_further, list_elem_of_here|].
  split; [reflexivity|].
  repeat first [apply list_elem_of_here | apply list_elem_of_further].
Qed.

(* ===================================================================== *)
(** ** [plan] and its time budget *)
(* ===================================================================== *)

(** C9: two calls of [plan] that differ in [timeRemaining] only behave
    alike: same result, same planner afterwards, whatever bound on the
    turns of the search loop is given to both. *)
Theorem plan_ignores_timeRemaining `{Collaborators} (fuel : nat)
        (ribbonManager : RibbonManager) (start : State.t)
        (config : PlannerConfig DynamicObstaclesManager)
        (previousPlan : DubinsPlan) (t1 t2 : double) (p : Planner) :
  plan fuel ribbonManager start config previousPlan t1 p
  = plan fuel ribbonManager start config previousPlan t2 p.
Proof. reflexivity. Qed.

(** The search of [plan] does return in the world on a line: after three
    expansions it reaches a vertex at time 3, the horizon. *)
Lemma plan_returns_on_line :
  match @plan line_world 4 tt (on_line 0 0) (line_config 3 0 2) source_done
              (Double.of_Z 1) fresh_planner with
  | Ok v p' =>
      State.time (Vertex.state v) = Double.of_Z 3
      ∧ m_ExpandedCount p' = 3%Z
  | _ => False
  end.
Proof. vm_compute. split; reflexivity. Qed.

(* ===================================================================== *)
(** ** The executive *)
(* ===================================================================== *)

Section ExecutiveClaims.
Context `{Surroundings}.

(** The turn up to the planner call changes neither [m_Running] nor
    [m_Pause]. *)
Lemma before_plan_flags (e : Executive) :
  m_Running (before_plan e).1.1.1 = m_Running e
  ∧ m_Pause (before_plan e).1.1.1 = m_Pause e.
Proof.
  unfold before_plan, getEstimatedState, getTime.
  destruct (m_MapMutex_held _); cbn -[Double.eq Double.of_Z Double.add Double.sub];
    destruct (Double.eq _ _); done.
Qed.

(** [pause()] on a loop that is alive and not paused. *)
Lemma pause_announces (e : Executive) :
  m_Running e = true → m_Pause e = false →
  pause e = emit AllDone (with_pause true e).
Proof. intros Hr Hp. unfold pause. rewrite Hp. cbn. rewrite Hr. done. Qed.

(** C8: when the planner call in a turn of the loop of [requestPath]
    throws, the turn calls [pause()] and rethrows the same exception, which
    leaves the loop; and [pause()], on a loop that is alive and not paused,
    calls [allDone()] on the trajectory publisher, so the failure is
    announced as completion: [allDone()] is the last thing asked of the
    publisher. *)
Theorem requestPath_planner_failure (e : Executive) (x : Exception)
        (pl : PlannerObj) :
  m_Running e = true → m_Pause e = false →
  ribbonsDone (e_RibbonManager e) = false →
  call_planner e = PlanThrows x pl →
  let e1 := (before_plan e).1.1.1 in
  let caught := emit (Cerr "Exception thrown while planning; pausing")
                     (with_planner pl (m_NewMap e1) e1) in
  requestPath_turn e = Thrown x (pause caught)
  ∧ (∀ fuel, requestPath (S fuel) e = Raised x (pause caught))
  ∧ pause caught = emit AllDone (with_pause true caught)
  ∧ m_Pause (pause caught) = true
  ∧ last (events (pause caught)) = Some AllDone
  ∧ ∀ e0 : Executive, m_Running e0 = true → m_Pause e0 = false →
                      events (pause e0) = events e0 ++ [AllDone].
Proof.
  intros Hr Hp Hd Hthrow e1 caught.
  destruct (before_plan_flags e) as [Fr Fp]. fold e1 in Fr, Fp.
  assert (requestPath_turn e = Thrown x (pause caught)) as Hturn.
  { unfold requestPath_turn. rewrite Hp, Hd, Hthrow.
    subst caught e1. destruct (before_plan e) as [[[e1 start] st] tr]. done. }
  assert (pause caught = emit AllDone (with_pause true caught)) as Hpause.
  { apply pause_announces; cbn; congruence. }
  split; [done|]. split.
  { intros fuel. cbn [requestPath]. rewrite Hr, Hturn. done. }
  split; [done|]. split; [rewrite Hpause; done|]. split.
  { rewrite Hpause. cbn. apply last_snoc. }
  intros e0 H0r H0p. rewrite pause_announces by done. done.
Qed.

(** C10: [updateCovered(x, y, speed, heading, t)] covers the point
    [(x, y)] exactly when [(m_LastHeading - heading) / m_LastUpdateTime] is
    at most [c_CoverageHeadingRateMax] -- the divisor is the stored time of
    the last update -- and in both cases stores [t], [heading] and
    [State(x, y, heading, speed, t)] as the last update time, heading and
    state. *)
Theorem updateCovered_covers_within_rate (x y speed heading t : double)
        (e : Executive) :
  e_RibbonManager (updateCovered x y speed heading t e)
  = (if Double.le (Double.div (Double.sub (m_LastHeading e) heading)
                              (m_LastUpdateTime e))
                  c_CoverageHeadingRateMax
     then cover (e_RibbonManager e) x y
     else e_RibbonManager e)
  ∧ m_LastUpdateTime (updateCovered x y speed heading t e) = t
  ∧ m_LastHeading (updateCovered x y speed heading t e) = heading
  ∧ m_LastState (updateCovered x y speed heading t e)
    = State.mk x y heading speed t.
Proof. done. Qed.

End ExecutiveClaims.

Lemma requestPath_planner_failure_witness :
  let e := running_executive 1 3 0 in
  let x := out_of_range "Trying to pop an empty vertex queue" in
  m_Running e = true ∧ m_Pause e = false
  ∧ ribbonsDone (e_RibbonManager e) = false
  ∧ call_planner e = @PlanThrows unit exn x tt
  ∧ (∀ fuel, ∃ e' : @Executive countdown,
         requestPath (S fuel) e = @Raised countdown x e'
         ∧ last (events e') = Some AllDone).
Proof.
  intros e x.
  assert (m_Running e = true) as H1 by reflexivity.
  assert (m_Pause e = false) as H2 by reflexivity.
  assert (ribbonsDone (e_RibbonManager e) = false) as H3 by reflexivity.
  assert (call_planner e = @PlanThrows unit exn x tt) as H4
      by (vm_compute; reflexivity).
  split; [exact H1|]. split; [exact H2|]. split; [exact H3|].
  split; [exact H4|].
  destruct (requestPath_planner_failure e x tt H1 H2 H3 H4)
    as (_ & Hloop & _ & _ & Hlast & _).
  intros fuel. eexists. split; [apply Hloop | exact Hlast].
Defined.

(** The executive covers on a slow turn and not on a fast one: with the
    last update at time 2 and heading 0, a new heading of -1 gives a rate
    of 1/2, within the limit of 1, and a new heading of -4 a rate of 2. *)
Lemma updateCovered_on_line :
  e_RibbonManager
    (updateCovered Double.zero Double.zero Double.zero (Double.of_Z (-1))
                   (Double.of_Z 3) (running_executive 5 2 0)) = 4
  ∧ e_RibbonManager
      (updateCovered Double.zero Double.zero Double.zero (Double.of_Z (-4))
                     (Double.of_Z 3) (running_executive 5 2 0)) = 5.
Proof. vm_compute. split; reflexivity. Qed.

(* ===================================================================== *)
(** ** What a push leaves alone *)
(* ===================================================================== *)

Section OpenListMore.
Context `{Collaborators}.

Lemma untouched_refl (p : Planner) : untouched p p.
Proof. done. Qed.

Lemma untouched_trans (p p' p'' : Planner) :
  untouched p p' → untouched p' p'' → untouched p p''.
Proof.
  intros (A1 & A2 & A3 & A4) (B1 & B2 & B3 & B4).
  repeat split; congruence.
Qed.

(** Everything [pushVertexQueue] does not touch. *)
Lemma pushVertexQueue_untouched (v : Vertex.t) (p : Planner) :
  untouched p (pushVertexQueue v p)
  ∧ m_Samples (pushVertexQueue v p) = m_Samples p
  ∧ ghost (pushVertexQueue v p) = ghost p
  ∧ m_ExpandedCount (pushVertexQueue v p) = m_ExpandedCount p
  ∧ (visualizations (m_Config p) = false →
     visualizationStream (pushVertexQueue v p) = visualizationStream p).
Proof.
  destruct (pushVertexQueue_cases v p) as [[-> _]|[-> _]]; [done|].
  unfold visualizeVertex. cbn. destruct (visualizations (m_Config p)); done.
Qed.

Lemma pushVertexQueue_length (v : Vertex.t) (p : Planner) :
  length (m_VertexQueue p) ≤ length (m_VertexQueue (pushVertexQueue v p))
  ≤ length (m_VertexQueue p) + 1.
Proof.
  destruct (pushVertexQueue_perm v p) as [->|[Hperm _]]; [lia|].
  rewrite Hperm. cbn. lia.
Qed.

Lemma accepted_by_untouched (p q : Planner) u :
  untouched p q → accepted_by q u → accepted_by p u.
Proof.
  intros (Ec & Et & Eb & _) [Hf Hb]. split; [done|].
  intros b Hbest. rewrite <- (pruned_by_frame p q) by done.
  apply Hb. congruence.
Qed.

(** The open list after [pushVertexQueue]: as it was, or with the vertex
    in, which the planner then accepts. *)
Lemma pushVertexQueue_elem (v : Vertex.t) (p : Planner) u :
  u ∈ m_VertexQueue (pushVertexQueue v p) →
  u ∈ m_VertexQueue p ∨ (u = v ∧ accepted_by p v).
Proof.
  destruct (pushVertexQueue_perm v p) as [->|(Hperm & Hf & Hb)]; [by left|].
  rewrite Hperm. intros [->|Hu]%elem_of_cons; [by right | by left].
Qed.

End OpenListMore.

(* ===================================================================== *)
(** ** What the selections of expand leave alone *)
(* ===================================================================== *)

Section ExpandMore.
Context `{Collaborators}.

Lemma set_ghost_same (p : Planner) : set_ghost (ghost p) p = p.
Proof. by destruct p. Qed.

(** [offer] changes the ghost history only; it returns or reads what is
    not there, and never throws. *)
Lemma offer_changes_ghost_only sourceVertex sample radius coverage best
      finished (p : Planner) :
  match offer sourceVertex sample radius coverage best finished p with
  | Ok _ p' => p' = set_ghost (ghost p') p
  | Undefined => True
  | Throw _ _ | OutOfFuel => False
  end.
Proof.
  unfold offer. destruct finished; [cbn; by rewrite set_ghost_same|].
  unfold bind, wanted.
  destruct (Z.of_nat (length best) <? to_size_t (k p))%Z.
  - destruct (Double.gt _ _); [|cbn; by rewrite set_ghost_same].
    destruct (to_size_t _ <? _)%Z; [|done].
    destruct (last _); done.
  - destruct (best !! 0) as [front|]; [|done].
    destruct (Vertex.parentEdge front); [|done].
    destruct (Double.gt _ _); [|cbn; by rewrite set_ghost_same].
    destruct (Double.gt _ _); [|cbn; by rewrite set_ghost_same].
    destruct (to_size_t _ <? _)%Z; [|done].
    destruct (last _); done.
Qed.

(** The scan changes the ghost history and the order of the samples, and
    nothing else; with as many turns as there are samples it comes to an
    end or reads what is not there, and never throws. *)
Lemma scan_frame fuel i sourceVertex bestSamples bestCoverageSamples
      regularDone coverageDone (p : Planner) :
  length (m_Samples p) ≤ fuel + i →
  match scan fuel i sourceVertex bestSamples bestCoverageSamples
             regularDone coverageDone p with
  | Ok _ p' =>
      p' = set_ghost (ghost p') (set_samples (m_Samples p') p)
      ∧ m_Samples p' ≡ₚ m_Samples p
  | Undefined => True
  | Throw _ _ | OutOfFuel => False
  end.
Proof.
  revert i bestSamples bestCoverageSamples regularDone coverageDone p.
  induction fuel as [|fuel IH]; intros i bS bC rD cD p Hfuel; cbn [scan].
  - assert ((i <? length (m_Samples p)) = false) as ->
        by (apply Nat.ltb_ge; lia).
    cbn [andb]. split; [by destruct p | done].
  - destruct ((i <? length (m_Samples p)) && _) eqn:Econd.
    2:{ split; [by destruct p | done]. }
    destruct (m_Samples p !! 0) as [sample|]; [|done].
    set (p1 := set_samples _ p).
    assert (m_Samples p1 ≡ₚ m_Samples p) as Ep1 by apply pop_heap_perm.
    unfold bind at 1.
    pose proof (offer_changes_ghost_only sourceVertex sample
                  (turningRadius (m_Config p1)) false bS rD p1) as H1.
    destruct (offer sourceVertex sample (turningRadius (m_Config p1)) false
                    bS rD p1) as [r p2| | |]; try done.
    unfold bind at 1.
    pose proof (offer_changes_ghost_only sourceVertex sample
                  (coverageTurningRadius (m_Config p1)) true bC cD p2) as H2.
    destruct (offer sourceVertex sample (coverageTurningRadius (m_Config p1))
                    true bC cD p2) as [c p3| | |]; try done.
    assert (m_Samples p3 = m_Samples p1) as Es by (rewrite H2, H1; done).
    specialize (IH (i + 1) r.1 c.1 r.2 c.2 p3).
    destruct (scan fuel (i + 1) sourceVertex r.1 c.1 r.2 c.2 p3)
      as [sel p'| | |]; try done.
    + destruct IH as [E P].
      { rewrite Es, Ep1. lia. }
      split.
      * rewrite E, H2, H1. done.
      * rewrite P, Es. done.
    + apply IH. rewrite Es, Ep1. lia.
    + apply IH. rewrite Es, Ep1. lia.
Qed.

Lemma select_frame sourceVertex (p : Planner) :
  match select sourceVertex p with
  | Ok _ p' =>
      p' = set_ghost (ghost p') (set_samples (m_Samples p') p)
      ∧ m_Samples p' ≡ₚ m_Samples p
  | Undefined => True
  | Throw _ _ | OutOfFuel => False
  end.
Proof.
  unfold select. set (p0 := set_samples _ p).
  pose proof (scan_frame (length (m_Samples p0)) 0 sourceVertex [] [] false
                (Double.le (coverageTurningRadius (m_Config p0)) Double.zero)
                p0 ltac:(lia)) as Hs.
  destruct (scan _ _ _ _ _ _ _ p0) as [sel p'| | |]; try done.
  destruct Hs as [E P]. split.
  - rewrite E. done.
  - rewrite P. apply make_heap_perm.
Qed.

End ExpandMore.

Section ExpandSuccessors.
Context `{Collaborators}.

(** [pop_heap] leaves the places from [len] on as they are, and permutes
    the range before them. *)
Lemma pop_heap_above {A} (comp : A → A → bool) (l : list A) len i :
  len ≤ i → pop_heap comp l len !! i = l !! i.
Proof.
  intros Hi. unfold pop_heap. destruct (1 <? len) eqn:E; [|done].
  apply Nat.ltb_lt in E.
  destruct (l !! (len - 1)) as [value|]; [|done].
  destruct (l !! 0) as [top|]; [|done].
  rewrite adjust_heap_above by lia.
  apply list_lookup_insert_ne. lia.
Qed.

Lemma pop_heap_take {A} (comp : A → A → bool) (l : list A) len :
  take len (pop_heap comp l len) ≡ₚ take len l.
Proof.
  assert (drop len (pop_heap comp l len) = drop len l) as Ed.
  { apply list_eq. intros i. rewrite !lookup_drop.
    apply pop_heap_above. lia. }
  apply (Permutation_app_inv_r (drop len l)).
  rewrite <- Ed at 1. rewrite !take_drop. apply pop_heap_perm.
Qed.

(** [push_best] comes to an end; it changes the open list and the
    visualization stream only, pushes at most [k() - i] vertices, and each
    vertex it adds is a candidate of the range it still has to push, its
    true cost computed. *)
Lemma push_best_spec fuel i best (p : Planner) :
  (0 ≤ i)%Z → length best ≤ fuel + Z.to_nat i →
  ∃ p', push_best fuel i best p = Ok tt p'
        ∧ untouched p p'
        ∧ m_Samples p' = m_Samples p ∧ ghost p' = ghost p
        ∧ m_ExpandedCount p' = m_ExpandedCount p
        ∧ (visualizations (m_Config p) = false →
           visualizationStream p' = visualizationStream p)
        ∧ length (m_VertexQueue p) ≤ length (m_VertexQueue p')
          ≤ length (m_VertexQueue p) + Z.to_nat (k p - i)
        ∧ (queue_is_heap p → queue_is_heap p')
        ∧ ∀ u, u ∈ m_VertexQueue p' →
               u ∈ m_VertexQueue p
               ∨ (accepted_by p u
                  ∧ ∃ b, b ∈ take (length best - Z.to_nat i) best
                         ∧ u = computeTrueCost (m_Config p) b).
Proof.
  revert i best p. induction fuel as [|fuel IH]; intros i best p Hi Hfuel;
    cbn [push_best].
  - assert ((Z.of_nat (length best) <=? i)%Z = true) as ->
        by (apply Z.leb_le; lia).
    rewrite andb_false_r. exists p.
    assert (untouched p p) as Hr by done.
    split; [done|]. split; [done|]. split; [done|]. split; [done|].
    split; [done|]. split; [done|]. split; [lia|]. split; [done|].
    intros u Hu. by left.
  - destruct ((i <? k p)%Z && negb (Z.of_nat (length best) <=? i)%Z)
      eqn:Econd.
    2:{ exists p.
        assert (untouched p p) as Hr by done.
        split; [done|]. split; [done|]. split; [done|]. split; [done|].
        split; [done|]. split; [done|]. split; [lia|]. split; [done|].
        intros u Hu. by left. }
    apply andb_true_iff in Econd as [Ek Hlen].
    apply Z.ltb_lt in Ek. apply negb_true_iff, Z.leb_gt in Hlen.
    destruct (lookup_lt_is_Some_2 best 0 ltac:(lia)) as [front Ef].
    rewrite Ef.
    set (len := length best - Z.to_nat i).
    set (best1 := pop_heap getDubinsComparator best len).
    set (d := computeTrueCost (m_Config p) front).
    set (best2 := <[len - 1 := d]> best1).
    assert (length best2 = length best) as Hl2.
    { unfold best2, best1. rewrite length_insert, pop_heap_length. done. }
    destruct (pushVertexQueue_untouched d p) as (U & Us & Ug & Uc & Uv).
    pose proof (pushVertexQueue_length d p) as Ul.
    destruct (IH (i + 1)%Z best2 (pushVertexQueue d p))
      as (p' & E & U' & Us' & Ug' & Uc' & Uv' & Ul' & Uh' & Uq'); [lia | lia |].
    exists p'. split; [done|].
    split; [eapply untouched_trans; eauto|].
    split; [congruence|]. split; [congruence|]. split; [congruence|].
    split.
    { intros Hv. rewrite Uv', Uv; try done.
      destruct U as [-> _]. done. }
    assert (k (pushVertexQueue d p) = k p) as Ekk
        by (unfold k; destruct U as [-> _]; done).
    rewrite Ekk in Ul'.
    split; [lia|].
    split; [intros Hh; by apply Uh', pushVertexQueue_heap|].
    intros u Hu. destruct (Uq' u Hu) as [Hold|(Hacc & b & Hb & ->)].
    + destruct (pushVertexQueue_elem d p u Hold) as [?|[-> Hacc]]; [by left|].
      right. split; [done|]. exists front. split; [|done].
      apply list_elem_of_lookup. exists 0.
      rewrite lookup_take_lt by lia. done.
    + right. split; [exact (accepted_by_untouched p _ _ U Hacc)|].
      exists b. split; [|destruct U as [-> _]; done].
      rewrite Hl2 in Hb.
      replace (length best - Z.to_nat (i + 1)) with (len - 1) in Hb by lia.
      unfold best2 in Hb. rewrite take_insert_ge in Hb by lia.
      assert (b ∈ take len best1) as Hb1.
      { apply list_elem_of_lookup in Hb as [j Hj].
        apply lookup_take_Some in Hj as [Hj Hlt].
        apply list_elem_of_lookup. exists j.
        rewrite lookup_take_lt by lia. done. }
      unfold best1 in Hb1. rewrite pop_heap_take in Hb1. done.
Qed.

(** The nearest-point step changes the open list, the visualization stream
    and the ghost history only, and adds at most two vertices, both
    connected to the nearest point to cover. *)
Lemma expand_nearest_spec sourceVertex (p : Planner) :
  let p' := expand_nearest sourceVertex p in
  untouched p p'
  ∧ m_Samples p' = m_Samples p
  ∧ m_ExpandedCount p' = m_ExpandedCount p
  ∧ (visualizations (m_Config p) = false →
     visualizationStream p' = visualizationStream p)
  ∧ length (m_VertexQueue p) ≤ length (m_VertexQueue p')
    ≤ length (m_VertexQueue p) + 2
  ∧ (queue_is_heap p → queue_is_heap p')
  ∧ ∀ u, u ∈ m_VertexQueue p' →
         u ∈ m_VertexQueue p
         ∨ (accepted_by p u
            ∧ ∃ coverage,
                u = computeTrueCost (m_Config p)
                      (connect sourceVertex
                               (nearest_target (m_Config p) sourceVertex)
                               (policy_radius (m_Config p) coverage)
                               coverage)).
Proof.
  unfold expand_nearest.
  assert (∀ q : Planner, q = p →
            untouched p q ∧ m_Samples q = m_Samples p
            ∧ m_ExpandedCount q = m_ExpandedCount p
            ∧ (visualizations (m_Config p) = false →
               visualizationStream q = visualizationStream p)
            ∧ length (m_VertexQueue p) ≤ length (m_VertexQueue q)
              ≤ length (m_VertexQueue p) + 2
            ∧ (queue_is_heap p → queue_is_heap q)
            ∧ ∀ u, u ∈ m_VertexQueue q →
                   u ∈ m_VertexQueue p
                   ∨ (accepted_by p u
                      ∧ ∃ coverage,
                          u = computeTrueCost (m_Config p)
                                (connect sourceVertex
                                   (nearest_target (m_Config p) sourceVertex)
                                   (policy_radius (m_Config p) coverage)
                                   coverage))) as Hsame.
  { intros q ->. split; [done|]. split; [done|]. split; [done|].
    split; [done|]. split; [lia|]. split; [done|]. intros u Hu. by left. }
  destruct (negb (Vertex.done sourceVertex)); [|by apply Hsame].
  destruct (Double.gt _ _); [|by apply Hsame].
  fold (nearest_target (m_Config p) sourceVertex).
  set (s := nearest_target (m_Config p) sourceVertex).
  set (d1 := connect sourceVertex s (turningRadius (m_Config p)) false).
  set (p1 := note (Connected false _ d1) p).
  assert (untouched p p1) as U1 by done.
  set (c1 := computeTrueCost (m_Config p1) d1).
  destruct (pushVertexQueue_untouched c1 p1) as (U2 & Us2 & Ug2 & Uc2 & Uv2).
  pose proof (pushVertexQueue_length c1 p1) as Ul2.
  pose proof (pushVertexQueue_heap c1 p1) as Uh2.
  pose proof (pushVertexQueue_elem c1 p1) as Ue2.
  set (p2 := pushVertexQueue c1 p1) in *.
  assert (m_Config p2 = m_Config p) as Ec2 by (destruct U2 as [-> _]; done).
  set (d2 := connect sourceVertex s (coverageTurningRadius (m_Config p2)) true).
  set (p3 := note (Connected true _ d2) p2).
  assert (untouched p2 p3) as U3 by done.
  set (c2 := computeTrueCost (m_Config p3) d2).
  destruct (pushVertexQueue_untouched c2 p3) as (U4 & Us4 & Ug4 & Uc4 & Uv4).
  pose proof (pushVertexQueue_length c2 p3) as Ul4.
  pose proof (pushVertexQueue_heap c2 p3) as Uh4.
  pose proof (pushVertexQueue_elem c2 p3) as Ue4.
  set (p4 := pushVertexQueue c2 p3) in *.
  assert (untouched p p3) as U03
      by (eapply untouched_trans; [|exact U3];
          eapply untouched_trans; [exact U1 | exact U2]).
  assert (untouched p p4) as U by (eapply untouched_trans; eauto).
  split; [done|]. split; [rewrite Us4; cbn; rewrite Us2; done|].
  split; [rewrite Uc4; cbn; rewrite Uc2; done|].
  split.
  { intros Hv. rewrite Uv4; [cbn; rewrite Uv2; done|].
    cbn. rewrite Ec2. done. }
  split; [cbn in Ul2, Ul4; lia|].
  split; [intros Hh; apply Uh4, Uh2; exact Hh|].
  intros u Hu.
  destruct (Ue4 u Hu) as [Hu3|[-> Hacc]].
  - destruct (Ue2 u Hu3) as [?|[-> Hacc]]; [by left|].
    right. split; [exact (accepted_by_untouched p p1 _ U1 Hacc)|].
    exists false. done.
  - right. split; [exact (accepted_by_untouched p p3 _ U03 Hacc)|].
    exists true. unfold c2, d2. cbn. rewrite Ec2. done.
Qed.

End ExpandSuccessors.

Section ExpandWhole.
Context `{Collaborators}.

(** The selection after [offer] holds what it held, and at most the
    candidate made from the sample offered. *)
Lemma offer_members sourceVertex sample radius coverage best finished
      (p : Planner) r p' :
  offer sourceVertex sample radius coverage best finished p = Ok r p' →
  ∀ x, x ∈ r.1 →
       x ∈ best
       ∨ x = computeApproxCost (connect sourceVertex sample radius coverage).
Proof.
  unfold offer. destruct finished; [intros [= <- _] x Hx; by left|].
  unfold bind, wanted.
  set (new := computeApproxCost (connect sourceVertex sample radius coverage)).
  assert (∀ q : Planner,
             (if Double.gt (distanceTo (Vertex.state sourceVertex) sample)
                           (collisionCheckingIncrement (m_Config q))
              then
                let v := connect sourceVertex sample radius coverage in
                let q := note (Connected coverage radius v) q in
                let best := best ++ [computeApproxCost v] in
                let best :=
                  push_heap getDubinsComparator best (length best) in
                if (to_size_t (k q) <? Z.of_nat (length best))%Z
                then
                  let best :=
                    pop_heap getDubinsComparator best (length best) in
                  match last best with
                  | Some worst =>
                      Ok (removelast best, false)
                         (note (Evicted coverage worst) q)
                  | None => Undefined
                  end
                else Ok (best, false) q
              else Ok (best, false) q) = Ok r p' →
             ∀ x, x ∈ r.1 → x ∈ best ∨ x = new) as Hgrow.
  { intros q. destruct (Double.gt _ _); [|intros [= <- _] x Hx; by left].
    cbv zeta. fold new.
    assert (∀ x, x ∈ push_heap getDubinsComparator (best ++ [new])
                               (length (best ++ [new])) →
                 x ∈ best ∨ x = new) as Hpush.
    { intros x Hx. rewrite push_heap_perm in Hx.
      apply elem_of_app in Hx as [Hx|Hx]; [by left|].
      apply list_elem_of_singleton in Hx. by right. }
    destruct (to_size_t _ <? _)%Z.
    - destruct (last _) as [worst|] eqn:El; [|done].
      intros [= <- _] x Hx. cbn [fst] in Hx. apply Hpush.
      rewrite <- (pop_heap_perm getDubinsComparator _
                    (length (push_heap getDubinsComparator (best ++ [new])
                                       (length (best ++ [new]))))).
      rewrite (last_removelast _ _ El). apply elem_of_app. by left.
    - intros [= <- _] x Hx. by apply Hpush. }
  destruct (Z.of_nat (length best) <? to_size_t (k p))%Z; [apply Hgrow|].
  destruct (best !! 0) as [front|]; [|done].
  destruct (Vertex.parentEdge front); [|done].
  destruct (Double.gt _ _); [apply Hgrow|].
  intros [= <- _] x Hx. by left.
Qed.

(** The selections of the scan hold candidates made from samples of the
    pool. *)
Lemma scan_candidates fuel i sourceVertex bestSamples bestCoverageSamples
      regularDone coverageDone (p : Planner) cfg pool sel p' :
  m_Config p = cfg → (∀ s, s ∈ m_Samples p → s ∈ pool) →
  Forall (candidate_of cfg sourceVertex pool false) bestSamples →
  Forall (candidate_of cfg sourceVertex pool true) bestCoverageSamples →
  scan fuel i sourceVertex bestSamples bestCoverageSamples
       regularDone coverageDone p = Ok sel p' →
  Forall (candidate_of cfg sourceVertex pool false) sel.1
  ∧ Forall (candidate_of cfg sourceVertex pool true) sel.2.
Proof.
  revert i bestSamples bestCoverageSamples regularDone coverageDone p.
  induction fuel as [|fuel IH]; intros i bS bC rD cD p Ecfg Hpool HS HC;
    cbn [scan].
  - destruct ((i <? length (m_Samples p)) && _); [done|].
    intros [= <- _]. done.
  - destruct ((i <? length (m_Samples p)) && _).
    2:{ intros [= <- _]. done. }
    destruct (m_Samples p !! 0) as [sample|] eqn:Es; [|done].
    assert (sample ∈ pool) as Hsample.
    { apply Hpool. apply list_elem_of_lookup. eauto. }
    set (p1 := set_samples _ p).
    assert (m_Samples p1 ≡ₚ m_Samples p) as Ep1 by apply pop_heap_perm.
    unfold bind at 1.
    pose proof (offer_changes_ghost_only sourceVertex sample
                  (turningRadius (m_Config p1)) false bS rD p1) as F1.
    pose proof (offer_members sourceVertex sample
                  (turningRadius (m_Config p1)) false bS rD p1) as M1.
    destruct (offer sourceVertex sample (turningRadius (m_Config p1)) false
                    bS rD p1) as [r p2| | |]; try done.
    unfold bind at 1.
    pose proof (offer_changes_ghost_only sourceVertex sample
                  (coverageTurningRadius (m_Config p1)) true bC cD p2) as F2.
    pose proof (offer_members sourceVertex sample
                  (coverageTurningRadius (m_Config p1)) true bC cD p2) as M2.
    destruct (offer sourceVertex sample (coverageTurningRadius (m_Config p1))
                    true bC cD p2) as [c p3| | |]; try done.
    apply IH.
    + rewrite F2, F1. done.
    + intros s Hs. rewrite F2, F1 in Hs. cbn in Hs. apply Hpool.
      rewrite <- Ep1. done.
    + apply Forall_forall. intros x Hx.
      destruct (M1 r p2 eq_refl x Hx) as [Hold| ->].
      * rewrite Forall_forall in HS. by apply HS.
      * exists sample. split; [done|]. cbn. rewrite Ecfg. done.
    + apply Forall_forall. intros x Hx.
      destruct (M2 c p3 eq_refl x Hx) as [Hold| ->].
      * rewrite Forall_forall in HC. by apply HC.
      * exists sample. split; [done|]. cbn. rewrite Ecfg. done.
Qed.

Lemma select_candidates sourceVertex (p : Planner) sel p' :
  select sourceVertex p = Ok sel p' →
  Forall (candidate_of (m_Config p) sourceVertex (m_Samples p) false) sel.1
  ∧ Forall (candidate_of (m_Config p) sourceVertex (m_Samples p) true) sel.2.
Proof.
  unfold select. apply scan_candidates; try done.
  cbn. intros s Hs. rewrite make_heap_perm in Hs. done.
Qed.

Lemma visualizeVertex_untouched v tag e (p : Planner) :
  untouched p (visualizeVertex v tag e p)
  ∧ m_Samples (visualizeVertex v tag e p) = m_Samples p
  ∧ m_ExpandedCount (visualizeVertex v tag e p) = m_ExpandedCount p
  ∧ (visualizations (m_Config p) = false →
     visualizeVertex v tag e p = p).
Proof.
  unfold visualizeVertex. destruct (visualizations (m_Config p)); done.
Qed.

(** All that a call of [expand] that returns has done. *)
Lemma expand_spec sourceVertex obstacles (p p' : Planner) :
  expand sourceVertex obstacles p = Ok tt p' →
  untouched p p'
  ∧ m_ExpandedCount p' = (m_ExpandedCount p + 1)%Z
  ∧ m_Samples p' ≡ₚ m_Samples p
  ∧ (visualizations (m_Config p) = false →
     visualizationStream p' = visualizationStream p)
  ∧ length (m_VertexQueue p) ≤ length (m_VertexQueue p')
    ≤ length (m_VertexQueue p) + 2 + 2 * Z.to_nat (k p)
  ∧ (queue_is_heap p → queue_is_heap p')
  ∧ ∀ u, u ∈ m_VertexQueue p' →
         u ∈ m_VertexQueue p
         ∨ (accepted_by p u
            ∧ successor_of (m_Config p) sourceVertex (m_Samples p) u).
Proof.
  unfold expand, bind, lift.
  set (p0 := visualizeVertex sourceVertex "vertex" true p).
  destruct (visualizeVertex_untouched sourceVertex "vertex" true p)
    as (U0 & Us0 & Uc0 & Uv0).
  pose proof (visualizeVertex_queue sourceVertex "vertex" true p) as Uq0.
  fold p0 in U0, Us0, Uc0, Uv0, Uq0.
  assert (m_Config p0 = m_Config p) as Ec0 by (destruct U0 as [-> _]; done).
  destruct (expand_nearest_spec sourceVertex p0)
    as (U1 & Us1 & Uc1 & Uv1 & Ul1 & Uh1 & Ue1).
  set (p1 := expand_nearest sourceVertex p0) in *.
  assert (untouched p p1) as U01 by (eapply untouched_trans; eauto).
  assert (m_Config p1 = m_Config p) as Ec1 by (destruct U01 as [-> _]; done).
  pose proof (select_frame sourceVertex p1) as Fsel.
  pose proof (select_candidates sourceVertex p1) as Csel.
  destruct (select sourceVertex p1) as [sel p2| | |]; try done.
  destruct Fsel as [E2 P2]. destruct (Csel sel p2 eq_refl) as [CS CC].
  assert (untouched p1 p2) as U2 by (rewrite E2; done).
  assert (untouched p p2) as U02 by (eapply untouched_trans; eauto).
  assert (m_VertexQueue p2 = m_VertexQueue p1) as Eq2 by (rewrite E2; done).
  destruct (push_best_spec (length sel.1) 0 sel.1 p2 ltac:(lia) ltac:(lia))
    as (p3 & -> & U3 & Us3 & Ug3 & Uc3 & Uv3 & Ul3 & Uh3 & Ue3).
  assert (untouched p p3) as U03 by (eapply untouched_trans; eauto).
  destruct (push_best_spec (length sel.2) 0 sel.2 p3 ltac:(lia) ltac:(lia))
    as (p4 & -> & U4 & Us4 & Ug4 & Uc4 & Uv4 & Ul4 & Uh4 & Ue4).
  assert (untouched p p4) as U04 by (eapply untouched_trans; eauto).
  intros [= <-].
  assert (k p2 = k p ∧ k p3 = k p) as [Ek2 Ek3].
  { unfold k. destruct U02 as [-> _], U03 as [-> _]. done. }
  rewrite Ek2 in Ul3. rewrite Ek3 in Ul4. rewrite Z.sub_0_r in Ul3, Ul4.
  split; [done|].
  split; [cbn; rewrite Uc4, Uc3, E2; cbn; rewrite Uc1, Uc0; done|].
  split; [cbn; rewrite Us4, Us3, P2, Us1, Us0; done|].
  split.
  { intros Hv. cbn. rewrite Uv4, Uv3, E2.
    - cbn. rewrite Uv1; [by rewrite Uv0 | by rewrite Ec0].
    - destruct U02 as [-> _]. done.
    - destruct U03 as [-> _]. done. }
  split; [cbn; rewrite Eq2, Uq0 in *; lia|].
  split.
  { intros Hh. apply Uh4, Uh3.
    unfold queue_is_heap. rewrite Eq2. apply Uh1.
    unfold queue_is_heap. rewrite Uq0. exact Hh. }
  intros u Hu. cbn in Hu.
  assert (∀ coverage r,
            r ∈ (if coverage : bool then sel.2 else sel.1) →
            successor_of (m_Config p) sourceVertex (m_Samples p)
                         (computeTrueCost (m_Config p) r)) as Hsucc.
  { intros coverage r Hr. right. exists coverage, r. split; [|done].
    assert (candidate_of (m_Config p1) sourceVertex (m_Samples p1)
                         coverage r) as (s & Hs & ->).
    { destruct coverage;
        [rewrite Forall_forall in CC; by apply CC
        |rewrite Forall_forall in CS; by apply CS]. }
    exists s. split; [by rewrite Us1, Us0 in Hs | by rewrite Ec1]. }
  destruct (Ue4 u Hu) as [Hu3|(Hacc & b & Hb & ->)].
  2:{ right. split; [exact (accepted_by_untouched p p3 _ U03 Hacc)|].
      destruct U03 as [-> _]. apply (Hsucc true).
      by eapply subseteq_take. }
  destruct (Ue3 u Hu3) as [Hu2|(Hacc & b & Hb & ->)].
  2:{ right. split; [exact (accepted_by_untouched p p2 _ U02 Hacc)|].
      destruct U02 as [-> _]. apply (Hsucc false).
      by eapply subseteq_take. }
  rewrite Eq2 in Hu2.
  destruct (Ue1 u Hu2) as [Hu0|(Hacc & coverage & ->)].
  - left. by rewrite Uq0 in Hu0.
  - right. split; [exact (accepted_by_untouched p p0 _ U0 Hacc)|].
    left. exists coverage. rewrite Ec0. done.
Qed.

(** [expand] returns or reads what is not there: it never throws, and the
    bounds given to its loops are enough. *)
Lemma expand_outcome sourceVertex obstacles (p : Planner) :
  match expand sourceVertex obstacles p with
  | Ok _ _ | Undefined => True
  | Throw _ _ | OutOfFuel => False
  end.
Proof.
  unfold expand, bind, lift.
  set (p1 := expand_nearest sourceVertex _).
  pose proof (select_frame sourceVertex p1) as Fsel.
  destruct (select sourceVertex p1) as [sel p2| | |]; try done.
  destruct (push_best_spec (length sel.1) 0 sel.1 p2 ltac:(lia) ltac:(lia))
    as (p3 & -> & _).
  destruct (push_best_spec (length sel.2) 0 sel.2 p3 ltac:(lia) ltac:(lia))
    as (p4 & -> & _).
  done.
Qed.

End ExpandWhole.

(* ===================================================================== *)
(** ** Further properties of the open list *)
(* ===================================================================== *)

Section OpenListUse.
Context `{Collaborators}.

Lemma empty_queue_is_heap (p : Planner) :
  m_VertexQueue p = [] → queue_is_heap p.
Proof.
  intros E. unfold queue_is_heap. rewrite E. intros i x y Hi. cbn in Hi. lia.
Qed.

(** A vertex that [pushVertexQueue] has no reason to reject is added to
    the open list. *)
Lemma pushVertexQueue_accepted (v : Vertex.t) (p : Planner) :
  accepted_by p v →
  m_VertexQueue (pushVertexQueue v p) ≡ₚ v :: m_VertexQueue p.
Proof.
  intros [Hf Hb].
  destruct (pushVertexQueue_cases v p)
    as [[_ [Hbad|(b & Ebest & Hpruned)]]|[E _]].
  - congruence.
  - rewrite (Hb b Ebest) in Hpruned. done.
  - rewrite E, visualizeVertex_queue. cbn.
    rewrite push_heap_perm. symmetry. apply Permutation_cons_append.
Qed.

(** X1: a vertex that [pushVertexQueue] has no reason to reject -- its
    parent edge is not marked infeasible and the incumbent, if any, does
    not prune it -- is inserted: the open list afterwards is the old one
    with the vertex added, one longer, and is still a heap by depth if it
    was one. *)
Theorem pushVertexQueue_inserts_accepted (v : Vertex.t) (p : Planner) :
  accepted_by p v →
  m_VertexQueue (pushVertexQueue v p) ≡ₚ v :: m_VertexQueue p
  ∧ length (m_VertexQueue (pushVertexQueue v p))
    = S (length (m_VertexQueue p))
  ∧ (queue_is_heap p → queue_is_heap (pushVertexQueue v p)).
Proof.
  intros Hacc. pose proof (pushVertexQueue_accepted v p Hacc) as Hperm.
  split; [done|]. split; [by rewrite Hperm|]. apply pushVertexQueue_heap.
Qed.

(** X2: vertices come out of the open list deepest first: of two
    successive calls of [popVertexQueue], after any history of pushes and
    pops from the empty list, the second returns a vertex no deeper than
    the first. *)
Theorem popVertexQueue_twice_deepest_first (ops : list QueueOp) (p : Planner) :
  m_VertexQueue p = [] →
  match popVertexQueue (run_ops ops p) with
  | Ok v p' =>
      match popVertexQueue p' with
      | Ok v' _ => (Vertex.getDepth v' ≤ Vertex.getDepth v)%Z
      | _ => m_VertexQueue p' = []
      end
  | _ => m_VertexQueue (run_ops ops p) = []
  end.
Proof.
  intros Hempty.
  pose proof (run_ops_heap ops p (empty_queue_is_heap p Hempty)) as HH.
  set (q := run_ops ops p) in *.
  destruct (decide (m_VertexQueue q = [])) as [E|Hne].
  { rewrite popVertexQueue_empty by done. done. }
  destruct (popVertexQueue_nonempty q Hne) as (v & rest & E & Hperm & _).
  rewrite E.
  destruct (popVertexQueue_heap q v _ HH E) as [HH' Hmax].
  set (q' := set_vertexQueue rest q) in *.
  destruct (decide (m_VertexQueue q' = [])) as [E'|Hne'].
  { rewrite popVertexQueue_empty by done. done. }
  destruct (popVertexQueue_nonempty q' Hne') as (v' & rest' & E' & Hperm' & _).
  rewrite E'. apply Hmax. rewrite Hperm.
  apply elem_of_cons. right. cbn in Hperm'. rewrite Hperm'.
  apply list_elem_of_here.
Qed.

(** X3: pushing a vertex that is accepted and deeper than every queued
    vertex, then popping, returns that very vertex and leaves the open
    list with the vertices it had. *)
Theorem push_then_pop_returns_deeper (v : Vertex.t) (p : Planner) :
  queue_is_heap p → accepted_by p v →
  (∀ u, u ∈ m_VertexQueue p → (Vertex.getDepth u < Vertex.getDepth v)%Z) →
  ∃ p', popVertexQueue (pushVertexQueue v p) = Ok v p'
        ∧ m_VertexQueue p' ≡ₚ m_VertexQueue p.
Proof.
  intros HH Hacc Hdeep.
  pose proof (pushVertexQueue_accepted v p Hacc) as Hperm.
  pose proof (pushVertexQueue_heap v p) as Hheap.
  set (q := pushVertexQueue v p) in *.
  assert (m_VertexQueue q ≠ []) as Hne.
  { intros E. rewrite E in Hperm. by apply Permutation_nil_cons in Hperm. }
  destruct (popVertexQueue_nonempty q Hne) as (v' & rest & E & Hperm' & _).
  destruct (popVertexQueue_heap q v' _ (Hheap HH) E) as [_ Hmax].
  assert (v' = v) as ->.
  { assert (v' ∈ v :: m_VertexQueue p) as Hin.
    { rewrite <- Hperm, Hperm'. apply list_elem_of_here. }
    apply elem_of_cons in Hin as [->|Hin]; [done|].
    specialize (Hdeep v' Hin).
    assert (Vertex.getDepth v ≤ Vertex.getDepth v')%Z; [|lia].
    apply Hmax. rewrite Hperm. apply list_elem_of_here. }
  exists (set_vertexQueue rest q). split; [done|]. cbn.
  rewrite Hperm in Hperm'. by apply Permutation_cons_inv in Hperm'.
Qed.

(** X4: [popVertexQueue] throws exactly when [vertexQueueEmpty()] holds,
    so a caller that tests it first never sees the exception; and after
    [clearVertexQueue()] it does throw, whatever was queued. *)
Theorem vertexQueueEmpty_guards_pop (p : Planner) :
  (vertexQueueEmpty p = true
   ↔ popVertexQueue p
     = Throw (out_of_range "Trying to pop an empty vertex queue") p)
  ∧ (vertexQueueEmpty p = false ↔ ∃ v p', popVertexQueue p = Ok v p')
  ∧ vertexQueueEmpty (clearVertexQueue p) = true
  ∧ popVertexQueue (clearVertexQueue p)
    = Throw (out_of_range "Trying to pop an empty vertex queue")
            (clearVertexQueue p).
Proof.
  split; [|split; [|done]].
  - unfold vertexQueueEmpty. destruct (m_VertexQueue p) as [|a q] eqn:E.
    + split; [intros _; by apply popVertexQueue_empty | done].
    + split; [done|]. intros Hthrow.
      destruct (popVertexQueue_nonempty p) as (v & q' & E' & _);
        [by rewrite E | congruence].
  - unfold vertexQueueEmpty. destruct (m_VertexQueue p) as [|a q] eqn:E.
    + split; [done|]. intros (v & p' & Hpop).
      rewrite popVertexQueue_empty in Hpop by done. done.
    + split; [|done]. intros _.
      destruct (popVertexQueue_nonempty p) as (v & q' & E' & _);
        [by rewrite E | eauto].
Qed.

End OpenListUse.

Lemma pushVertexQueue_inserts_accepted_witness :
  accepted_by pruning_planner v_better
  ∧ m_VertexQueue (pushVertexQueue v_better pruning_planner)
    ≡ₚ v_better :: m_VertexQueue pruning_planner
  ∧ length (m_VertexQueue (pushVertexQueue v_better pruning_planner))
    = S (length (m_VertexQueue pruning_planner))
  ∧ (queue_is_heap pruning_planner
     → queue_is_heap (pushVertexQueue v_better pruning_planner)).
Proof.
  assert (accepted_by pruning_planner v_better) as H1.
  { split; [reflexivity|]. intros b [= <-]. vm_compute. reflexivity. }
  split; [exact H1|].
  exact (pushVertexQueue_inserts_accepted v_better pruning_planner H1).
Defined.

Lemma popVertexQueue_twice_deepest_first_witness :
  m_VertexQueue plain_planner = []
  ∧ match popVertexQueue (run_ops history plain_planner) return Prop with
    | Ok v p' =>
        match popVertexQueue p' return Prop with
        | Ok v' _ => (Vertex.getDepth v' ≤ Vertex.getDepth v)%Z
        | _ => m_VertexQueue p' = []
        end
    | _ => m_VertexQueue (run_ops history plain_planner) = []
    end.
Proof.
  split; [reflexivity|].
  exact (popVertexQueue_twice_deepest_first history plain_planner eq_refl).
Defined.

Lemma push_then_pop_returns_deeper_witness :
  let p := run_ops [Push v_shallow_cheap; Push v_better] plain_planner in
  queue_is_heap p
  ∧ accepted_by p v_deep_costly
  ∧ (∀ u, u ∈ m_VertexQueue p
          → (Vertex.getDepth u < Vertex.getDepth v_deep_costly)%Z)
  ∧ ∃ p', popVertexQueue (pushVertexQueue v_deep_costly p)
          = Ok v_deep_costly p'
          ∧ m_VertexQueue p' ≡ₚ m_VertexQueue p.
Proof.
  intros p.
  assert (queue_is_heap p) as H1.
  { apply run_ops_heap, empty_queue_is_heap. reflexivity. }
  assert (accepted_by p v_deep_costly) as H2.
  { split; [reflexivity|]. intros b Hb. discriminate Hb. }
  assert (∀ u, u ∈ m_VertexQueue p
               → (Vertex.getDepth u < Vertex.getDepth v_deep_costly)%Z)
    as H3.
  { intros u Hu.
    assert (m_VertexQueue p = [v_better; v_shallow_cheap]) as E
        by (vm_compute; reflexivity).
    rewrite E in Hu.
    apply elem_of_cons in Hu as [->|Hu]; [vm_compute; reflexivity|].
    apply elem_of_cons in Hu as [->|Hu]; [vm_compute; reflexivity|].
    by apply elem_of_nil in Hu. }
  split; [exact H1|]. split; [exact H2|]. split; [exact H3|].
  exact (push_then_pop_returns_deeper v_deep_costly p H1 H2 H3).
Defined.

(* ===================================================================== *)
(** ** What a call of expand does to the planner *)
(* ===================================================================== *)

Section ExpandEffects.
Context `{Collaborators}.

Lemma visualizeVertex_ghost v tag e (p : Planner) :
  ghost (visualizeVertex v tag e p) = ghost p
  ∧ m_Config (visualizeVertex v tag e p) = m_Config p.
Proof.
  unfold visualizeVertex. destruct (visualizations (m_Config p)); done.
Qed.


(** X5: [expand] never throws and its loops end; when it returns it has
    counted one more expansion, the sample pool holds the samples it held
    (in another order), and the configuration, the start time, the
    incumbent and the ribbon manager are as before; with visualizations
    switched off nothing is written to the visualization stream. *)
Theorem expand_keeps_search_state (sourceVertex : Vertex.t)
        (obstacles : DynamicObstaclesManager) (p : Planner) :
  match expand sourceVertex obstacles p with
  | Ok _ p' =>
      m_ExpandedCount p' = (m_ExpandedCount p + 1)%Z
      ∧ m_Samples p' ≡ₚ m_Samples p
      ∧ m_Config p' = m_Config p
      ∧ m_StartStateTime p' = m_StartStateTime p
      ∧ m_BestVertex p' = m_BestVertex p
      ∧ m_RibbonManager p' = m_RibbonManager p
      ∧ (visualizations (m_Config p) = false →
         visualizationStream p' = visualizationStream p)
  | Undefined => True
  | Throw _ _ | OutOfFuel => False
  end.
Proof.
  pose proof (expand_outcome sourceVertex obstacles p) as Hout.
  pose proof (expand_spec sourceVertex obstacles p) as Hspec.
  destruct (expand sourceVertex obstacles p) as [[] p'| | |]; try done.
  destruct (Hspec p' eq_refl) as ((? & ? & ? & ?) & ? & ? & ? & _).
  done.
Qed.

Lemma pushVertexQueue_grows (v : Vertex.t) (p : Planner) :
  ∃ added, m_VertexQueue (pushVertexQueue v p) ≡ₚ m_VertexQueue p ++ added.
Proof.
  destruct (pushVertexQueue_perm v p) as [E | [E _]].
  - exists []. by rewrite E, app_nil_r.
  - exists [v]. rewrite E. apply Permutation_cons_append.
Qed.

Lemma push_best_grows fuel i best (p p' : Planner) :
  push_best fuel i best p = Ok tt p' →
  ∃ added, m_VertexQueue p' ≡ₚ m_VertexQueue p ++ added.
Proof.
  revert i best p. induction fuel as [|fuel IH]; intros i best p;
    cbn [push_best];
    destruct ((i <? k p)%Z && negb (Z.of_nat (length best) <=? i)%Z);
    try done;
    try (intros [= <-]; exists []; by rewrite app_nil_r).
  destruct (best !! 0) as [front|]; [|done].
  intros E. apply IH in E as (added' & E).
  destruct (pushVertexQueue_grows (computeTrueCost (m_Config p) front) p)
    as (added & E0).
  exists (added ++ added'). by rewrite E, E0, <- app_assoc.
Qed.

Lemma expand_nearest_grows sourceVertex (p : Planner) :
  ∃ added,
    m_VertexQueue (expand_nearest sourceVertex p) ≡ₚ m_VertexQueue p ++ added.
Proof.
  unfold expand_nearest.
  destruct (negb (Vertex.done sourceVertex));
    [|exists []; by rewrite app_nil_r].
  destruct (Double.gt _ _); [|exists []; by rewrite app_nil_r].
  cbv zeta.
  match goal with
  | |- context [pushVertexQueue ?c2 (note ?g2 (pushVertexQueue ?c1 ?q1))] =>
      destruct (pushVertexQueue_grows c1 q1) as (a1 & E1);
      destruct (pushVertexQueue_grows c2 (note g2 (pushVertexQueue c1 q1)))
        as (a2 & E2)
  end.
  exists (a1 ++ a2). rewrite E2. cbn. rewrite E1. cbn.
  by rewrite <- app_assoc.
Qed.

(** A call of [expand] that returns has only added to the open list. *)
Lemma expand_grows sourceVertex obstacles (p p' : Planner) :
  expand sourceVertex obstacles p = Ok tt p' →
  ∃ added, m_VertexQueue p' ≡ₚ m_VertexQueue p ++ added.
Proof.
  unfold expand, bind, lift.
  set (p0 := visualizeVertex sourceVertex "vertex" true p).
  pose proof (visualizeVertex_queue sourceVertex "vertex" true p) as Uq0.
  fold p0 in Uq0.
  destruct (expand_nearest_grows sourceVertex p0) as (a1 & E1).
  set (p1 := expand_nearest sourceVertex p0) in *.
  pose proof (select_frame sourceVertex p1) as Fsel.
  destruct (select sourceVertex p1) as [sel p2| | |]; try done.
  destruct Fsel as [E2 _].
  assert (m_VertexQueue p2 = m_VertexQueue p1) as Eq2 by (rewrite E2; done).
  destruct (push_best (length sel.1) 0 sel.1 p2) as [[] p3| | |] eqn:E3;
    try done.
  destruct (push_best (length sel.2) 0 sel.2 p3) as [[] p4| | |] eqn:E4;
    try done.
  intros [= <-]. cbn.
  apply push_best_grows in E3 as (a3 & E3).
  apply push_best_grows in E4 as (a4 & E4).
  exists (a1 ++ a3 ++ a4).
  rewrite E4, E3, Eq2, E1, Uq0, <- !app_assoc. done.
Qed.

(** X6: a call of [expand] that returns takes nothing off the open list:
    the open list afterwards is the old one with vertices added, at most
    two for the nearest point to cover and the branching factor for each
    of the two policies; it stays a heap by depth. *)
Theorem expand_branching_bound (sourceVertex : Vertex.t)
        (obstacles : DynamicObstaclesManager) (p : Planner) :
  match expand sourceVertex obstacles p with
  | Ok _ p' =>
      (∃ added,
          m_VertexQueue p' ≡ₚ m_VertexQueue p ++ added
          ∧ length added ≤ 2 + 2 * Z.to_nat (branchingFactor (m_Config p)))
      ∧ (queue_is_heap p → queue_is_heap p')
  | _ => True
  end.
Proof.
  pose proof (expand_spec sourceVertex obstacles p) as Hspec.
  pose proof (expand_grows sourceVertex obstacles p) as Hgrow.
  destruct (expand sourceVertex obstacles p) as [[] p'| | |]; try done.
  destruct (Hspec p' eq_refl) as (_ & _ & _ & _ & Hlen & Hheap & _).
  destruct (Hgrow p' eq_refl) as (added & Hperm).
  split; [|done]. exists added. split; [done|].
  rewrite Hperm, length_app in Hlen. unfold k in Hlen. lia.
Qed.

(** X7: every vertex that a call of [expand] adds to the open list is a
    successor of the source vertex -- connected to its nearest point to
    cover at the maximum speed, or to a sample of the pool, with the
    turning radius of the policy, and with its true cost computed -- and
    is neither on an infeasible edge nor pruned by the incumbent. *)
Theorem expand_pushes_accepted_successors (sourceVertex : Vertex.t)
        (obstacles : DynamicObstaclesManager) (p : Planner) :
  match expand sourceVertex obstacles p with
  | Ok _ p' =>
      ∀ u, u ∈ m_VertexQueue p' →
           u ∈ m_VertexQueue p
           ∨ (accepted_by p u
              ∧ successor_of (m_Config p) sourceVertex (m_Samples p) u)
  | _ => True
  end.
Proof.
  pose proof (expand_spec sourceVertex obstacles p) as Hspec.
  destruct (expand sourceVertex obstacles p) as [[] p'| | |]; try done.
  destruct (Hspec p' eq_refl) as (_ & _ & _ & _ & _ & _ & Hin).
  done.
Qed.


(** X9: with a coverage turning radius that is not positive, expanding a
    vertex that is done, or whose nearest point to cover is within the
    collision checking increment, makes no coverage-policy vertex: every
    vertex added to the open list was connected to a sample with the
    direct policy. *)
Theorem expand_without_coverage (sourceVertex : Vertex.t)
        (obstacles : DynamicObstaclesManager) (p : Planner) :
  Double.le (coverageTurningRadius (m_Config p)) Double.zero = true →
  Vertex.done sourceVertex = true
  ∨ Double.gt (distanceTo (Vertex.state sourceVertex)
                          (getNearestPointAsState sourceVertex))
              (collisionCheckingIncrement (m_Config p)) = false →
  match expand sourceVertex obstacles p with
  | Ok _ p' =>
      (∃ g, ghost p' = ghost p ++ g ∧ ∀ rad v, Connected true rad v ∉ g)
      ∧ ∀ u, u ∈ m_VertexQueue p' →
             u ∈ m_VertexQueue p
             ∨ ∃ r, candidate_of (m_Config p) sourceVertex (m_Samples p)
                                 false r
                    ∧ u = computeTrueCost (m_Config p) r
  | _ => True
  end.
Proof.
  intros Hrad Hnear.
  unfold expand, bind, lift.
  set (p0 := visualizeVertex sourceVertex "vertex" true p).
  destruct (visualizeVertex_untouched sourceVertex "vertex" true p)
    as (U0 & Us0 & _).
  destruct (visualizeVertex_ghost sourceVertex "vertex" true p) as [Ug0 Ec0].
  pose proof (visualizeVertex_queue sourceVertex "vertex" true p) as Uq0.
  fold p0 in U0, Us0, Ug0, Ec0, Uq0.
  assert (expand_nearest sourceVertex p0 = p0) as ->.
  { unfold expand_nearest. rewrite Ec0.
    destruct Hnear as [-> | ->]; [done|].
    by destruct (negb _). }
  pose proof (select_frame sourceVertex p0) as Fsel.
  pose proof (select_candidates sourceVertex p0) as Csel.
  pose proof (select_skips_disabled_coverage sourceVertex p0) as Ssel.
  destruct (select sourceVertex p0) as [sel p2| | |]; try done.
  destruct Fsel as [E2 _]. destruct (Csel sel p2 eq_refl) as [CS _].
  destruct (Ssel sel p2) as (Enil & g & Eg & Hg); [by rewrite Ec0 | done |].
  assert (m_Config p2 = m_Config p) as Ec2 by (rewrite E2; done).
  assert (m_VertexQueue p2 = m_VertexQueue p) as Eq2 by (rewrite E2; done).
  destruct (push_best_spec (length sel.1) 0 sel.1 p2 ltac:(lia) ltac:(lia))
    as (p3 & -> & _ & _ & Ug3 & _ & _ & _ & _ & Ue3).
  destruct (push_best_spec (length sel.2) 0 sel.2 p3 ltac:(lia) ltac:(lia))
    as (p4 & -> & _ & _ & Ug4 & _ & _ & _ & _ & Ue4).
  split.
  - exists g. split; [|done]. cbn. rewrite Ug4, Ug3, Eg, Ug0. done.
  - intros u Hu. cbn in Hu.
    destruct (Ue4 u Hu) as [Hu3|(_ & b & Hb & _)].
    2:{ rewrite Enil in Hb. cbn in Hb. by apply elem_of_nil in Hb. }
    destruct (Ue3 u Hu3) as [Hu2|(_ & b & Hb & ->)].
    { left. by rewrite Eq2 in Hu2. }
    right. exists b. rewrite Ec2. split; [|done].
    apply subseteq_take in Hb. rewrite Forall_forall in CS.
    destruct (CS b Hb) as (s & Hs & ->).
    exists s. split; [by rewrite Us0 in Hs | by rewrite Ec0]. 
Qed.

End ExpandEffects.


Lemma expand_without_coverage_witness :
  Double.le (coverageTurningRadius (m_Config scan_planner)) Double.zero = true
  ∧ match @expand line_world source_done tt scan_planner return Prop with
    | Ok _ p' =>
        (∃ g, ghost p' = ghost scan_planner ++ g
              ∧ ∀ rad v, Connected true rad v ∉ g)
        ∧ ∀ u, u ∈ m_VertexQueue p' →
               u ∈ m_VertexQueue scan_planner
               ∨ ∃ r, candidate_of (m_Config scan_planner) source_done
                                   (m_Samples scan_planner) false r
                      ∧ u = @computeTrueCost line_world
                              (m_Config scan_planner) r
    | _ => True
    end.
Proof.
  assert (Double.le (coverageTurningRadius (m_Config scan_planner))
                    Double.zero = true) as H1 by reflexivity.
  split; [exact H1|].
  exact (@expand_without_coverage line_world source_done tt scan_planner H1
           (or_introl eq_refl)).
Defined.

(* ===================================================================== *)
(** ** The sample pool and the search of plan *)
(* ===================================================================== *)

Section PlanSearch.
Context `{Collaborators}.

Lemma addSamples_loop_spec n generator (p : Planner) :
  ∃ new, (addSamples_loop n generator p).2
         = set_samples (m_Samples p ++ new) p
         ∧ length new = n
         ∧ (0 < n → new !! 0 = Some (generate generator).1).
Proof.
  revert generator p. induction n as [|n IH]; intros generator p.
  - exists []. cbn. rewrite app_nil_r. split; [by destruct p|].
    split; [done|lia].
  - cbn [addSamples_loop]. destruct (generate generator) as [s g'] eqn:E.
    destruct (IH g' (set_samples (m_Samples p ++ [s]) p))
      as (new & -> & Hlen & _).
    exists (s :: new). cbn. rewrite <- app_assoc. cbn.
    split; [done|]. split; [by rewrite Hlen | done].
Qed.

Lemma addSamples_frame generator n (p : Planner) :
  ∃ new, (addSamples generator n p).2 = set_samples (m_Samples p ++ new) p
         ∧ length new = Z.to_nat n.
Proof.
  unfold addSamples.
  destruct (addSamples_loop_spec (Z.to_nat n) generator p)
    as (new & E & Hlen & _).
  by exists new.
Qed.

(** X10: [addSamples(generator, n)] puts [n] samples after those of the
    pool, the first of them the first state the generator gives, and
    changes nothing else of the planner; with [n] zero or negative the
    planner is as it was. *)
Theorem addSamples_appends (generator : StateGenerator) (n : Z)
        (p : Planner) :
  ∃ new, (addSamples generator n p).2 = set_samples (m_Samples p ++ new) p
         ∧ Z.of_nat (length new) = Z.max 0 n
         ∧ ((0 < n)%Z → new !! 0 = Some (generate generator).1)
         ∧ ((n ≤ 0)%Z → addSamples generator n p = (generator, p)).
Proof.
  unfold addSamples.
  destruct (addSamples_loop_spec (Z.to_nat n) generator p)
    as (new & E & Hlen & Hfirst).
  exists new. split; [done|]. split; [lia|]. split.
  - intros Hn. apply Hfirst. lia.
  - intros Hn. replace (Z.to_nat n) with 0 by lia. done.
Qed.

Lemma goalCondition_untouched (p p' : Planner) v :
  untouched p p' → goalCondition p' v = goalCondition p v.
Proof.
  intros (Ec & Et & _). unfold goalCondition. rewrite Ec, Et. done.
Qed.

(** The search loop of [plan]: what it returns is a goal, what it throws
    is the exception of the empty open list, after at least one
    expansion. *)
Lemma plan_loop_spec fuel vertex (p : Planner) :
  match plan_loop fuel vertex p with
  | Ok v p' =>
      goalCondition p v = true ∧ untouched p p'
      ∧ m_Samples p' ≡ₚ m_Samples p
      ∧ (m_ExpandedCount p ≤ m_ExpandedCount p'
         < m_ExpandedCount p + Z.of_nat fuel)%Z
      ∧ (m_ExpandedCount p' = m_ExpandedCount p → v = vertex ∧ p' = p)
      ∧ (visualizations (m_Config p) = false →
         visualizationStream p' = visualizationStream p)
  | Throw e p' =>
      e = out_of_range "Trying to pop an empty vertex queue"
      ∧ m_VertexQueue p' = [] ∧ untouched p p'
      ∧ m_Samples p' ≡ₚ m_Samples p
      ∧ (m_ExpandedCount p < m_ExpandedCount p')%Z
      ∧ goalCondition p vertex = false
  | Undefined | OutOfFuel => True
  end.
Proof.
  revert vertex p. induction fuel as [|fuel IH]; intros vertex p; [done|].
  cbn [plan_loop].
  destruct (goalCondition p vertex) eqn:Eg.
  { split; [done|]. split; [apply untouched_refl|].
    split; [done|]. split; [lia|]. done. }
  unfold bind.
  pose proof (expand_spec vertex (obstaclesManager (m_Config p)) p) as Hspec.
  pose proof (expand_outcome vertex (obstaclesManager (m_Config p)) p) as Hout.
  destruct (expand vertex (obstaclesManager (m_Config p)) p)
    as [[] p1| | |]; try done.
  destruct (Hspec p1 eq_refl) as (U1 & Uc1 & Us1 & Uv1 & _).
  destruct (decide (m_VertexQueue p1 = [])) as [E|Hne].
  { rewrite popVertexQueue_empty by done.
    split; [done|]. split; [done|]. split; [done|]. split; [done|].
    split; [lia|done]. }
  destruct (popVertexQueue_nonempty p1 Hne) as (v & rest & E & _).
  rewrite E.
  set (p2 := set_vertexQueue rest p1).
  assert (untouched p p2) as U2 by (destruct U1 as (? & ? & ? & ?); done).
  specialize (IH v p2).
  assert (visualizations (m_Config p2) = visualizations (m_Config p)) as Ev.
  { destruct U2 as [-> _]. done. }
  destruct (plan_loop fuel v p2) as [v' p'|e p'| |]; try done.
  - destruct IH as (G & U & S & C & _ & V).
    split; [by rewrite <- (goalCondition_untouched p p2)|].
    split; [by eapply untouched_trans|].
    split; [by rewrite S|].
    cbn in C. split; [lia|]. split; [lia|].
    intros Hv. rewrite V by congruence. cbn. by apply Uv1.
  - destruct IH as (-> & Q & U & S & C & _).
    split; [done|]. split; [done|].
    split; [by eapply untouched_trans|].
    split; [by rewrite S|].
    cbn in C. split; [lia|done].
Qed.

(** X11: whatever bound is put on its search loop, [plan] returns only
    the plan traced from a goal vertex -- one whose time has reached the
    start time plus the time horizon, or that is done and has reached the
    start time plus the minimum time -- and throws only the exception of
    the empty open list, after one expansion at least; either way the
    planner then has the configuration and the start time given, a pool
    of a thousand samples, and its incumbent and ribbon manager as
    before. *)
Theorem plan_returns_goal_or_throws_empty (fuel : nat)
        (ribbonManager : RibbonManager) (start : State.t)
        (config : PlannerConfig DynamicObstaclesManager)
        (previousPlan : DubinsPlan) (timeRemaining : double) (p : Planner) :
  let settled (p' : Planner) :=
    m_Config p' = config ∧ m_StartStateTime p' = State.time start
    ∧ length (m_Samples p') = 1000
    ∧ m_BestVertex p' = m_BestVertex p
    ∧ m_RibbonManager p' = m_RibbonManager p in
  match plan fuel ribbonManager start config previousPlan timeRemaining p with
  | Ok pl p' =>
      settled p'
      ∧ ∃ v, pl = tracePlan v false (obstaclesManager config)
             ∧ Double.ge (State.time (Vertex.state v))
                         (Double.add (State.time start) (timeHorizon config))
               || (Vertex.done v
                   && Double.ge (State.time (Vertex.state v))
                                (Double.add (State.time start)
                                            (timeMinimum config))) = true
  | Throw e p' =>
      settled p'
      ∧ e = out_of_range "Trying to pop an empty vertex queue"
      ∧ m_VertexQueue p' = []
      ∧ (m_ExpandedCount p < m_ExpandedCount p')%Z
  | Undefined | OutOfFuel => True
  end.
Proof.
  intros settled. unfold plan, bind.
  cbn [m_Config m_RibbonManager set_config set_startStateTime set_samples
       set_vertexQueue].
  match goal with
  | |- context [addSamples ?g 1000%Z ?q] =>
      destruct (addSamples_frame g 1000%Z q) as (new & E & Hlen);
      set (p0 := (addSamples g 1000%Z q).2) in *
  end.
  cbn [m_Config m_RibbonManager m_Samples set_config set_startStateTime
       set_samples set_vertexQueue app] in E.
  assert (m_Config p0 = config ∧ m_StartStateTime p0 = State.time start
          ∧ length (m_Samples p0) = 1000
          ∧ m_BestVertex p0 = m_BestVertex p
          ∧ m_RibbonManager p0 = m_RibbonManager p
          ∧ m_ExpandedCount p0 = m_ExpandedCount p)
    as (Ec & Et & El & Eb & Er & En).
  { rewrite E. cbn. repeat split. lia. }
  pose proof (plan_loop_spec fuel (makeRoot start (m_RibbonManager p0)) p0)
    as Hloop.
  destruct (plan_loop fuel _ p0) as [v p'|e p'| |]; try done.
  - destruct Hloop as (G & (Uc & Ut & Ub & Ur) & S & _).
    split.
    + unfold settled. rewrite Uc, Ut, Ub, Ur, S. done.
    + exists v. rewrite Uc, Ec. split; [done|].
      unfold goalCondition in G. rewrite Ec, Et in G. done.
  - destruct Hloop as (-> & Q & (Uc & Ut & Ub & Ur) & S & C & _).
    split.
    + unfold settled. rewrite Uc, Ut, Ub, Ur, S. done.
    + split; [done|]. split; [done|]. lia.
Qed.

(** X12: when the root made from the start state is a goal already,
    [plan] returns the plan traced from the root without expanding any
    vertex: the open list is left empty and the count of expansions as it
    was. *)
Theorem plan_of_goal_root (fuel : nat)
        (ribbonManager : RibbonManager) (start : State.t)
        (config : PlannerConfig DynamicObstaclesManager)
        (previousPlan : DubinsPlan) (timeRemaining : double) (p : Planner) :
  let root := makeRoot start (m_RibbonManager p) in
  Double.ge (State.time (Vertex.state root))
            (Double.add (State.time start) (timeHorizon config))
  || (Vertex.done root
      && Double.ge (State.time (Vertex.state root))
                   (Double.add (State.time start) (timeMinimum config)))
  = true →
  ∃ p', plan (S fuel) ribbonManager start config previousPlan timeRemaining p
        = Ok (tracePlan root false (obstaclesManager config)) p'
        ∧ m_VertexQueue p' = []
        ∧ m_ExpandedCount p' = m_ExpandedCount p
        ∧ visualizationStream p' = visualizationStream p.
Proof.
  intros root Hgoal. unfold plan, bind.
  cbn [m_Config m_RibbonManager set_config set_startStateTime set_samples
       set_vertexQueue].
  match goal with
  | |- context [addSamples ?g 1000%Z ?q] =>
      destruct (addSamples_frame g 1000%Z q) as (new & E & _);
      set (p0 := (addSamples g 1000%Z q).2) in *
  end.
  cbn [m_Config m_RibbonManager m_Samples set_config set_startStateTime
       set_samples set_vertexQueue app] in E.
  assert (m_RibbonManager p0 = m_RibbonManager p) as Er by (rewrite E; done).
  rewrite Er. fold root. cbn [plan_loop].
  assert (goalCondition p0 root = true) as ->.
  { unfold goalCondition. rewrite E. cbn. exact Hgoal. }
  exists p0. split; [by rewrite E|]. rewrite E. done.
Qed.

End PlanSearch.

Lemma plan_of_goal_root_witness :
  let root := @makeRoot line_world (on_line 0 0) (m_RibbonManager fresh_planner) in
  Double.ge (State.time (Vertex.state root))
            (Double.add (State.time (on_line 0 0))
                        (timeHorizon (line_config 0 0 2)))
  || (Vertex.done root
      && Double.ge (State.time (Vertex.state root))
                   (Double.add (State.time (on_line 0 0))
                               (timeMinimum (line_config 0 0 2))))
  = true
  ∧ ∃ p', @plan line_world 1 tt (on_line 0 0) (line_config 0 0 2)
                source_done (Double.of_Z 1) fresh_planner
          = Ok (@tracePlan line_world root false
                  (obstaclesManager (line_config 0 0 2))) p'
          ∧ m_VertexQueue p' = []
          ∧ m_ExpandedCount p' = m_ExpandedCount fresh_planner
          ∧ visualizationStream p' = visualizationStream fresh_planner.
Proof.
  intros root.
  assert (Double.ge (State.time (Vertex.state root))
            (Double.add (State.time (on_line 0 0))
                        (timeHorizon (line_config 0 0 2)))
          || (Vertex.done root
              && Double.ge (State.time (Vertex.state root))
                   (Double.add (State.time (on_line 0 0))
                               (timeMinimum (line_config 0 0 2))))
          = true) as H1 by (vm_compute; reflexivity).
  split; [exact H1|].
  exact (@plan_of_goal_root line_world 0 tt (on_line 0 0) (line_config 0 0 2)
           source_done (Double.of_Z 1) fresh_planner H1).
Defined.

(* ===================================================================== *)
(** ** addSamples with the size of the pool *)
(* ===================================================================== *)

(** X13: [addSamples(generator)] doubles a pool of fewer than 2^31
    samples: as many new samples as the pool had are put after them; an
    empty pool stays empty. *)
Theorem addSamples1_doubles_pool `{Collaborators}
        (generator : StateGenerator) (p : Planner) :
  (Z.of_nat (length (m_Samples p)) < 2 ^ 31)%Z →
  ∃ new, (addSamples1 generator p).2 = set_samples (m_Samples p ++ new) p
         ∧ length new = length (m_Samples p)
         ∧ (m_Samples p = [] → addSamples1 generator p = (generator, p)).
Proof.
  intros Hlen. unfold addSamples1.
  assert (size_t_to_int (Z.of_nat (length (m_Samples p)))
          = Z.of_nat (length (m_Samples p))) as ->.
  { unfold size_t_to_int.
    rewrite Z.mod_small; lia. }
  destruct (addSamples_frame generator (Z.of_nat (length (m_Samples p))) p)
    as (new & E & Hn).
  exists new. split; [done|]. split; [lia|].
  intros Hnil. unfold addSamples. rewrite Hnil. done.
Qed.

Lemma addSamples1_doubles_pool_witness :
  (Z.of_nat (length (m_Samples scan_planner)) < 2 ^ 31)%Z
  ∧ ∃ new, (@addSamples1 line_world 0%Z scan_planner).2
           = set_samples (m_Samples scan_planner ++ new) scan_planner
           ∧ length new = length (m_Samples scan_planner)
           ∧ (m_Samples scan_planner = []
              → @addSamples1 line_world 0%Z scan_planner
                = (0%Z, scan_planner)).
Proof.
  assert (Z.of_nat (length (m_Samples scan_planner)) < 2 ^ 31)%Z as H1
      by (cbn; lia).
  split; [exact H1|].
  exact (@addSamples1_doubles_pool line_world 0%Z scan_planner H1).
Defined.

(* ===================================================================== *)
(** ** The executive's loop, its switches and its maps *)
(* ===================================================================== *)

Section ExecutiveLoop.
Context `{Surroundings}.

Lemma AllDone_not_in_app (l1 l2 : list (Event Ribbons)) :
  AllDone ∉ l1 → AllDone ∉ l2 → AllDone ∉ l1 ++ l2.
Proof. intros H1 H2 Hin. apply elem_of_app in Hin as [?|?]; done. Qed.

(** The turn up to the planner call: the switches, the ribbons, the last
    state and the vehicle's figures are as before, [allDone()] is not
    called, and a staged map is handed to the planner when the map mutex
    is free. *)
Lemma before_plan_frame (e : Executive) :
  let e1 := (before_plan e).1.1.1 in
  m_Running e1 = m_Running e ∧ m_Pause e1 = m_Pause e
  ∧ e_RibbonManager e1 = e_RibbonManager e
  ∧ m_LastState e1 = m_LastState e
  ∧ MaxSpeed e1 = MaxSpeed e ∧ TurningRadius e1 = TurningRadius e
  ∧ CoverageMaxSpeed e1 = CoverageMaxSpeed e
  ∧ CoverageTurningRadius e1 = CoverageTurningRadius e
  ∧ m_Planner e1
    = (if m_MapMutex_held e then m_Planner e
       else match m_NewMap e with
            | Some m => updateMap (m_Planner e) m
            | None => m_Planner e
            end)
  ∧ m_NewMap e1 = (if m_MapMutex_held e then m_NewMap e else None)
  ∧ ∃ evs, events e1 = events e ++ evs ∧ AllDone ∉ evs.
Proof.
  unfold before_plan, getEstimatedState, getTime.
  destruct (m_MapMutex_held e) eqn:Eh;
    cbn -[Double.eq Double.of_Z Double.add Double.sub]; rewrite Eh;
    cbn -[Double.eq Double.of_Z Double.add Double.sub];
    destruct (Double.eq _ _);
    cbn -[Double.eq Double.of_Z Double.add Double.sub];
    repeat (split; [done|]);
    rewrite <- !app_assoc; (eexists; split; [reflexivity|]);
    intros Hin; cbn in Hin;
    repeat (apply elem_of_cons in Hin as [Hin|Hin]; [discriminate Hin|]);
    by apply elem_of_nil in Hin.
Qed.

(** One turn of the loop of a running executive that is not paused. *)
Lemma requestPath_turn_spec (e : Executive) :
  m_Running e = true → m_Pause e = false →
  match requestPath_turn e with
  | Continue e' =>
      (ribbonsDone (e_RibbonManager e) = true
       ∧ e' = emit AllDone
                (with_pause true
                   (emit (Cerr "Finished path; pausing")
                      (emit (SleepFor 1000) e))))
      ∨ (ribbonsDone (e_RibbonManager e) = false
         ∧ m_Running e' = true ∧ m_Pause e' = false
         ∧ e_RibbonManager e' = e_RibbonManager e
         ∧ ∃ evs, events e' = events e ++ evs ∧ AllDone ∉ evs)
  | Thrown x e' =>
      ribbonsDone (e_RibbonManager e) = false ∧ stopped e e'
  | Waiting _ => False
  | BadConversion => ribbonsDone (e_RibbonManager e) = false
  end.
Proof.
  intros Hrun Hpause. unfold requestPath_turn. rewrite Hpause.
  destruct (ribbonsDone (e_RibbonManager e)) eqn:Edone.
  { left. split; [done|]. unfold pause. cbn. rewrite Hpause, Hrun. done. }
  unfold call_planner.
  destruct (before_plan_frame e)
    as (Er & Ep & Erib & _ & _ & _ & _ & _ & _ & _ & evs & Eev & Hev).
  destruct (before_plan e) as [[[e1 start] startState] timeRemaining].
  cbn [fst] in Er, Ep, Erib, Eev.
  destruct (plannerPlan _ _ _ _ _ _ _ _) as [plan pl|x pl].
  - unfold getTime.
    cbn -[Double.le Double.sub Double.mul Double.of_Z Double.to_int].
    assert (AllDone ∉ evs ++ [PublishTrajectory plan;
                              DisplayTrajectory plan true; GetTime])
      as Hev'.
    { apply AllDone_not_in_app; [done|]. intros Hin.
      repeat (apply elem_of_cons in Hin as [Hin|Hin]; [discriminate Hin|]).
      by apply elem_of_nil in Hin. }
    destruct (Double.le _ _).
    + destruct (Double.to_int _) as [sleeptime|]; [|done].
      right. split; [done|]. cbn. rewrite Er, Ep, Erib, Eev.
      repeat (split; [done|]).
      exists (evs ++ [PublishTrajectory plan; DisplayTrajectory plan true;
                      GetTime; SleepFor sleeptime]).
      split; [by rewrite <- !app_assoc|].
      apply AllDone_not_in_app; [done|]. intros Hin.
      repeat (apply elem_of_cons in Hin as [Hin|Hin]; [discriminate Hin|]).
      by apply elem_of_nil in Hin.
    + right. split; [done|]. cbn. rewrite Er, Ep, Erib, Eev.
      repeat (split; [done|]).
      exists (evs ++ [PublishTrajectory plan; DisplayTrajectory plan true;
                      GetTime; SleepFor 0]).
      split; [by rewrite <- !app_assoc|].
      apply AllDone_not_in_app; [done|]. intros Hin.
      repeat (apply elem_of_cons in Hin as [Hin|Hin]; [discriminate Hin|]).
      by apply elem_of_nil in Hin.
  - split; [done|]. unfold pause, stopped. cbn. rewrite Ep, Hpause, Er, Hrun.
    cbn. rewrite ?Er, ?Erib, ?Eev. repeat (split; [done|]).
    exists (evs ++ [Cerr "Exception thrown while planning; pausing"]).
    split; [by rewrite <- !app_assoc|].
    apply AllDone_not_in_app; [done|]. intros Hin.
    repeat (apply elem_of_cons in Hin as [Hin|Hin]; [discriminate Hin|]).
    by apply elem_of_nil in Hin.
Qed.

(** X14: the loop of [requestPath], entered running and not paused, never
    returns of itself; when it stops -- waiting, which it does only if
    coverage is complete, or on the planner's exception, which it meets
    only if coverage is not -- the executive is paused, still running,
    and [allDone()] has been called exactly once, as the last thing
    done. *)
Theorem requestPath_stops_paused_once (fuel : nat) (e : Executive) :
  m_Running e = true → m_Pause e = false →
  match requestPath fuel e with
  | Blocked e' => ribbonsDone (e_RibbonManager e) = true ∧ stopped e e'
  | Raised x e' => ribbonsDone (e_RibbonManager e) = false ∧ stopped e e'
  | Returned _ => False
  | Unspecified | MoreTurns => True
  end.
Proof.
  revert e. induction fuel as [|fuel IH]; intros e Hrun Hpause;
    cbn [requestPath]; rewrite Hrun; [done|].
  pose proof (requestPath_turn_spec e Hrun Hpause) as Hturn.
  destruct (requestPath_turn e) as [e'|e'|x e'|]; try done.
  destruct Hturn as [[Hdone ->]|(Hdone & Hrun' & Hpause' & Erib & evs & Eev & Hev)].
  - destruct fuel as [|fuel]; cbn [requestPath]; cbn [m_Running emit
      with_events with_pause]; rewrite Hrun; [done|].
    unfold requestPath_turn. cbn [m_Pause emit with_events with_pause].
    split; [done|]. unfold stopped. cbn. repeat (split; [done|]).
    exists [SleepFor 1000; Cerr "Finished path; pausing"].
    split; [by rewrite <- !app_assoc|].
    intros Hin.
    repeat (apply elem_of_cons in Hin as [Hin|Hin]; [discriminate Hin|]).
    by apply elem_of_nil in Hin.
  - specialize (IH e' Hrun' Hpause'). rewrite Erib in IH.
    assert (∀ e'', stopped e' e'' → stopped e e'') as Hstop.
    { intros e'' (? & ? & Erib'' & evs' & Eev' & Hev').
      repeat (split; [congruence|]).
      exists (evs ++ evs'). rewrite Eev', Eev.
      split; [by rewrite <- !app_assoc|].
      by apply AllDone_not_in_app. }
    destruct (requestPath fuel e') as [e''|e''|x e''| |]; try done.
    + destruct IH. split; [done|]. by apply Hstop.
    + destruct IH. split; [done|]. by apply Hstop.
Qed.

(** X15: when coverage is complete the loop sleeps a second, reports,
    pauses and announces it, then waits: the planner is not asked, the
    ribbons are not displayed, the time is not read. *)
Theorem requestPath_on_complete_coverage (fuel : nat) (e : Executive) :
  m_Running e = true → m_Pause e = false →
  ribbonsDone (e_RibbonManager e) = true →
  requestPath (S (S fuel)) e
  = Blocked (emit AllDone
               (with_pause true
                  (emit (Cerr "Finished path; pausing")
                     (emit (SleepFor 1000) e)))).
Proof.
  intros Hrun Hpause Hdone.
  cbn [requestPath]. rewrite Hrun.
  unfold requestPath_turn at 1. rewrite Hpause, Hdone.
  unfold pause. cbn [m_Pause m_Running emit with_events with_pause negb].
  rewrite Hpause, Hrun. cbn [negb].
  set (e' := emit AllDone _).
  assert (m_Running e' = true) as -> by exact Hrun.
  reflexivity.
Qed.

(** One turn of the loop of an executive that is not paused and no
    longer running: it is a whole turn, and [allDone()] is not called in
    it. *)
Lemma requestPath_turn_not_running (e : Executive) :
  m_Running e = false → m_Pause e = false →
  let ended (e' : Executive) :=
    m_Running e' = false
    ∧ ∃ evs, events e' = events e ++ evs ∧ evs ≠ [] ∧ AllDone ∉ evs in
  match requestPath_turn e with
  | Continue e' => ended e'
  | Thrown x e' => ended e'
  | Waiting _ => False
  | BadConversion => True
  end.
Proof.
  intros Hrun Hpause ended. unfold requestPath_turn. rewrite Hpause.
  assert (∀ (evs l : list (Event Ribbons)),
            l ≠ [] → AllDone ∉ evs → AllDone ∉ l →
            evs ++ l ≠ [] ∧ AllDone ∉ evs ++ l) as Hjoin.
  { intros evs l Hl H1 H2. split; [|by apply AllDone_not_in_app].
    intros Hnil. apply app_eq_nil in Hnil as [_ ?]. done. }
  assert (∀ l : list (Event Ribbons),
            Forall (λ ev, ev ≠ AllDone) l → AllDone ∉ l) as Hnot.
  { intros l Hl Hin. rewrite Forall_forall in Hl. by apply (Hl _ Hin). }
  destruct (ribbonsDone (e_RibbonManager e)) eqn:Edone.
  { unfold pause, ended. cbn. rewrite Hpause, Hrun. cbn.
    split; [done|].
    exists [SleepFor 1000; Cerr "Finished path; pausing"].
    split; [by rewrite <- app_assoc|]. split; [done|].
    apply Hnot. repeat constructor; discriminate. }
  unfold call_planner.
  destruct (before_plan_frame e)
    as (Er & Ep & _ & _ & _ & _ & _ & _ & _ & _ & evs & Eev & Hev).
  destruct (before_plan e) as [[[e1 start] startState] timeRemaining].
  cbn [fst] in Er, Ep, Eev.
  destruct (plannerPlan _ _ _ _ _ _ _ _) as [plan pl|x pl].
  - unfold getTime.
    cbn -[Double.le Double.sub Double.mul Double.of_Z Double.to_int].
    destruct (Double.le _ _).
    + destruct (Double.to_int _) as [sleeptime|]; [|done].
      unfold ended. cbn. rewrite Er, Eev. split; [done|].
      exists (evs ++ [PublishTrajectory plan; DisplayTrajectory plan true;
                      GetTime; SleepFor sleeptime]).
      split; [by rewrite <- !app_assoc|].
      apply Hjoin; [done|done|].
      apply Hnot. repeat constructor; discriminate.
    + unfold ended. cbn. rewrite Er, Eev. split; [done|].
      exists (evs ++ [PublishTrajectory plan; DisplayTrajectory plan true;
                      GetTime; SleepFor 0]).
      split; [by rewrite <- !app_assoc|].
      apply Hjoin; [done|done|].
      apply Hnot. repeat constructor; discriminate.
  - unfold pause, ended. cbn. rewrite Ep, Hpause, Er, Hrun. cbn.
    rewrite ?Er, ?Eev. split; [done|].
    exists (evs ++ [Cerr "Exception thrown while planning; pausing"]).
    split; [by rewrite <- !app_assoc|].
    apply Hjoin; [done|done|].
    apply Hnot. repeat constructor; discriminate.
Qed.

(** X16: [pause()] twice is [pause()] once -- a second call changes
    nothing and announces nothing; after [terminate()] the executive is
    not running, [unPause()] does not set it running again, [pause()]
    announces nothing, and a second [terminate()] changes nothing.  The
    loop of [requestPath] tests [m_Running] at its top only: a loop that
    [terminate()] wakes from its wait runs one more whole turn -- in
    which [allDone()] is not called -- and then ends, by returning or on
    the planner's exception; it does not wait again. *)
Theorem pause_and_terminate_settle (fuel : nat) (e : Executive) :
  pause (pause e) = pause e
  ∧ m_Pause (pause e) = true
  ∧ m_Running (terminate e) = false
  ∧ events (terminate e) = events e
  ∧ m_Running (unPause (terminate e)) = false
  ∧ events (pause (terminate e)) = events e
  ∧ terminate (terminate e) = terminate e
  ∧ (m_Running e = true →
     let ended (e' : Executive) :=
       m_Running e' = false
       ∧ ∃ evs, events e' = events e ++ evs ∧ evs ≠ [] ∧ AllDone ∉ evs in
     match requestPath_woken fuel (terminate e) with
     | Returned e' => ended e'
     | Raised _ e' => ended e'
     | Unspecified => True
     | Blocked _ | MoreTurns => False
     end).
Proof.
  assert (pause (pause e) = pause e
          ∧ m_Pause (pause e) = true
          ∧ m_Running (terminate e) = false
          ∧ events (terminate e) = events e
          ∧ m_Running (unPause (terminate e)) = false
          ∧ events (pause (terminate e)) = events e
          ∧ terminate (terminate e) = terminate e
          ∧ (m_Running e = true → m_Pause (terminate e) = false))
    as (H1 & H2 & H3 & H4 & H5 & H6 & H7 & H8).
  { unfold pause, terminate, unPause.
    destruct (m_Pause e) eqn:Ep, (m_Running e) eqn:Er; cbn;
      rewrite ?Ep, ?Er; cbn; rewrite ?Ep, ?Er; cbn;
      repeat (split; [done|]); done. }
  repeat (split; [done|]).
  intros Hrun ended. unfold requestPath_woken.
  pose proof (requestPath_turn_not_running (terminate e) H3 (H8 Hrun))
    as Hturn.
  rewrite H4 in Hturn.
  destruct (requestPath_turn (terminate e)) as [e'|e'|x e'|]; try done.
  destruct Hturn as [Hrun' Hev].
  destruct fuel; cbn [requestPath]; rewrite Hrun'; done.
Qed.

(** X17: [setVehicleConfiguration] changes the four vehicle figures that
    the next call of the planner receives, and nothing else of the call:
    the planner, the ribbons, the start state and the time remaining are
    those it would have received. *)
Theorem setVehicleConfiguration_reaches_planner
        (maxSpeed turningRadius coverageMaxSpeed
           coverageTurningRadius : double) (e : Executive) :
  let '(e1, _, startState, timeRemaining) := before_plan e in
  call_planner (setVehicleConfiguration maxSpeed turningRadius
                  coverageMaxSpeed coverageTurningRadius e)
  = plannerPlan (m_Planner e1) (e_RibbonManager e1) startState timeRemaining
                maxSpeed turningRadius coverageMaxSpeed
                coverageTurningRadius.
Proof.
  unfold call_planner, before_plan, getEstimatedState, getTime,
    setVehicleConfiguration.
  destruct (m_MapMutex_held e) eqn:Eh;
    cbn -[Double.eq Double.of_Z Double.add Double.sub]; rewrite ?Eh;
    cbn -[Double.eq Double.of_Z Double.add Double.sub];
    destruct (Double.eq _ _); done.
Qed.

(** X18: an update is not counted as coverage when its heading, the last
    heading or the last update time is not a number; since an update
    stores its heading and its time as the last ones, a heading or a time
    that is not a number spoils the update after it as well. *)
Theorem updateCovered_nan_is_not_covered
        (x y speed heading t : double) (e : Executive) :
  Double.is_nan heading = true
  ∨ Double.is_nan (m_LastHeading e) = true
  ∨ Double.is_nan (m_LastUpdateTime e) = true →
  e_RibbonManager (updateCovered x y speed heading t e) = e_RibbonManager e.
Proof.
  intros Hnan. unfold updateCovered. cbn.
  assert (Double.div (Double.sub (m_LastHeading e) heading)
                     (m_LastUpdateTime e) = S754_nan) as ->; [|done].
  destruct Hnan as [Hnan|[Hnan|Hnan]].
  - destruct heading; try discriminate Hnan.
    replace (Double.sub (m_LastHeading e) S754_nan) with S754_nan
      by (by destruct (m_LastHeading e)).
    done.
  - destruct (m_LastHeading e); try discriminate Hnan. done.
  - destruct (m_LastUpdateTime e); try discriminate Hnan.
    by destruct (Double.sub _ _).
Qed.

Lemma double_sub_self (h : double) :
  Double.sub h h = S754_zero false ∨ Double.sub h h = S754_nan.
Proof.
  destruct h as [s|s| |s m e']; cbn.
  - left. by destruct s.
  - right. by destruct s.
  - by right.
  - left. unfold Double.sub, SFsub.
    match goal with
    | |- binary_normalize _ _ ?z _ _ = _ =>
        assert (z = 0%Z) as -> by exact (Z.sub_diag _)
    end.
    done.
Qed.

(** X19: with a last update time of zero, an update that reports the
    heading of the last one is not counted as coverage: the heading rate
    is zero divided by zero. *)
Theorem updateCovered_at_time_zero (x y speed heading t : double)
        (e : Executive) :
  Double.eq (m_LastUpdateTime e) Double.zero = true →
  m_LastHeading e = heading →
  e_RibbonManager (updateCovered x y speed heading t e) = e_RibbonManager e.
Proof.
  intros Hzero Eh. unfold updateCovered. cbn. rewrite Eh.
  destruct (m_LastUpdateTime e) as [s|s| |s m e'];
    try discriminate Hzero; try (destruct s; discriminate Hzero).
  destruct (double_sub_self heading) as [-> | ->]; done.
Qed.

End ExecutiveLoop.

Section MapRefresh.
Context `{L : MapLoaders}.

(** X20: a map that [refreshMap] has loaded is handed to the planner by
    the next turn of [requestPath] that finds the map mutex free, and
    only once; asking again for the same path does nothing, whatever the
    latitude and longitude. *)
Theorem refreshMap_stages_map_once (pathToMapFile current : string)
        (latitude longitude latitude' longitude' : double) (m : Map)
        (e : Executive) :
  m_MapMutex_held e = false → current ≠ pathToMapFile →
  load_map pathToMapFile latitude longitude = Some m →
  ∃ e', refreshMap pathToMapFile latitude longitude current e
        = Some (pathToMapFile, e')
        ∧ refreshMap pathToMapFile latitude' longitude' pathToMapFile e'
          = Some (pathToMapFile, e')
        ∧ events e' = events e
        ∧ m_Planner (before_plan e').1.1.1 = updateMap (m_Planner e) m
        ∧ m_NewMap (before_plan e').1.1.1 = None
        ∧ m_Planner (before_plan (before_plan e').1.1.1).1.1.1
          = updateMap (m_Planner e) m.
Proof.
  intros Hfree Hne Hload. unfold refreshMap. rewrite Hfree, Hload.
  apply String.eqb_neq in Hne. rewrite Hne.
  eexists. split; [reflexivity|].
  cbn [m_MapMutex_held with_planner]. rewrite Hfree, String.eqb_refl.
  split; [done|]. split; [done|].
  set (e' := with_planner (m_Planner e) (Some m) e).
  destruct (before_plan_frame e')
    as (_ & _ & _ & _ & _ & _ & _ & _ & Epl & Enm & _).
  cbn [e' m_MapMutex_held with_planner m_NewMap m_Planner] in Epl, Enm.
  rewrite Hfree in Epl, Enm.
  split; [done|]. split; [done|].
  destruct (before_plan_frame (before_plan e').1.1.1)
    as (_ & _ & _ & _ & _ & _ & _ & _ & Epl2 & _).
  rewrite Epl2, Enm, Epl.
  destruct (m_MapMutex_held (before_plan e').1.1.1); reflexivity.
Qed.

(** X21: when loading fails [refreshMap] swallows the error: it reports
    it, forgets the current path, so that the same request is not
    skipped but tries to load again, and drops the map staged before, if
    any, so that the next turn of [requestPath] leaves the planner's map
    alone. *)
Theorem refreshMap_failure_drops_staged_map (pathToMapFile current : string)
        (latitude longitude : double) (e : Executive) :
  m_MapMutex_held e = false → current ≠ pathToMapFile →
  load_map pathToMapFile latitude longitude = None →
  ∃ e', refreshMap pathToMapFile latitude longitude current e
        = Some (EmptyString, e')
        ∧ m_NewMap e' = None
        ∧ m_Planner (before_plan e').1.1.1 = m_Planner e
        ∧ (pathToMapFile ≠ EmptyString →
           ∃ e'', refreshMap pathToMapFile latitude longitude
                             EmptyString e'
                  = Some (EmptyString, e'')
                  ∧ events e''
                    = events e
                      ++ [Cerr (String.append
                                  "Encountered an error loading map at path "
                                  pathToMapFile);
                          Cerr (String.append
                                  "Encountered an error loading map at path "
                                  pathToMapFile)]).
Proof.
  intros Hfree Hne Hload. unfold refreshMap at 1. rewrite Hfree, Hload.
  apply String.eqb_neq in Hne. rewrite Hne.
  eexists. split; [reflexivity|]. split; [done|].
  match goal with |- context [before_plan ?x] => set (e' := x) end.
  destruct (before_plan_frame e')
    as (_ & _ & _ & _ & _ & _ & _ & _ & Epl & _).
  cbn [e' m_MapMutex_held with_planner emit with_events m_NewMap m_Planner]
    in Epl. rewrite Hfree in Epl.
  split; [done|].
  intros Hpath. unfold refreshMap.
  cbn [e' m_MapMutex_held with_planner emit with_events].
  rewrite Hfree, Hload.
  assert ((EmptyString =? pathToMapFile)%string = false) as ->.
  { apply String.eqb_neq. congruence. }
  eexists. split; [reflexivity|]. cbn. by rewrite <- app_assoc.
Qed.

End MapRefresh.

Lemma requestPath_stops_paused_once_witness :
  m_Running (running_executive 1 0 0) = true
  ∧ m_Pause (running_executive 1 0 0) = false
  ∧ match @requestPath countdown 3 (running_executive 1 0 0)
          return Prop with
    | Blocked e' =>
        ribbonsDone (e_RibbonManager (running_executive 1 0 0)) = true
        ∧ stopped (running_executive 1 0 0) e'
    | Raised x e' =>
        ribbonsDone (e_RibbonManager (running_executive 1 0 0)) = false
        ∧ stopped (running_executive 1 0 0) e'
    | Returned _ => False
    | Unspecified | MoreTurns => True
    end.
Proof.
  split; [reflexivity|]. split; [reflexivity|].
  exact (@requestPath_stops_paused_once countdown 3 (running_executive 1 0 0)
           eq_refl eq_refl).
Defined.

Lemma requestPath_on_complete_coverage_witness :
  m_Running (running_executive 0 0 0) = true
  ∧ m_Pause (running_executive 0 0 0) = false
  ∧ ribbonsDone (e_RibbonManager (running_executive 0 0 0)) = true
  ∧ @requestPath countdown 5 (running_executive 0 0 0)
    = Blocked (emit AllDone
                 (with_pause true
                    (emit (Cerr "Finished path; pausing")
                       (emit (SleepFor 1000) (running_executive 0 0 0))))).
Proof.
  split; [reflexivity|]. split; [reflexivity|]. split; [reflexivity|].
  exact (@requestPath_on_complete_coverage countdown 3
           (running_executive 0 0 0) eq_refl eq_refl eq_refl).
Defined.

(** An update with a heading that is not a number, and the update after
    it, which reports numbers only. *)
Lemma updateCovered_nan_is_not_covered_witness :
  let e1 := updateCovered Double.zero Double.zero Double.zero Double.nan
                          (Double.of_Z 1) (running_executive 3 1 0) in
  (Double.is_nan (Double.of_Z 0) = true
   ∨ Double.is_nan (m_LastHeading e1) = true
   ∨ Double.is_nan (m_LastUpdateTime e1) = true)
  ∧ e_RibbonManager
      (updateCovered Double.zero Double.zero Double.zero (Double.of_Z 0)
                     (Double.of_Z 2) e1)
    = e_RibbonManager e1.
Proof.
  intros e1.
  assert (Double.is_nan (Double.of_Z 0) = true
          ∨ Double.is_nan (m_LastHeading e1) = true
          ∨ Double.is_nan (m_LastUpdateTime e1) = true) as H1
      by (right; left; reflexivity).
  split; [exact H1|].
  exact (@updateCovered_nan_is_not_covered countdown Double.zero Double.zero
           Double.zero (Double.of_Z 0) (Double.of_Z 2) e1 H1).
Defined.

Lemma updateCovered_at_time_zero_witness :
  Double.eq (m_LastUpdateTime (running_executive 3 0 5)) Double.zero = true
  ∧ m_LastHeading (running_executive 3 0 5) = Double.of_Z 5
  ∧ e_RibbonManager
      (updateCovered Double.zero Double.zero Double.zero (Double.of_Z 5)
                     (Double.of_Z 1) (running_executive 3 0 5))
    = e_RibbonManager (running_executive 3 0 5).
Proof.
  split; [reflexivity|]. split; [reflexivity|].
  exact (@updateCovered_at_time_zero countdown Double.zero Double.zero
           Double.zero (Double.of_Z 5) (Double.of_Z 1)
           (running_executive 3 0 5) eq_refl eq_refl).
Defined.

Lemma refreshMap_stages_map_once_witness :
  let e := running_executive 2 0 0 in
  m_MapMutex_held e = false
  ∧ EmptyString ≠ "harbour.map"%string
  ∧ @load_map countdown chart_loaders "harbour.map" Double.zero Double.zero
    = Some tt
  ∧ ∃ e', @refreshMap countdown chart_loaders "harbour.map" Double.zero
                      Double.zero EmptyString e
          = Some ("harbour.map"%string, e')
          ∧ @refreshMap countdown chart_loaders "harbour.map"
                        (Double.of_Z 1) (Double.of_Z 1) "harbour.map" e'
            = Some ("harbour.map"%string, e')
          ∧ events e' = events e
          ∧ m_Planner (before_plan e').1.1.1 = updateMap (m_Planner e) tt
          ∧ m_NewMap (before_plan e').1.1.1 = None
          ∧ m_Planner (before_plan (before_plan e').1.1.1).1.1.1
            = updateMap (m_Planner e) tt.
Proof.
  intros e.
  assert (EmptyString ≠ "harbour.map"%string) as H2 by discriminate.
  split; [reflexivity|]. split; [exact H2|]. split; [reflexivity|].
  exact (@refreshMap_stages_map_once countdown chart_loaders "harbour.map"
           EmptyString Double.zero Double.zero (Double.of_Z 1) (Double.of_Z 1)
           tt e eq_refl H2 eq_refl).
Defined.

Lemma refreshMap_failure_drops_staged_map_witness :
  let e := @with_planner countdown tt (Some tt) (running_executive 2 0 0) in
  let report :=
    @Cerr (@Ribbons countdown)
          "Encountered an error loading map at path missing.tif" in
  m_MapMutex_held e = false
  ∧ "harbour.map"%string ≠ "missing.tif"%string
  ∧ @load_map countdown chart_loaders "missing.tif" Double.zero Double.zero
    = None
  ∧ ∃ e', @refreshMap countdown chart_loaders "missing.tif" Double.zero
                      Double.zero "harbour.map" e
          = Some (EmptyString, e')
          ∧ m_NewMap e' = None
          ∧ m_Planner (before_plan e').1.1.1 = m_Planner e
          ∧ ("missing.tif"%string ≠ EmptyString →
             ∃ e'', @refreshMap countdown chart_loaders "missing.tif"
                                Double.zero Double.zero EmptyString e'
                    = Some (EmptyString, e'')
                    ∧ events e'' = events e ++ [report; report]).
Proof.
  intros e report.
  assert ("harbour.map"%string ≠ "missing.tif"%string) as H2 by discriminate.
  split; [reflexivity|]. split; [exact H2|]. split; [reflexivity|].
  exact (@refreshMap_failure_drops_staged_map countdown chart_loaders
           "missing.tif" "harbour.map" Double.zero Double.zero e
           eq_refl H2 eq_refl).
Defined.

(** A loop that waits on the pause, woken by [terminate()]. *)
Lemma pause_and_terminate_settle_witness :
  let e := @with_pause countdown true (running_executive 2 0 0) in
  m_Running e = true
  ∧ match @requestPath_woken countdown 1 (terminate e) return Prop with
    | Returned e' =>
        m_Running e' = false
        ∧ ∃ evs, events e' = events e ++ evs ∧ evs ≠ [] ∧ AllDone ∉ evs
    | Raised _ e' =>
        m_Running e' = false
        ∧ ∃ evs, events e' = events e ++ evs ∧ evs ≠ [] ∧ AllDone ∉ evs
    | Unspecified => True
    | Blocked _ | MoreTurns => False
    end.
Proof.
  intros e. split; [reflexivity|].
  destruct (@pause_and_terminate_settle countdown 1 e)
    as (_ & _ & _ & _ & _ & _ & _ & Hloop).
  exact (Hloop eq_refl).
Defined.

(* ===================================================================== *)
(** ** What expand writes to the visualization stream *)
(* ===================================================================== *)

Section VisualizationStream.
Context `{Collaborators}.

Lemma generated_refl (p : Planner) : generated p p.
Proof. exists []. rewrite app_nil_r. cbn. split; [done|]. split; [lia|done]. Qed.

Lemma generated_trans (p q r : Planner) :
  generated p q → generated q r →
  (∀ u, u ∈ m_VertexQueue q → u ∈ m_VertexQueue r) →
  generated p r.
Proof.
  intros (l1 & E1 & L1 & F1) (l2 & E2 & L2 & F2) Hmono.
  exists (l1 ++ l2). rewrite E2, E1, <- app_assoc. split; [done|].
  split; [rewrite length_app; lia|].
  apply Forall_app. split; [|done].
  eapply Forall_impl; [exact F1|].
  intros l (? & ? & ?). auto.
Qed.

Lemma pushVertexQueue_keeps (v : Vertex.t) (p : Planner) u :
  u ∈ m_VertexQueue p → u ∈ m_VertexQueue (pushVertexQueue v p).
Proof.
  intros Hu. destruct (pushVertexQueue_perm v p) as [-> | [-> _]];
    [done | by apply list_elem_of_further].
Qed.

Lemma pushVertexQueue_generated (v : Vertex.t) (p : Planner) :
  visualizations (m_Config p) = true → generated p (pushVertexQueue v p).
Proof.
  intros Hv. destruct (pushVertexQueue_cases v p) as [[-> _]|[-> _]];
    [apply generated_refl|].
  unfold visualizeVertex. cbn [m_Config set_vertexQueue]. rewrite Hv.
  exists [mkVis false v "vertex"]. cbn.
  split; [done|]. split; [rewrite push_heap_length, length_app; cbn; lia|].
  constructor; [|done]. split; [done|]. split; [done|]. cbn.
  rewrite push_heap_perm. apply elem_of_app. right. apply list_elem_of_here.
Qed.

Lemma push_best_generated fuel i best (p p' : Planner) :
  visualizations (m_Config p) = true →
  push_best fuel i best p = Ok tt p' →
  generated p p' ∧ ∀ u, u ∈ m_VertexQueue p → u ∈ m_VertexQueue p'.
Proof.
  revert i best p. induction fuel as [|fuel IH]; intros i best p Hv;
    cbn [push_best];
    destruct ((i <? k p)%Z && negb (Z.of_nat (length best) <=? i)%Z);
    try done; try (intros [= <-]; split; [apply generated_refl | done]).
  destruct (best !! 0) as [front|]; [|done].
  set (d := computeTrueCost (m_Config p) front).
  intros E. apply IH in E as [G M].
  2:{ destruct (pushVertexQueue_frame d p) as (_ & -> & _). done. }
  split.
  - eapply generated_trans; [by apply pushVertexQueue_generated | exact G
                            | exact M].
  - intros u Hu. by apply M, pushVertexQueue_keeps.
Qed.

Lemma expand_nearest_generated sourceVertex (p : Planner) :
  visualizations (m_Config p) = true →
  generated p (expand_nearest sourceVertex p)
  ∧ ∀ u, u ∈ m_VertexQueue p → u ∈ m_VertexQueue (expand_nearest sourceVertex p).
Proof.
  intros Hv. unfold expand_nearest.
  destruct (negb (Vertex.done sourceVertex));
    [|split; [apply generated_refl | done]].
  destruct (Double.gt _ _); [|split; [apply generated_refl | done]].
  cbv zeta.
  match goal with
  | |- context [pushVertexQueue ?c2 (note ?g2 (pushVertexQueue ?c1 ?q1))] =>
      set (p1 := q1);
      pose proof (pushVertexQueue_generated c1 p1 Hv) as G1;
      pose proof (pushVertexQueue_keeps c1 p1) as M1;
      destruct (pushVertexQueue_frame c1 p1) as (_ & Ec1 & _);
      set (p2 := pushVertexQueue c1 p1) in *;
      set (p3 := note g2 p2);
      assert (visualizations (m_Config p3) = true) as Hv3
          by (cbn; rewrite Ec1; exact Hv);
      pose proof (pushVertexQueue_generated c2 p3 Hv3) as G2;
      pose proof (pushVertexQueue_keeps c2 p3) as M2
  end.
  split.
  - apply (generated_trans p p2); [exact G1| |exact M2].
    destruct G2 as (l & ? & ? & ?). exists l. done.
  - intros u Hu. apply M2. cbn. apply M1. exact Hu.
Qed.

(** X22: with visualizations switched on, [expand] writes one "Expanded"
    line for the source vertex, then one "Generated" line for each vertex
    it puts on the open list and no other: the open list grows by the
    number of "Generated" lines, and each of them names a vertex that is
    on the open list when [expand] returns. *)
Theorem expand_logs_what_it_pushes (sourceVertex : Vertex.t)
        (obstacles : DynamicObstaclesManager) (p : Planner) :
  visualizations (m_Config p) = true →
  match expand sourceVertex obstacles p with
  | Ok _ p' =>
      ∃ lines,
        visualizationStream p'
        = visualizationStream p ++ mkVis true sourceVertex "vertex" :: lines
        ∧ length (m_VertexQueue p') = length (m_VertexQueue p) + length lines
        ∧ Forall (λ l, vis_expanded l = false ∧ vis_tag l = "vertex"%string
                       ∧ vis_vertex l ∈ m_VertexQueue p') lines
  | _ => True
  end.
Proof.
  intros Hv. unfold expand, bind, lift.
  unfold visualizeVertex at 1. rewrite Hv.
  set (p0 := set_visualizationStream _ p).
  assert (visualizations (m_Config p0) = true) as Hv0 by exact Hv.
  destruct (expand_nearest_generated sourceVertex p0 Hv0) as [G1 M1].
  destruct (expand_nearest_spec sourceVertex p0) as ((Ec1 & _) & _).
  set (p1 := expand_nearest sourceVertex p0) in *.
  pose proof (select_frame sourceVertex p1) as Fsel.
  destruct (select sourceVertex p1) as [sel p2| | |]; try done.
  destruct Fsel as [E2 _].
  assert (visualizations (m_Config p2) = true) as Hv2.
  { rewrite E2. cbn. rewrite Ec1. exact Hv. }
  destruct (push_best_spec (length sel.1) 0 sel.1 p2 ltac:(lia) ltac:(lia))
    as (p3 & E3 & (Ec3 & _) & _).
  rewrite E3.
  destruct (push_best_generated _ _ _ _ _ Hv2 E3) as [G3 M3].
  assert (visualizations (m_Config p3) = true) as Hv3 by (by rewrite Ec3).
  destruct (push_best_spec (length sel.2) 0 sel.2 p3 ltac:(lia) ltac:(lia))
    as (p4 & E4 & _).
  rewrite E4.
  destruct (push_best_generated _ _ _ _ _ Hv3 E4) as [G4 M4].
  assert (generated p1 p2) as G2.
  { rewrite E2. exists []. cbn. rewrite app_nil_r.
    split; [done|]. split; [lia|done]. }
  assert (∀ u, u ∈ m_VertexQueue p1 → u ∈ m_VertexQueue p2) as M2
      by (rewrite E2; done).
  assert (generated p0 p4) as (lines & El & Ll & Fl).
  { apply (generated_trans p0 p1); [exact G1| |exact (λ u Hu, M4 u (M3 u (M2 u Hu)))].
    apply (generated_trans p1 p2); [exact G2| |exact (λ u Hu, M4 u (M3 u Hu))].
    apply (generated_trans p2 p3); [exact G3|exact G4|exact M4]. }
  exists lines. cbn. rewrite El. cbn. rewrite <- app_assoc. done.
Qed.

End VisualizationStream.

Lemma expand_logs_what_it_pushes_witness :
  visualizations (m_Config shown_planner) = true
  ∧ match @expand line_world source_covering tt shown_planner
          return Prop with
    | Ok _ p' =>
        ∃ lines,
          visualizationStream p'
          = visualizationStream shown_planner
            ++ mkVis true source_covering "vertex" :: lines
          ∧ length (m_VertexQueue p')
            = length (m_VertexQueue shown_planner) + length lines
          ∧ Forall (λ l, vis_expanded l = false ∧ vis_tag l = "vertex"%string
                         ∧ vis_vertex l ∈ m_VertexQueue p') lines
    | _ => True
    end.
Proof.
  split; [reflexivity|].
  exact (@expand_logs_what_it_pushes line_world source_covering tt
           shown_planner eq_refl).
Defined.

(* ===================================================================== *)
(** ** Edges of expand and plan *)
(* ===================================================================== *)

Section SearchEdges.
Context `{Collaborators}.

(** X23: with a branching factor of zero and a sample in the pool,
    [expand] reads the front of an empty vector: [bestSamples.size() <
    k()] is false for the empty selection, and [bestSamples.front()] is
    evaluated next. *)
Theorem expand_zero_branching_is_undefined (sourceVertex : Vertex.t)
        (obstacles : DynamicObstaclesManager) (p : Planner) :
  branchingFactor (m_Config p) = 0%Z → m_Samples p ≠ [] →
  expand sourceVertex obstacles p = Undefined.
Proof.
  intros Hk Hne. unfold expand, bind, lift.
  set (p0 := visualizeVertex sourceVertex "vertex" true p).
  destruct (visualizeVertex_untouched sourceVertex "vertex" true p)
    as ((Ec0 & _) & Es0 & _). fold p0 in Ec0, Es0.
  destruct (expand_nearest_spec sourceVertex p0) as ((Ec1 & _) & Es1 & _).
  set (p1 := expand_nearest sourceVertex p0) in *.
  assert (select sourceVertex p1 = Undefined) as ->; [|done].
  unfold select.
  set (p2 := set_samples _ p1).
  assert (length (m_Samples p2) = length (m_Samples p)) as El.
  { unfold p2. cbn [m_Samples set_samples].
    rewrite make_heap_perm, Es1, Es0. done. }
  assert (k p2 = 0%Z) as Ek.
  { unfold k. cbn. rewrite Ec1, Ec0. done. }
  destruct (m_Samples p) as [|s0 rest] eqn:Ep; [done|]. cbn [length] in El.
  rewrite El. cbn [scan]. rewrite El. cbn [Nat.ltb Nat.leb negb orb andb].

  destruct (m_Samples p2 !! 0) as [sample|] eqn:E0.
  2:{ apply lookup_ge_None in E0. lia. }
  set (p3 := set_samples _ p2).
  assert (k p3 = 0%Z) as Ek3 by exact Ek.
  unfold bind at 1. unfold offer at 1. unfold bind at 1. unfold wanted.
  rewrite Ek3. done.
Qed.

(** X24: a start state whose time is not a number is never planned for:
    no vertex satisfies the goal condition, so [plan] throws the
    exception of the empty open list or searches on, whatever the bound
    on its loop. *)
Theorem plan_nan_start_never_returns (fuel : nat)
        (ribbonManager : RibbonManager) (start : State.t)
        (config : PlannerConfig DynamicObstaclesManager)
        (previousPlan : DubinsPlan) (timeRemaining : double) (p : Planner) :
  Double.is_nan (State.time start) = true →
  match plan fuel ribbonManager start config previousPlan timeRemaining p with
  | Ok _ _ => False
  | Throw e p' =>
      e = out_of_range "Trying to pop an empty vertex queue"
      ∧ m_VertexQueue p' = []
  | Undefined | OutOfFuel => True
  end.
Proof.
  intros Hnan. unfold plan, bind.
  cbn [m_Config m_RibbonManager set_config set_startStateTime set_samples
       set_vertexQueue].
  match goal with
  | |- context [addSamples ?g 1000%Z ?q] =>
      destruct (addSamples_frame g 1000%Z q) as (new & E & _);
      set (p0 := (addSamples g 1000%Z q).2) in *
  end.
  assert (m_StartStateTime p0 = State.time start) as Et by (rewrite E; done).
  pose proof (plan_loop_spec fuel (makeRoot start (m_RibbonManager p0)) p0)
    as Hloop.
  destruct (plan_loop fuel _ p0) as [v p'|e p'| |]; try done.
  - destruct Hloop as (G & _). unfold goalCondition in G.
    rewrite Et in G. destruct (State.time start); try discriminate Hnan.
    cbn in G. unfold Double.ge, SFleb in G.
    destruct (State.time (Vertex.state v)); cbn in G;
      rewrite ?andb_false_r in G; discriminate G.
  - destruct Hloop as (-> & Q & _). done.
Qed.

End SearchEdges.

Lemma expand_zero_branching_is_undefined_witness :
  branchingFactor (m_Config childless_planner) = 0%Z
  ∧ m_Samples childless_planner ≠ []
  ∧ @expand line_world source_covering tt childless_planner = Undefined.
Proof.
  assert (m_Samples childless_planner ≠ []) as H2 by discriminate.
  split; [reflexivity|]. split; [exact H2|].
  exact (@expand_zero_branching_is_undefined line_world source_covering tt
           childless_planner eq_refl H2).
Defined.

Lemma plan_nan_start_never_returns_witness :
  Double.is_nan (State.time timeless_start) = true
  ∧ match @plan line_world 3 tt timeless_start (line_config 3 0 2)
                source_done (Double.of_Z 1) undercut_planner
          return Prop with
    | Ok _ _ => False
    | Throw e p' =>
        e = out_of_range "Trying to pop an empty vertex queue"
        ∧ m_VertexQueue p' = []
    | Undefined | OutOfFuel => True
    end.
Proof.
  split; [reflexivity|].
  exact (@plan_nan_start_never_returns line_world 3 tt timeless_start
           (line_config 3 0 2) source_done (Double.of_Z 1) undercut_planner
           eq_refl).
Defined.

(** The search of [plan] does throw in the world on a line: with an
    incumbent that prunes every successor the open list is empty after
    the first expansion. *)
Lemma plan_throws_on_line :
  match @plan line_world 3 tt (on_line 0 0) (line_config 3 0 2) source_done
              (Double.of_Z 1) undercut_planner return Prop with
  | Throw e p' =>
      e = out_of_range "Trying to pop an empty vertex queue"
      ∧ m_ExpandedCount p' = 1%Z
  | _ => False
  end.
Proof. vm_compute. split; reflexivity. Qed.
